(** * Weaverbird session state machine and configuration resolution

    A shallow embedding of the conversation-driven code-generation
    orchestrator (the session states [RefinementState],
    [RefinementIterationState], [CodeGenState], [MockCodeGenState],
    [CodeGenIterationState], the polling loop [generateCode], the change
    materializer [createChanges]) and of the configuration resolver
    [getConfig], followed by the properties proved about them.

    Conventions of the embedding.
    - A JavaScript string is a [string]: the sequence of bytes of its UTF-8
      form.  The code only compares strings, concatenates them, and
      searches or removes ASCII substrings; those agree on both views.
    - [async] code runs single-threaded and every [await] is sequential, so
      a promise-returning function is a computation in the monad [M]: it
      threads the [World] and completes normally or by throwing (a rejected
      promise).  Effects done before a throw stay in the world.
    - Everything outside the orchestrator (the remote invoker, the
      cancellation tokens, the virtual file system, the local file reader)
      is an environment [Env] of oracles.  An oracle is consulted with the
      current logical time [tick], which advances at every consultation,
      so an environment may answer each call differently. *)

From Stdlib Require Import ZArith QArith List String Ascii Bool Arith Lia DecimalString.
Import ListNotations.

Local Close Scope Q_scope.
Local Open Scope string_scope.
Local Open Scope list_scope.
#[local] Set Warnings "-register-all".

(* ================================================================== *)
(** * Strings *)
(* ================================================================== *)

Module JsString.

(** [String.prototype.indexOf(pat)] from position 0: the offset of the
    first occurrence of [pat], or [-1].  The callers only compare the
    result with [-1]. *)
Fixpoint indexOf_from (pat s : string) (i : Z) : Z :=
  if String.prefix pat s then i
  else match s with
       | EmptyString => (-1)%Z
       | String _ s' => indexOf_from pat s' (i + 1)%Z
       end.

Definition indexOf (s pat : string) : Z := indexOf_from pat s 0%Z.

Fixpoint drop (n : nat) (s : string) : string :=
  match n, s with
  | O, _ => s
  | S _, EmptyString => EmptyString
  | S n', String _ s' => drop n' s'
  end.

(** [String.prototype.replace(pat, rep)] with a string pattern: only the
    first occurrence is replaced.  [rep] is taken literally (the code
    passes the empty string, which has no [$] pattern). *)
Fixpoint replace (s pat rep : string) : string :=
  if String.prefix pat s then rep ++ drop (String.length pat) s
  else match s with
       | EmptyString => EmptyString
       | String c s' => String c (replace s' pat rep)
       end.

(** Truthiness of an optional string: [undefined] and the empty string
    are falsy. *)
Definition truthy (o : option string) : bool :=
  match o with
  | None => false
  | Some s => negb (String.eqb s EmptyString)
  end.

(** [o ?? d] on an optional string. *)
Definition nullish (o : option string) (d : string) : string :=
  match o with
  | None => d
  | Some s => s
  end.

End JsString.

(* ================================================================== *)
(** * Data model (types.ts and the client declarations)

    The declarations of the service client ([FileMetadata] and the inputs
    and outputs of the four remote operations) are not among the sources;
    each record has the fields the state machine writes or reads, an
    optional field being one the code guards with [??] or [?.]. *)
(* ================================================================== *)

Record FileMetadata := mkFile { filePath : string; fileContent : string }.

Definition NewFileContents := list FileMetadata.

Inductive GenerationFlowOption := fargate | lambda | stepFunction.

Record LLMConfig := {
  model : string;
  maxTokensToSample : Z;
  temperature : Q;
  debateRounds : Z;
  generationFlow : GenerationFlowOption
}.

(** [LocalResolvedConfig], as [getConfig] builds it.  The declared field
    type is [string]; the resolver stores whatever value the parsed blob
    holds, so the record is parametric in the type of its leaves. *)
Record ApproachArns (V : Type) := { approach_generate : V; approach_iterate : V }.
Record CodegenArns (V : Type) := {
  codegen_generate : V; codegen_iterate : V; codegen_getResults : V }.
Record LambdaArns (V : Type) := {
  arns_approach : ApproachArns V; arns_codegen : CodegenArns V }.
Record LocalResolvedConfig (V : Type) := {
  endpoint : V; region : V; lambdaArns : LambdaArns V }.

Arguments approach_generate {V} _.
Arguments approach_iterate {V} _.
Arguments codegen_generate {V} _.
Arguments codegen_iterate {V} _.
Arguments codegen_getResults {V} _.
Arguments arns_approach {V} _.
Arguments arns_codegen {V} _.
Arguments endpoint {V} _.
Arguments region {V} _.
Arguments lambdaArns {V} _.

Inductive LambdaClient := LambdaClientHandle (id : nat).

(** [Omit<SessionStateConfig, 'conversationId'>]. *)
Record SessionStateConfigBase := {
  base_client : LambdaClient;
  base_llmConfig : LLMConfig;
  base_workspaceRoot : string;
  base_backendConfig : LocalResolvedConfig string
}.

Record SessionStateConfig := {
  client : LambdaClient;
  llmConfig : LLMConfig;
  workspaceRoot : string;
  backendConfig : LocalResolvedConfig string;
  conversationId : string
}.

(** [{ ...config, conversationId }]. *)
Definition withConversationId (c : SessionStateConfigBase) (cid : string)
  : SessionStateConfig :=
  {| client := base_client c;
     llmConfig := base_llmConfig c;
     workspaceRoot := base_workspaceRoot c;
     backendConfig := base_backendConfig c;
     conversationId := cid |}.

Inductive Origin := user | ai.

(** An [Interaction] as the state machine builds it ([origin], [type],
    [content]): the [type] tag is the constructor of the content. *)
Inductive InteractionContent :=
| message (content : string)
| codegen (content : list string).

Record Interaction := { origin : Origin; content : InteractionContent }.

Definition aiMessage (s : string) : Interaction :=
  {| origin := ai; content := message s |}.

(** ** Requests and responses of the remote operations *)

Record GenerateApproachInput := {
  ga_task : string;
  ga_originalFileContents : list FileMetadata;
  ga_config : LLMConfig
}.

Record GenerateApproachOutput := {
  ga_approach : option string;
  ga_conversationId : string
}.

Record IterateApproachInput := {
  ia_task : string;
  ia_request : string;
  ia_approach : string;
  ia_originalFileContents : list FileMetadata;
  ia_config : LLMConfig;
  ia_conversationId : string
}.

Record IterateApproachOutput := { ia_out_approach : option string }.

Record GenerateCodeInput := {
  gc_originalFileContents : list FileMetadata;
  gc_approach : string;
  gc_task : string;
  gc_config : LLMConfig;
  gc_conversationId : string
}.

Record GenerateCodeOutput := { generationId : string }.

Record GetCodeGenerationResultInput := {
  gr_generationId : string;
  gr_conversationId : string
}.

Record CodeGenerationResult := { newFileContents : option (list FileMetadata) }.

Record GetCodeGenerationResultOutput := {
  codeGenerationStatus : string;
  result : option CodeGenerationResult
}.

Inductive Payload :=
| GenerateApproach (p : GenerateApproachInput)
| IterateApproach (p : IterateApproachInput)
| GenerateCode (p : GenerateCodeInput)
| GetCodeGenerationResult (p : GetCodeGenerationResultInput).

(** One call of [invoke(client, arn, payload)]. *)
Record Invocation := {
  inv_client : LambdaClient;
  inv_arn : string;
  inv_payload : Payload
}.

Definition isStatusFetch (i : Invocation) : bool :=
  match inv_payload i with
  | GetCodeGenerationResult _ => true
  | _ => false
  end.

(** ** Completions, errors and the world

    [World] is what the state machine changes: the logical time, the next
    fresh token source, the remote calls made, the interaction lists fired
    on the history emitter, the providers registered in the virtual file
    system, the log, and the time slept.

    [Env] is what the state machine consults and does not define: the
    invoker ([./invoke]), one oracle per remote operation; the state of a
    cancellation token at a time; [vscode.Uri.from] and the outcome of
    [registerProvider]; [FileSystemCommon.stat] and [collectFiles];
    [path.join]; the constant [weaverbirdScheme].  Each of them is a
    parameter of the model, and any of the calls may throw. *)

Inductive JsError :=
| HostError (name : string) (description : string)
| InvalidConfigVersion (required : Z) (found : option Z).

Inductive Completion (A : Type) :=
| Normal (value : A)
| Throw (error : JsError).
Arguments Normal {A} _.
Arguments Throw {A} _.

Record Uri := { scheme : string; path : string }.

Inductive LogEntry :=
| LogInfoCodegenResponse (r : GetCodeGenerationResultOutput)
| LogError (text : string)
| LogErrorWith (format : string) (e : JsError)
| LogInvalidConfigVersion (required : Z) (found : option Z).

Definition CancellationTokenSource := nat.

Record World := mkWorld {
  tick : nat;
  nextToken : CancellationTokenSource;
  calls : list Invocation;
  history : list (list Interaction);
  registered : list (Uri * string);
  log : list LogEntry;
  elapsed : Z
}.

Record Env := {
  invokeGenerateApproach : nat -> Invocation -> Completion GenerateApproachOutput;
  invokeIterateApproach : nat -> Invocation -> Completion IterateApproachOutput;
  invokeGenerateCode : nat -> Invocation -> Completion GenerateCodeOutput;
  invokeGetResult : nat -> Invocation -> Completion GetCodeGenerationResultOutput;
  isCancellationRequested : CancellationTokenSource -> nat -> bool;
  uriFrom : string -> string -> Completion Uri;
  registerProviderOutcome : nat -> Uri -> string -> Completion unit;
  statOutcome : nat -> string -> Completion bool;
  collectFilesOutcome : nat -> string -> Completion (list FileMetadata);
  pathJoin : string -> string -> string;
  weaverbirdScheme : string
}.

(** ** Session states

    Each class is a constructor carrying its fields.  [CodeGenState] and
    [CodeGenIterationState] extend [CodeGenBase], whose private
    [pollCount] is the constant below. *)

Inductive SessionState :=
| RefinementState (config : SessionStateConfigBase) (approach : string)
    (tokenSource : CancellationTokenSource)
| RefinementIterationState (config : SessionStateConfig) (approach : string)
    (tokenSource : CancellationTokenSource)
| CodeGenState (config : SessionStateConfig) (approach : string)
    (tokenSource : CancellationTokenSource)
| MockCodeGenState (config : SessionStateConfig) (approach : string)
    (tokenSource : CancellationTokenSource)
| CodeGenIterationState (config : SessionStateConfig) (approach : string)
    (tokenSource : CancellationTokenSource) (newFileContents : list FileMetadata).

Record SessionStateInteraction := {
  nextState : SessionState;
  interactions : list Interaction
}.

(** The fields of an action that [interact] reads.  Its [onAddToHistory]
    emitter and its [fs] handle designate the [history] and [registered]
    components of the world. *)
Record SessionStateAction := {
  task : string;
  files : list FileMetadata;
  msg : option string
}.

Definition pollCount : nat := 60.

Definition problemText : string :=
  "There has been a problem generating an approach. Please type 'CLEAR' and start over.".

Definition newline : string := String (ascii_of_nat 10) EmptyString.

(* ================================================================== *)
(** * The effect monad *)
(* ================================================================== *)

(** A computation over a state [S] that completes normally or throws. *)
Definition ST (S A : Type) : Type := S -> Completion A * S.

Definition M (A : Type) : Type := ST World A.

Definition ret {S A} (a : A) : ST S A := fun w => (Normal a, w).

Definition throw {S A} (e : JsError) : ST S A := fun w => (Throw e, w).

Definition bind {S A B} (m : ST S A) (k : A -> ST S B) : ST S B :=
  fun w =>
    match m w with
    | (Normal a, w') => k a w'
    | (Throw e, w') => (Throw e, w')
    end.

(** [try m catch (e) h] and [promise.catch(h)]. *)
Definition catch {S A} (m : ST S A) (h : JsError -> ST S A) : ST S A :=
  fun w =>
    match m w with
    | (Normal a, w') => (Normal a, w')
    | (Throw e, w') => h e w'
    end.

Definition liftCompletion {S A} (c : Completion A) : ST S A := fun w => (c, w).

Declare Scope monad_scope.
Delimit Scope monad_scope with monad.
Notation "x <- m ;; k" := (bind m (fun x => k))
  (at level 61, m at next level, right associativity) : monad_scope.
Notation "m ;; k" := (bind m (fun _ => k))
  (at level 61, right associativity) : monad_scope.
Local Open Scope monad_scope.

(** ** World updates *)

Definition advance (w : World) : World :=
  mkWorld (S (tick w)) (nextToken w) (calls w) (history w) (registered w)
          (log w) (elapsed w).

Definition recordCall (i : Invocation) (w : World) : World :=
  mkWorld (tick w) (nextToken w) (calls w ++ [i]) (history w) (registered w)
          (log w) (elapsed w).

Definition recordFire (l : list Interaction) (w : World) : World :=
  mkWorld (tick w) (nextToken w) (calls w) (history w ++ [l]) (registered w)
          (log w) (elapsed w).

Definition recordProvider (u : Uri) (bytes : string) (w : World) : World :=
  mkWorld (tick w) (nextToken w) (calls w) (history w)
          (registered w ++ [(u, bytes)]) (log w) (elapsed w).

Definition recordLog (e : LogEntry) (w : World) : World :=
  mkWorld (tick w) (nextToken w) (calls w) (history w) (registered w)
          (log w ++ [e]) (elapsed w).

Definition recordDelay (ms : Z) (w : World) : World :=
  mkWorld (tick w) (nextToken w) (calls w) (history w) (registered w)
          (log w) (elapsed w + ms)%Z.

Definition allocToken (w : World) : World :=
  mkWorld (tick w) (S (nextToken w)) (calls w) (history w) (registered w)
          (log w) (elapsed w).

(** [emitter.fire(l)]. *)
Definition fire (l : list Interaction) : M unit :=
  fun w => (Normal tt, recordFire l w).

(** [getLogger().info(..)] and [getLogger().error(..)]. *)
Definition logger (e : LogEntry) : M unit :=
  fun w => (Normal tt, recordLog e w).

(** [await new Promise(f => setTimeout(f, ms))]. *)
Definition delay (ms : Z) : M unit :=
  fun w => (Normal tt, recordDelay ms w).

(** [new vscode.CancellationTokenSource()]. *)
Definition newTokenSource : M CancellationTokenSource :=
  fun w => (Normal (nextToken w), allocToken w).

(** [TextEncoder.encode]: the UTF-8 bytes, which is what a [string] holds. *)
Definition encode (s : string) : string := s.

Section Orchestrator.

Variable env : Env.

(** [await invoke<I, O>(client, arn, payload)]: the call is recorded, the
    oracle of the operation answers at the current tick. *)
Definition invoke {I O : Type}
    (oracle : Env -> nat -> Invocation -> Completion O) (wrap : I -> Payload)
    (c : LambdaClient) (arn : string) (payload : I) : M O :=
  fun w =>
    let i := {| inv_client := c; inv_arn := arn; inv_payload := wrap payload |} in
    (oracle env (tick w) i, advance (recordCall i w)).

(** [tokenSource.token.isCancellationRequested]. *)
Definition cancellationRequested (t : CancellationTokenSource) : M bool :=
  fun w => (Normal (isCancellationRequested env t (tick w)), advance w).

(** [fs.registerProvider(uri, new VirtualMemoryFile(contents))]. *)
Definition registerProvider (u : Uri) (contents : string) : M unit :=
  fun w =>
    match registerProviderOutcome env (tick w) u contents with
    | Normal _ => (Normal tt, advance (recordProvider u contents w))
    | Throw e => (Throw e, advance w)
    end.

(** [FileSystemCommon.instance.stat(dir)], by the truthiness of its result. *)
Definition stat (dir : string) : M bool :=
  fun w => (statOutcome env (tick w) dir, advance w).

Definition collectFiles (dir : string) : M (list FileMetadata) :=
  fun w => (collectFilesOutcome env (tick w) dir, advance w).

(** *** createChanges *)

Fixpoint registerAll (newFiles : list FileMetadata) (filePaths : list string)
  : M (list string) :=
  match newFiles with
  | [] => ret filePaths
  | f :: rest =>
      let contents := encode (fileContent f) in
      uri <- liftCompletion (uriFrom env (weaverbirdScheme env) (filePath f)) ;;
      registerProvider uri contents ;;
      registerAll rest (filePaths ++ [filePath f])
  end.

Definition createChanges (newFiles : list FileMetadata) : M (list Interaction) :=
  filePaths <- registerAll newFiles [] ;;
  ret [ aiMessage "Changes to files done. Please review:";
        {| origin := ai; content := codegen filePaths |} ].

(** *** CodeGenBase.generateCode *)

Definition timeoutText : string :=
  "Code generation did not finish withing the expected time :(".

Definition unknownStatusText (status : string) : string :=
  "Unknown status: " ++ status ++ newline.

(** [codegenResult.result?.newFileContents ?? []]. *)
Definition resultFiles (codegenResult : GetCodeGenerationResultOutput)
  : list FileMetadata :=
  match result codegenResult with
  | Some r => match newFileContents r with
              | Some l => l
              | None => []
              end
  | None => []
  end.

(** The statements after the [for] loop. *)
Definition stillInProgress : M (list FileMetadata) :=
  logger (LogError timeoutText) ;;
  fire [aiMessage timeoutText] ;;
  ret [].

(** The [for] loop, by the number of iterations left before
    [pollingIteration] reaches [pollCount]. *)
Fixpoint pollLoop (remaining : nat) (config : SessionStateConfig)
    (tokenSource : CancellationTokenSource)
    (getResultLambdaArn generationId : string) : M (list FileMetadata) :=
  match remaining with
  | O => stillInProgress
  | S remaining' =>
      cancelled <- cancellationRequested tokenSource ;;
      if cancelled then stillInProgress
      else
        let payload := {| gr_generationId := generationId;
                          gr_conversationId := conversationId config |} in
        codegenResult <- invoke invokeGetResult GetCodeGenerationResult
                           (client config) getResultLambdaArn payload ;;
        logger (LogInfoCodegenResponse codegenResult) ;;
        let status := codeGenerationStatus codegenResult in
        if String.eqb status "ready" then
          let newFiles := resultFiles codegenResult in
          changes <- createChanges newFiles ;;
          fire changes ;;
          ret newFiles
        else if String.eqb status "in-progress" then
          delay 10000 ;;
          pollLoop remaining' config tokenSource getResultLambdaArn generationId
        else if String.eqb status "failed" then
          logger (LogError "Failed to generate code") ;;
          fire [aiMessage ("Code generation failed" ++ newline)] ;;
          ret []
        else
          let errorMessage := unknownStatusText status in
          logger (LogError errorMessage) ;;
          fire [aiMessage errorMessage] ;;
          ret []
  end.

Definition generateCode (config : SessionStateConfig)
    (tokenSource : CancellationTokenSource)
    (getResultLambdaArn generationId : string) : M (list FileMetadata) :=
  pollLoop pollCount config tokenSource getResultLambdaArn generationId.

(** *** Constructors *)

Definition new_RefinementState (config : SessionStateConfigBase)
    (approach : string) : M SessionState :=
  t <- newTokenSource ;; ret (RefinementState config approach t).

Definition new_RefinementIterationState (config : SessionStateConfig)
    (approach : string) : M SessionState :=
  t <- newTokenSource ;; ret (RefinementIterationState config approach t).

Definition new_CodeGenState (config : SessionStateConfig)
    (approach : string) : M SessionState :=
  t <- newTokenSource ;; ret (CodeGenState config approach t).

Definition new_MockCodeGenState (config : SessionStateConfig)
    (approach : string) : M SessionState :=
  t <- newTokenSource ;; ret (MockCodeGenState config approach t).

Definition new_CodeGenIterationState (config : SessionStateConfig)
    (approach : string) (newFiles : list FileMetadata) : M SessionState :=
  t <- newTokenSource ;; ret (CodeGenIterationState config approach t newFiles).

Definition generationFailedHandler (_ : JsError) : M (list FileMetadata) :=
  logger (LogError "Failed to generate code") ;;
  ret [].

Definition codegenStarted : list Interaction :=
  [aiMessage ("Code generation started" ++ newline)].

(** *** CodeGenState.interact *)

Definition CodeGenState_interact (config : SessionStateConfig)
    (approach : string) (tokenSource : CancellationTokenSource)
    (action : SessionStateAction) : M SessionStateInteraction :=
  let payload := {| gc_originalFileContents := files action;
                    gc_approach := approach;
                    gc_task := task action;
                    gc_config := llmConfig config;
                    gc_conversationId := conversationId config |} in
  response <- invoke invokeGenerateCode GenerateCode (client config)
                (codegen_generate (arns_codegen (lambdaArns (backendConfig config))))
                payload ;;
  let genId := generationId response in
  fire codegenStarted ;;
  newFiles <- catch
                (generateCode config tokenSource
                   (codegen_getResults (arns_codegen (lambdaArns (backendConfig config))))
                   genId)
                generationFailedHandler ;;
  next <- new_CodeGenIterationState config approach newFiles ;;
  ret {| nextState := next; interactions := [] |}.

(** *** MockCodeGenState.interact *)

Definition MockCodeGenState_interact (config : SessionStateConfig)
    (approach : string) (tokenSource : CancellationTokenSource)
    (action : SessionStateAction) : M SessionStateInteraction :=
  let mockedFilesDir := pathJoin env (workspaceRoot config) "./mock-data" in
  newFiles <- catch
                (mockDirectoryExists <- stat mockedFilesDir ;;
                 if mockDirectoryExists then
                   fs <- collectFiles mockedFilesDir ;;
                   ret (map (fun f =>
                               {| filePath := JsString.replace (filePath f) "mock-data/" EmptyString;
                                  fileContent := fileContent f |}) fs)
                 else ret [])
                (fun e =>
                   logger (LogErrorWith "Unable to use mock code generation: %O" e) ;;
                   ret []) ;;
  next <- new_CodeGenIterationState config approach newFiles ;;
  changes <- createChanges newFiles ;;
  ret {| nextState := next; interactions := changes |}.

(** *** CodeGenIterationState.interact *)

(** [[...newFiles].concat(...files.filter(o => !newFiles.some(n =>
    n.filePath === o.filePath)))]. *)
Definition mergeFileContents (newFiles originals : list FileMetadata)
  : list FileMetadata :=
  newFiles ++
  filter (fun originalFile =>
            negb (existsb (fun newFile =>
                             String.eqb (filePath newFile) (filePath originalFile))
                          newFiles))
         originals.

Definition CodeGenIterationState_interact (config : SessionStateConfig)
    (approach : string) (tokenSource : CancellationTokenSource)
    (newFiles : list FileMetadata)
    (action : SessionStateAction) : M SessionStateInteraction :=
  let fileContents := mergeFileContents newFiles (files action) in
  let payload := {| gc_originalFileContents := fileContents;
                    gc_approach := approach;
                    gc_task := task action;
                    gc_config := llmConfig config;
                    gc_conversationId := conversationId config |} in
  response <- invoke invokeGenerateCode GenerateCode (client config)
                (codegen_generate (arns_codegen (lambdaArns (backendConfig config))))
                payload ;;
  let genId := generationId response in
  fire codegenStarted ;;
  newFiles' <- catch
                 (generateCode config tokenSource
                    (codegen_getResults (arns_codegen (lambdaArns (backendConfig config))))
                    genId)
                 generationFailedHandler ;;
  ret {| nextState := CodeGenIterationState config approach tokenSource newFiles';
         interactions := [aiMessage "Changes to files done"] |}.

(** *** RefinementState.interact *)

Definition RefinementState_interact (config : SessionStateConfigBase)
    (approach : string) (tokenSource : CancellationTokenSource)
    (action : SessionStateAction) : M SessionStateInteraction :=
  let payload := {| ga_task := task action;
                    ga_originalFileContents := files action;
                    ga_config := base_llmConfig config |} in
  response <- invoke invokeGenerateApproach GenerateApproach (base_client config)
                (approach_generate (arns_approach (lambdaArns (base_backendConfig config))))
                payload ;;
  let approach' := JsString.nullish (ga_approach response) problemText in
  next <- new_RefinementIterationState
            (withConversationId config (ga_conversationId response)) approach' ;;
  ret {| nextState := next;
         interactions := [aiMessage (approach' ++ newline)] |}.

(** *** RefinementIterationState.interact

    [new CodeGenState(config, approach).interact(action)] builds the
    object (a fresh token source, [config], [approach]) and runs its
    [interact] on those fields. *)

Definition containsDirective (m : option string) (directive : string) : bool :=
  JsString.truthy m &&
  negb (Z.eqb (JsString.indexOf (JsString.nullish m EmptyString) directive) (-1)).

Definition approachIteration (config : SessionStateConfig)
    (approach : string) (action : SessionStateAction) : M SessionStateInteraction :=
  let payload := {| ia_task := task action;
                    ia_request := JsString.nullish (msg action) EmptyString;
                    ia_approach := approach;
                    ia_originalFileContents := files action;
                    ia_config := llmConfig config;
                    ia_conversationId := conversationId config |} in
  response <- invoke invokeIterateApproach IterateApproach (client config)
                (approach_iterate (arns_approach (lambdaArns (backendConfig config))))
                payload ;;
  let approach' := JsString.nullish (ia_out_approach response) problemText in
  next <- new_RefinementIterationState config approach' ;;
  ret {| nextState := next;
         interactions := [aiMessage (approach' ++ newline)] |}.

Definition RefinementIterationState_interact (config : SessionStateConfig)
    (approach : string) (tokenSource : CancellationTokenSource)
    (action : SessionStateAction) : M SessionStateInteraction :=
  if containsDirective (msg action) "WRITE CODE" then
    fresh <- newTokenSource ;;
    CodeGenState_interact config approach fresh action
  else if containsDirective (msg action) "MOCK CODE" then
    fresh <- newTokenSource ;;
    MockCodeGenState_interact config approach fresh action
  else approachIteration config approach action.

(** *** The uniform [interact] contract *)

Definition interact (s : SessionState) (action : SessionStateAction)
  : M SessionStateInteraction :=
  match s with
  | RefinementState c a t => RefinementState_interact c a t action
  | RefinementIterationState c a t => RefinementIterationState_interact c a t action
  | CodeGenState c a t => CodeGenState_interact c a t action
  | MockCodeGenState c a t => MockCodeGenState_interact c a t action
  | CodeGenIterationState c a t l => CodeGenIterationState_interact c a t l action
  end.

End Orchestrator.

(* ================================================================== *)
(** * JSON values and the host functions the resolver calls *)
(* ================================================================== *)

Module Json.

(** A JavaScript value reachable from [JSON.parse] and property reads.
    A number keeps the text of its literal: its double is a function of
    that text. *)
Inductive JSValue :=
| JUndefined
| JNull
| JBool (b : bool)
| JNumber (literal : string)
| JString (s : string)
| JArray (elements : list JSValue)
| JObject (properties : list (string * JSValue)).

Definition code (c : ascii) : N := N_of_ascii c.

Definition isJsonWs (c : ascii) : bool :=
  (code c =? 32)%N || (code c =? 9)%N || (code c =? 10)%N || (code c =? 13)%N.

Fixpoint skipWs (s : string) : string :=
  match s with
  | String c r => if isJsonWs c then skipWs r else s
  | EmptyString => s
  end.

Definition isDigit (c : ascii) : bool :=
  (48 <=? code c)%N && (code c <=? 57)%N.

(** The longest prefix of decimal digits, and what follows it. *)
Fixpoint digits (s : string) : string * string :=
  match s with
  | String c r =>
      if isDigit c then let (d, r') := digits r in (String c d, r')
      else (EmptyString, s)
  | EmptyString => (EmptyString, EmptyString)
  end.

Definition hexValue (c : ascii) : option N :=
  let n := code c in
  if (48 <=? n)%N && (n <=? 57)%N then Some (n - 48)%N
  else if (97 <=? n)%N && (n <=? 102)%N then Some (n - 87)%N
  else if (65 <=? n)%N && (n <=? 70)%N then Some (n - 55)%N
  else None.

Definition hex4 (a b c d : ascii) : option N :=
  match hexValue a, hexValue b, hexValue c, hexValue d with
  | Some x, Some y, Some z, Some t => Some (((x * 16 + y) * 16 + z) * 16 + t)%N
  | _, _, _, _ => None
  end.

Definition byte (n : N) : string := String (ascii_of_N n) EmptyString.

(** The UTF-8 bytes of a code point (a lone surrogate takes the
    three-byte form). *)
Definition utf8 (cp : N) : string :=
  if (cp <? 128)%N then byte cp
  else if (cp <? 2048)%N then
    byte (192 + cp / 64) ++ byte (128 + cp mod 64)
  else if (cp <? 65536)%N then
    byte (224 + cp / 4096) ++ byte (128 + (cp / 64) mod 64) ++ byte (128 + cp mod 64)
  else
    byte (240 + cp / 262144) ++ byte (128 + (cp / 4096) mod 64) ++
    byte (128 + (cp / 64) mod 64) ++ byte (128 + cp mod 64).

Definition isLeadSurrogate (n : N) : bool := (55296 <=? n)%N && (n <=? 56319)%N.
Definition isTrailSurrogate (n : N) : bool := (56320 <=? n)%N && (n <=? 57343)%N.

Definition simpleEscape (c : ascii) : option string :=
  let n := code c in
  if (n =? 34)%N then Some (byte 34)
  else if (n =? 92)%N then Some (byte 92)
  else if (n =? 47)%N then Some (byte 47)
  else if (n =? 98)%N then Some (byte 8)
  else if (n =? 102)%N then Some (byte 12)
  else if (n =? 110)%N then Some (byte 10)
  else if (n =? 114)%N then Some (byte 13)
  else if (n =? 116)%N then Some (byte 9)
  else None.

(** The characters of a JSON string after its opening quote, up to and
    including the closing quote. *)
Fixpoint lexString (s : string) (acc : string) : option (string * string) :=
  match s with
  | EmptyString => None
  | String c r =>
      if (code c =? 34)%N then Some (acc, r)
      else if (code c =? 92)%N then
        match r with
        | EmptyString => None
        | String e r1 =>
            if (code e =? 117)%N then
              match r1 with
              | String h1 (String h2 (String h3 (String h4 r2))) =>
                  match hex4 h1 h2 h3 h4 with
                  | None => None
                  | Some u =>
                      match r2 with
                      | String b (String v (String k1 (String k2 (String k3 (String k4 r3))))) =>
                          match hex4 k1 k2 k3 k4 with
                          | Some t =>
                              if (code b =? 92)%N && (code v =? 117)%N
                                 && isLeadSurrogate u && isTrailSurrogate t
                              then lexString r3
                                     (acc ++ utf8 (65536 + (u - 55296) * 1024 + (t - 56320)))
                              else lexString r2 (acc ++ utf8 u)
                          | None => lexString r2 (acc ++ utf8 u)
                          end
                      | _ => lexString r2 (acc ++ utf8 u)
                      end
                  end
              | _ => None
              end
            else
              match simpleEscape e with
              | Some x => lexString r1 (acc ++ x)
              | None => None
              end
        end
      else if (code c <? 32)%N then None
      else lexString r (acc ++ String c EmptyString)
  end.

(** A JSON number literal: an optional minus sign; [0] or a non-zero
    digit followed by digits; an optional fraction (a dot and at least
    one digit); an optional exponent ([e] or [E], an optional sign, at
    least one digit).  The literal's text is returned. *)
Definition lexNumber (s : string) : option (string * string) :=
  let '(sign, s1) :=
    match s with
    | String c r => if (code c =? 45)%N then (String c EmptyString, r) else (EmptyString, s)
    | EmptyString => (EmptyString, s)
    end in
  match s1 with
  | EmptyString => None
  | String c r =>
      if negb (isDigit c) then None
      else
        let '(int, s2) :=
          if (code c =? 48)%N then (String c EmptyString, r)
          else let (d, r') := digits r in (String c d, r') in
        let frac :=
          match s2 with
          | String p r' =>
              if (code p =? 46)%N then
                let (d, r'') := digits r' in
                match d with
                | EmptyString => None
                | _ => Some (String p d, r'')
                end
              else Some (EmptyString, s2)
          | EmptyString => Some (EmptyString, s2)
          end in
        match frac with
        | None => None
        | Some (f, s3) =>
            match s3 with
            | String e r' =>
                if (code e =? 101)%N || (code e =? 69)%N then
                  let '(esign, r'') :=
                    match r' with
                    | String g r2 =>
                        if (code g =? 43)%N || (code g =? 45)%N
                        then (String g EmptyString, r2) else (EmptyString, r')
                    | EmptyString => (EmptyString, r')
                    end in
                  let (d, r3) := digits r'' in
                  match d with
                  | EmptyString => None
                  | _ => Some ((sign ++ int ++ f ++ String e esign ++ d)%string, r3)
                  end
                else Some ((sign ++ int ++ f)%string, s3)
            | EmptyString => Some ((sign ++ int ++ f)%string, s3)
            end
        end
  end.

(** [rest] when [s] starts with [word]. *)
Definition keyword (word s : string) : option string :=
  if String.prefix word s then Some (JsString.drop (String.length word) s) else None.

Definition ParseResult : Type := option (JSValue * string).

(** One value at the head of [s]: an object, an array, a string, a number
    or one of the three literal names.  [members] and [elements] parse
    what follows the opening bracket of a non-empty object or array. *)
Definition valueStep
    (members : string -> list (string * JSValue) -> ParseResult)
    (elements : string -> list JSValue -> ParseResult)
    (s : string) : ParseResult :=
  match s with
  | EmptyString => None
  | String c r =>
      if (code c =? 123)%N then
        match skipWs r with
        | String c' r' =>
            if (code c' =? 125)%N then Some (JObject [], r')
            else members (String c' r') []
        | EmptyString => None
        end
      else if (code c =? 91)%N then
        match skipWs r with
        | String c' r' =>
            if (code c' =? 93)%N then Some (JArray [], r')
            else elements (String c' r') []
        | EmptyString => None
        end
      else if (code c =? 34)%N then
        match lexString r EmptyString with
        | Some (str, r') => Some (JString str, r')
        | None => None
        end
      else if (code c =? 45)%N || isDigit c then
        match lexNumber s with
        | Some (lit, r') => Some (JNumber lit, r')
        | None => None
        end
      else
        match keyword "true" s, keyword "false" s, keyword "null" s with
        | Some r', _, _ => Some (JBool true, r')
        | _, Some r', _ => Some (JBool false, r')
        | _, _, Some r' => Some (JNull, r')
        | _, _, _ => None
        end
  end.

(** The elements of an array from the head of [s], after the elements
    [acc]: a value, then a comma and more elements, or the closing
    bracket. *)
Definition elementsStep
    (value : string -> ParseResult)
    (elements : string -> list JSValue -> ParseResult)
    (s : string) (acc : list JSValue) : ParseResult :=
  match value s with
  | None => None
  | Some (v, r) =>
      match skipWs r with
      | String c r' =>
          if (code c =? 44)%N then elements (skipWs r') (acc ++ [v])
          else if (code c =? 93)%N then Some (JArray (acc ++ [v]), r')
          else None
      | EmptyString => None
      end
  end.

(** The members of an object from the head of [s], after the members
    [acc]: a string key, a colon, a value, then a comma and more members,
    or the closing brace. *)
Definition membersStep
    (value : string -> ParseResult)
    (members : string -> list (string * JSValue) -> ParseResult)
    (s : string) (acc : list (string * JSValue)) : ParseResult :=
  match s with
  | String q r =>
      if (code q =? 34)%N then
        match lexString r EmptyString with
        | None => None
        | Some (key, r1) =>
            match skipWs r1 with
            | String colon r2 =>
                if (code colon =? 58)%N then
                  match value (skipWs r2) with
                  | None => None
                  | Some (v, r3) =>
                      match skipWs r3 with
                      | String c r4 =>
                          if (code c =? 44)%N
                          then members (skipWs r4) (acc ++ [(key, v)])
                          else if (code c =? 125)%N
                          then Some (JObject (acc ++ [(key, v)]), r4)
                          else None
                      | EmptyString => None
                      end
                  end
                else None
            | EmptyString => None
            end
        end
      else None
  | EmptyString => None
  end.

(** Recursive descent over the JSON grammar, by fuel.  A call that does
    not consume a character is followed by one that does, so twice the
    length of the text (plus two) is enough fuel: see
    [parseValue_fuel] below. *)
Fixpoint parseValue (fuel : nat) (s : string) : ParseResult :=
  match fuel with
  | O => None
  | S fuel' => valueStep (parseMembers fuel') (parseElements fuel') s
  end
with parseElements (fuel : nat) (s : string) (acc : list JSValue) : ParseResult :=
  match fuel with
  | O => None
  | S fuel' => elementsStep (parseValue fuel') (parseElements fuel') s acc
  end
with parseMembers (fuel : nat) (s : string) (acc : list (string * JSValue))
  : ParseResult :=
  match fuel with
  | O => None
  | S fuel' => membersStep (parseValue fuel') (parseMembers fuel') s acc
  end.

(** [JSON.parse(text)]; a [SyntaxError] is thrown on anything but one
    JSON value surrounded by white space. *)
Definition JSON_parse (text : string) : Completion JSValue :=
  match parseValue (2 * String.length text + 2) (skipWs text) with
  | Some (v, r) =>
      match skipWs r with
      | EmptyString => Normal v
      | _ => Throw (HostError "SyntaxError" "JSON.parse")
      end
  | None => Throw (HostError "SyntaxError" "JSON.parse")
  end.

End Json.

(* ================================================================== *)
(** * Configuration resolution (getConfig) *)
(* ================================================================== *)

Module Config.
Import Json.

Definition dq : string := String (ascii_of_nat 34) EmptyString.

(** ** Host conversions *)

Definition isOneByteSpace (a : ascii) : bool :=
  let n := code a in
  (n =? 9)%N || (n =? 10)%N || (n =? 11)%N || (n =? 12)%N || (n =? 13)%N
  || (n =? 32)%N.

Definition isThreeByteSpace (a b c : ascii) : bool :=
  let x := code a in let y := code b in let z := code c in
  ((x =? 225)%N && (y =? 154)%N && (z =? 128)%N)
  || ((x =? 226)%N && (y =? 128)%N
      && (((128 <=? z)%N && (z <=? 138)%N) || (z =? 168)%N || (z =? 169)%N
          || (z =? 175)%N))
  || ((x =? 226)%N && (y =? 129)%N && (z =? 159)%N)
  || ((x =? 227)%N && (y =? 128)%N && (z =? 128)%N)
  || ((x =? 239)%N && (y =? 187)%N && (z =? 191)%N).

(** [TrimString(s, start)]: leading white space and line terminators
    (TAB, LF, VT, FF, CR, SP, U+00A0, U+1680, U+2000..U+200A, U+2028,
    U+2029, U+202F, U+205F, U+3000, U+FEFF) are removed. *)
Fixpoint trimStart (s : string) : string :=
  match s with
  | EmptyString => s
  | String a r =>
      if isOneByteSpace a then trimStart r
      else
        match r with
        | EmptyString => s
        | String b r1 =>
            if (code a =? 194)%N && (code b =? 160)%N then trimStart r1
            else
              match r1 with
              | EmptyString => s
              | String c r2 => if isThreeByteSpace a b c then trimStart r2 else s
              end
        end
  end.

(** The value of the longest prefix of radix-[radix] digits; [None] when
    that prefix is empty. *)
Fixpoint radixDigits (radix : N) (s : string) (acc : option N) : option N :=
  match s with
  | EmptyString => acc
  | String c r =>
      match hexValue c with
      | Some d =>
          if (d <? radix)%N
          then radixDigits radix r
                 (Some (match acc with Some a => a | None => 0 end * radix + d)%N)
          else acc
      | None => acc
      end
  end.

(** [parseInt(s)] with no radix; [None] is [NaN].  The result is kept as
    the exact integer: the code compares it with a small integer, and the
    double nearest to an integer equals 2 only for 2.  The code also
    prints it in the invalid-version message: the number printed is this
    integer when its magnitude is at most 2^53, where every integer is a
    double; beyond that the code holds a rounded value, and nothing is
    stated about the value the message names. *)
Definition parseIntString (s : string) : option Z :=
  let s1 := trimStart s in
  let '(negative, s2) :=
    match s1 with
    | String c r =>
        if (code c =? 45)%N then (true, r)
        else if (code c =? 43)%N then (false, r)
        else (false, s1)
    | EmptyString => (false, s1)
    end in
  let '(radix, s3) :=
    match s2 with
    | String z (String x r) =>
        if (code z =? 48)%N && ((code x =? 120)%N || (code x =? 88)%N)
        then (16%N, r) else (10%N, s2)
    | _ => (10%N, s2)
    end in
  match radixDigits radix s3 None with
  | None => None
  | Some n => Some (if negative then (- Z.of_N n)%Z else Z.of_N n)
  end.

Section Resolution.

(** [Number::toString] of the double denoted by a literal is floating
    point arithmetic of the host; it is a parameter. *)
Variable numberToString : string -> string.

(** Whether an object has an own property [name]. *)
Definition hasOwn (props : list (string * JSValue)) (name : string) : bool :=
  existsb (fun kv => String.eqb (fst kv) name) props.

(** [ToString(v)].  An array joins its elements with commas, [null] and
    [undefined] elements giving the empty string.  A parsed object is
    rendered by [Object.prototype.toString], unless it has an own
    [toString] property: no parsed value is callable and the inherited
    [valueOf] returns the object, so the conversion throws a [TypeError]. *)
Fixpoint toString (v : JSValue) : Completion string :=
  match v with
  | JUndefined => Normal "undefined"
  | JNull => Normal "null"
  | JBool true => Normal "true"
  | JBool false => Normal "false"
  | JNumber lit => Normal (numberToString lit)
  | JString s => Normal s
  | JArray l =>
      (fix join (l : list JSValue) : Completion string :=
         match l with
         | [] => Normal EmptyString
         | x :: rest =>
             match (match x with
                    | JUndefined | JNull => Normal EmptyString
                    | _ => toString x
                    end) with
             | Throw e => Throw e
             | Normal e =>
                 match rest with
                 | [] => Normal e
                 | _ :: _ =>
                     match join rest with
                     | Normal r => Normal (e ++ "," ++ r)%string
                     | Throw e' => Throw e'
                     end
                 end
             end
         end) l
  | JObject props =>
      if hasOwn props "toString"
      then Throw (HostError "TypeError" "Cannot convert object to primitive value")
      else Normal "[object Object]"
  end.

(** [Number.parseInt(v)]. *)
Definition Number_parseInt (v : JSValue) : Completion (option Z) :=
  match toString v with
  | Normal s => Normal (parseIntString s)
  | Throw e => Throw e
  end.

(** The value of the last property named [name] ([JSON.parse] lets a
    later duplicate key overwrite an earlier one). *)
Fixpoint lookupLast (props : list (string * JSValue)) (name : string)
    (found : JSValue) : JSValue :=
  match props with
  | [] => found
  | (k, v) :: rest => lookupLast rest name (if String.eqb k name then v else found)
  end.

(** [v.name] for the property names the resolver reads: none of them is
    an index, [length] or a member of a built-in prototype, so only an
    object can hold them; reading from [null] or [undefined] throws. *)
Definition getProp (v : JSValue) (name : string) : Completion JSValue :=
  match v with
  | JUndefined | JNull => Throw (HostError "TypeError" "Cannot read properties")
  | JObject props => Normal (lookupLast props name JUndefined)
  | _ => Normal JUndefined
  end.

(** [v?.name]. *)
Definition optProp (v : JSValue) (name : string) : Completion JSValue :=
  match v with
  | JUndefined | JNull => Normal JUndefined
  | _ => getProp v name
  end.

(** [v ?? d]. *)
Definition orDefault (v : JSValue) (d : string) : JSValue :=
  match v with
  | JUndefined | JNull => JString d
  | _ => v
  end.

(** ** getConfig *)

Record ConfigModule := {
  cachedConfig : option (LocalResolvedConfig JSValue);
  configLog : list LogEntry
}.

Definition appConfigFormatVersion : Z := 2.

Definition gammaConfig : LocalResolvedConfig string :=
  {| endpoint := "https://8id2rzphzj.execute-api.us-west-2.amazonaws.com/gamma";
     region := "us-west-2";
     lambdaArns :=
       {| arns_approach :=
            {| approach_generate :=
                 "arn:aws:lambda:us-west-2:789621683470:function:WeaverbirdService-Service-GenerateApproachLambda47-VIjB8vZYS3Iu:live";
               approach_iterate :=
                 "arn:aws:lambda:us-west-2:789621683470:function:WeaverbirdService-Service-IterateApproachLambda18D-48KTZ8YLkK70:live" |};
          arns_codegen :=
            {| codegen_generate :=
                 "arn:aws:lambda:us-west-2:789621683470:function:WeaverbirdService-Service-GenerateCodeLambdaCDE418-nXvafUVY7rmw:live";
               codegen_iterate :=
                 "arn:aws:lambda:us-west-2:789621683470:function:WeaverbirdService-Service-IterateCodeLambdaA908EBD-Asyx9VdIH3k2:live";
               codegen_getResults :=
                 "arn:aws:lambda:us-west-2:789621683470:function:WeaverbirdService-Service-GetCodeGenerationLambdaB-3W5Wr1TtVHcr:live" |} |} |}.

Definition defaultConfig : LocalResolvedConfig string := gammaConfig.

(** The default configuration as the values the resolver returns. *)
Definition asValues (c : LocalResolvedConfig string) : LocalResolvedConfig JSValue :=
  {| endpoint := JString (endpoint c);
     region := JString (region c);
     lambdaArns :=
       {| arns_approach :=
            {| approach_generate :=
                 JString (approach_generate (arns_approach (lambdaArns c)));
               approach_iterate :=
                 JString (approach_iterate (arns_approach (lambdaArns c))) |};
          arns_codegen :=
            {| codegen_generate :=
                 JString (codegen_generate (arns_codegen (lambdaArns c)));
               codegen_iterate :=
                 JString (codegen_iterate (arns_codegen (lambdaArns c)));
               codegen_getResults :=
                 JString (codegen_getResults (arns_codegen (lambdaArns c))) |} |} |}.

Definition configLogger (e : LogEntry) : ST ConfigModule unit :=
  fun m => (Normal tt, {| cachedConfig := cachedConfig m;
                          configLog := configLog m ++ [e] |}).

Definition setCachedConfig (c : LocalResolvedConfig JSValue) : ST ConfigModule unit :=
  fun m => (Normal tt, {| cachedConfig := Some c; configLog := configLog m |}).

Local Open Scope monad_scope.

(** [parsedConfig.lambdaArns?.group?.name]. *)
Definition arnOf (parsedConfig : JSValue) (group name : string)
  : ST ConfigModule JSValue :=
  arns <- liftCompletion (getProp parsedConfig "lambdaArns") ;;
  g <- liftCompletion (optProp arns group) ;;
  liftCompletion (optProp g name).

(** The text [JSON.parse] receives when the variable is unset. *)
Definition fallbackBlob : string :=
  ("{ " ++ dq ++ "version" ++ dq ++ ": " ++ "2" ++ "}")%string.

(** The body of the [try] block. *)
Definition tryResolve (config : option string)
  : ST ConfigModule (LocalResolvedConfig JSValue) :=
  parsedConfig <- liftCompletion (JSON_parse (JsString.nullish config fallbackBlob)) ;;
  version <- liftCompletion (getProp parsedConfig "version") ;;
  localConfigVersion <- liftCompletion (Number_parseInt version) ;;
  (match localConfigVersion with
   | Some z =>
       if Z.eqb z appConfigFormatVersion then ret tt
       else
         configLogger (LogInvalidConfigVersion appConfigFormatVersion localConfigVersion) ;;
         throw (InvalidConfigVersion appConfigFormatVersion localConfigVersion)
   | None =>
       configLogger (LogInvalidConfigVersion appConfigFormatVersion localConfigVersion) ;;
       throw (InvalidConfigVersion appConfigFormatVersion localConfigVersion)
   end) ;;
  e <- liftCompletion (getProp parsedConfig "endpoint") ;;
  r <- liftCompletion (getProp parsedConfig "region") ;;
  ag <- arnOf parsedConfig "approach" "generate" ;;
  ai <- arnOf parsedConfig "approach" "iterate" ;;
  cg <- arnOf parsedConfig "codegen" "generate" ;;
  ci <- arnOf parsedConfig "codegen" "iterate" ;;
  cr <- arnOf parsedConfig "codegen" "getResults" ;;
  ret {| endpoint := orDefault e (endpoint defaultConfig);
         region := orDefault r (region defaultConfig);
         lambdaArns :=
           {| arns_approach :=
                {| approach_generate :=
                     orDefault ag (approach_generate (arns_approach (lambdaArns defaultConfig)));
                   approach_iterate :=
                     orDefault ai (approach_iterate (arns_approach (lambdaArns defaultConfig))) |};
              arns_codegen :=
                {| codegen_generate :=
                     orDefault cg (codegen_generate (arns_codegen (lambdaArns defaultConfig)));
                   codegen_iterate :=
                     orDefault ci (codegen_iterate (arns_codegen (lambdaArns defaultConfig)));
                   codegen_getResults :=
                     orDefault cr (codegen_getResults (arns_codegen (lambdaArns defaultConfig))) |} |} |}.

(** [getConfig()], with [process.env.WEAVERBIRD_CONFIG] as [config]:
    the cached value if there is one, else the resolved value, which is
    cached. *)
Definition getConfig (config : option string)
  : ST ConfigModule (LocalResolvedConfig JSValue) :=
  fun m =>
    match cachedConfig m with
    | Some c => (Normal c, m)
    | None =>
        (c <- catch (tryResolve config) (fun _ => ret (asValues defaultConfig)) ;;
         setCachedConfig c ;;
         ret c) m
    end.

(** The module as it is loaded: [let cachedConfig = undefined]. *)
Definition initialModule : ConfigModule :=
  {| cachedConfig := None; configLog := [] |}.

(** ** The two halves of a call

    [getConfig] is an async function.  When it is called it runs up to
    its [await]: the test of [cachedConfig] and, when nothing is cached,
    the whole inner function (which has no [await] of its own), reading
    the variable and logging.  The assignment to [cachedConfig] and the
    return run when the call is resumed; other calls can start in
    between.  [getConfig] above is one call run to its end with nothing
    in between. *)
Inductive Suspension :=
| Returned (c : LocalResolvedConfig JSValue)
| Awaiting (c : LocalResolvedConfig JSValue).

(** The call up to the point where it returns or is suspended. *)
Definition getConfigStart (config : option string) : ST ConfigModule Suspension :=
  fun m =>
    match cachedConfig m with
    | Some c => (Normal (Returned c), m)
    | None =>
        (c <- catch (tryResolve config) (fun _ => ret (asValues defaultConfig)) ;;
         ret (Awaiting c)) m
    end.

(** The rest of the call: a suspended call stores the value it awaited. *)
Definition getConfigResume (s : Suspension)
  : ST ConfigModule (LocalResolvedConfig JSValue) :=
  match s with
  | Returned c => ret c
  | Awaiting c => setCachedConfig c ;; ret c
  end.

(** What the inner function returns for [config], and what it logs. *)
Definition resolution (config : option string) : LocalResolvedConfig JSValue :=
  match fst (catch (tryResolve config) (fun _ => ret (asValues defaultConfig))
               initialModule) with
  | Normal c => c
  | Throw _ => asValues defaultConfig
  end.

Definition resolutionLog (config : option string) : list LogEntry :=
  configLog (snd (catch (tryResolve config) (fun _ => ret (asValues defaultConfig))
                    initialModule)).

End Resolution.

End Config.

(* ================================================================== *)
(** * Properties *)
(* ================================================================== *)

Local Open Scope monad_scope.

(** ** Vocabulary of the statements *)

(** [s] contains [pat] as a contiguous substring. *)
Definition occursIn (pat s : string) : Prop :=
  exists pre suf, s = (pre ++ pat ++ suf)%string.

Definition paths (l : list FileMetadata) : list string := map filePath l.

(** The number of status fetches recorded so far. *)
Definition statusFetches (w : World) : nat :=
  List.length (filter isStatusFetch (calls w)).

(** The request of every status fetch of one polling cycle. *)
Definition statusFetch (config : SessionStateConfig) (arn gid : string) : Invocation :=
  {| inv_client := client config;
     inv_arn := arn;
     inv_payload := GetCodeGenerationResult
                      {| gr_generationId := gid;
                         gr_conversationId := conversationId config |} |}.

(** The world after an iteration that found the generation in progress. *)
Definition afterInProgress (config : SessionStateConfig) (arn gid : string)
    (r : GetCodeGenerationResultOutput) (w : World) : World :=
  recordDelay 10000
    (recordLog (LogInfoCodegenResponse r)
       (advance (recordCall (statusFetch config arn gid) (advance w)))).

(** The message emitted for a status that is neither [ready] nor
    [in-progress]. *)
Definition diagnostic (status : string) : string :=
  if String.eqb status "failed" then ("Code generation failed" ++ newline)%string
  else unknownStatusText status.

Definition afterStopped (config : SessionStateConfig) (arn gid : string)
    (r : GetCodeGenerationResultOutput) (w : World) : World :=
  recordFire [aiMessage (diagnostic (codeGenerationStatus r))]
    (recordLog (LogError (if String.eqb (codeGenerationStatus r) "failed"
                          then "Failed to generate code"
                          else unknownStatusText (codeGenerationStatus r)))
       (recordLog (LogInfoCodegenResponse r)
          (advance (recordCall (statusFetch config arn gid) (advance w))))).

(** [k] iterations that find the generation in progress, at the ticks
    at which they consult the token and the invoker. *)
Definition inProgressUntil (env : Env) (tok : CancellationTokenSource)
    (fetch : Invocation) (w : World) (k : nat) : Prop :=
  forall j, j < k ->
    isCancellationRequested env tok (tick w + 2 * j) = false
    /\ exists r, invokeGetResult env (tick w + 2 * j + 1) fetch = Normal r
                 /\ codeGenerationStatus r = "in-progress".

(** The request [CodeGenIterationState.interact] sends first. *)
Definition iterationRequest (config : SessionStateConfig) (approach : string)
    (newFiles : list FileMetadata) (action : SessionStateAction) : Invocation :=
  {| inv_client := client config;
     inv_arn := codegen_generate (arns_codegen (lambdaArns (backendConfig config)));
     inv_payload :=
       GenerateCode
         {| gc_originalFileContents := mergeFileContents newFiles (files action);
            gc_approach := approach;
            gc_task := task action;
            gc_config := llmConfig config;
            gc_conversationId := conversationId config |} |}.

(** The request [CodeGenState.interact] sends first. *)
Definition generateRequest (config : SessionStateConfig) (approach : string)
    (action : SessionStateAction) : Invocation :=
  {| inv_client := client config;
     inv_arn := codegen_generate (arns_codegen (lambdaArns (backendConfig config)));
     inv_payload :=
       GenerateCode
         {| gc_originalFileContents := files action;
            gc_approach := approach;
            gc_task := task action;
            gc_config := llmConfig config;
            gc_conversationId := conversationId config |} |}.

(** The request [RefinementState.interact] sends. *)
Definition approachRequest (config : SessionStateConfigBase)
    (action : SessionStateAction) : Invocation :=
  {| inv_client := base_client config;
     inv_arn := approach_generate (arns_approach (lambdaArns (base_backendConfig config)));
     inv_payload :=
       GenerateApproach
         {| ga_task := task action;
            ga_originalFileContents := files action;
            ga_config := base_llmConfig config |} |}.

(** The request of the approach-iteration path. *)
Definition iterateRequest (config : SessionStateConfig) (approach : string)
    (action : SessionStateAction) : Invocation :=
  {| inv_client := client config;
     inv_arn := approach_iterate (arns_approach (lambdaArns (backendConfig config)));
     inv_payload :=
       IterateApproach
         {| ia_task := task action;
            ia_request := JsString.nullish (msg action) EmptyString;
            ia_approach := approach;
            ia_originalFileContents := files action;
            ia_config := llmConfig config;
            ia_conversationId := conversationId config |} |}.

(** The get-results endpoint of a configuration. *)
Definition getResultsArn (config : SessionStateConfig) : string :=
  codegen_getResults (arns_codegen (lambdaArns (backendConfig config))).

(** The directory [MockCodeGenState.interact] reads. *)
Definition mockedFilesDir (env : Env) (config : SessionStateConfig) : string :=
  pathJoin env (workspaceRoot config) "./mock-data".

(** The two interactions [createChanges] returns for the paths it registered. *)
Definition changesSummary (filePaths : list string) : list Interaction :=
  [ aiMessage "Changes to files done. Please review:";
    {| origin := ai; content := codegen filePaths |} ].

(** The world in which the polling cycle of [CodeGenState.interact] starts. *)
Definition pollingStart (config : SessionStateConfig) (approach : string)
    (action : SessionStateAction) (w : World) : World :=
  recordFire codegenStarted (advance (recordCall (generateRequest config approach action) w)).

(** [new CodeGenState(config, approach).interact(action)]. *)
Definition delegateToCodeGen (env : Env) (config : SessionStateConfig)
    (approach : string) (action : SessionStateAction) : M SessionStateInteraction :=
  s <- new_CodeGenState config approach ;; interact env s action.

(** [new MockCodeGenState(config, approach).interact(action)]. *)
Definition delegateToMockCodeGen (env : Env) (config : SessionStateConfig)
    (approach : string) (action : SessionStateAction) : M SessionStateInteraction :=
  s <- new_MockCodeGenState config approach ;; interact env s action.

(** ** Sample inputs *)

Definition sampleLLMConfig : LLMConfig :=
  {| model := "sample-model";
     maxTokensToSample := 1024;
     temperature := (1 # 2)%Q;
     debateRounds := 1;
     generationFlow := lambda |}.

Definition sampleConfig : SessionStateConfig :=
  {| client := LambdaClientHandle 0;
     llmConfig := sampleLLMConfig;
     workspaceRoot := "/workspace";
     backendConfig := Config.gammaConfig;
     conversationId := "conversation-1" |}.

Definition sampleConfigBase : SessionStateConfigBase :=
  {| base_client := LambdaClientHandle 0;
     base_llmConfig := sampleLLMConfig;
     base_workspaceRoot := "/workspace";
     base_backendConfig := Config.gammaConfig |}.

Definition sampleAction (m : option string) : SessionStateAction :=
  {| task := "add a button";
     files := [mkFile "a.txt" "0"; mkFile "b.txt" "2"];
     msg := m |}.

Definition emptyWorld : World := mkWorld 0 0 [] [] [] [] 0.

(** An environment whose code-generation call completes with [generate],
    whose status fetch at tick [t] completes with [poll t], whose
    directory probe completes with [probe], and that never cancels. *)
Definition sampleEnv (generate : Completion GenerateCodeOutput)
    (poll : nat -> Completion GetCodeGenerationResultOutput)
    (probe : Completion bool) : Env :=
  {| invokeGenerateApproach := fun _ _ =>
       Normal {| ga_approach := Some "Add a Button component";
                 ga_conversationId := "conversation-1" |};
     invokeIterateApproach := fun _ _ =>
       Normal {| ia_out_approach := Some "Add a Button component, with tests" |};
     invokeGenerateCode := fun _ _ => generate;
     invokeGetResult := fun t _ => poll t;
     isCancellationRequested := fun _ _ => false;
     uriFrom := fun s p => Normal {| scheme := s; path := p |};
     registerProviderOutcome := fun _ _ _ => Normal tt;
     statOutcome := fun _ _ => probe;
     collectFilesOutcome := fun _ _ => Normal [mkFile "mock-data/a.txt" "1"];
     pathJoin := fun a b => (a ++ "/" ++ b)%string;
     weaverbirdScheme := "weaverbird" |}.

Definition started : Completion GenerateCodeOutput :=
  Normal {| generationId := "generation-1" |}.

Definition transportFailure : JsError := HostError "Error" "socket hang up".

Definition pollStatus (status : string) (newFiles : option (list FileMetadata))
  : Completion GetCodeGenerationResultOutput :=
  Normal {| codeGenerationStatus := status;
            result := match newFiles with
                      | Some l => Some {| newFileContents := Some l |}
                      | None => None
                      end |}.

(** The environment blobs of the configuration scenarios: an object with
    [version] 2 and an [endpoint], and an object with [version] 1. *)
Definition blobVersion2Endpoint : string :=
  ("{" ++ Config.dq ++ "version" ++ Config.dq ++ ":2,"
       ++ Config.dq ++ "endpoint" ++ Config.dq ++ ":"
       ++ Config.dq ++ "https://x" ++ Config.dq ++ "}")%string.

Definition blobVersion1 : string :=
  ("{" ++ Config.dq ++ "version" ++ Config.dq ++ ":1}")%string.

(** A host rendering of numbers that prints a literal as it is written;
    it is the rendering of the host on plain non-negative integers. *)
Definition literalText (literal : string) : string := literal.

(** ** Substring search *)

Section IndexOf.

Import JsString.

Lemma prefix_app (p s : string) : String.prefix p (p ++ s) = true.
Proof.
  induction p as [|c p IH]; simpl.
  - destruct s; reflexivity.
  - rewrite IH. destruct (ascii_dec c c) as [_|n]; [reflexivity|now destruct n].
Qed.

Lemma prefix_split (p s : string) :
  String.prefix p s = true -> exists suf, s = (p ++ suf)%string.
Proof.
  revert s; induction p as [|c p IH]; intros s H.
  - exists s. reflexivity.
  - destruct s as [|d s]; simpl in H; [discriminate|].
    destruct (ascii_dec c d) as [->|]; [|discriminate].
    destruct (IH s H) as [suf ->]. exists suf. reflexivity.
Qed.

Lemma indexOf_from_prefix (pat s : string) (i : Z) :
  String.prefix pat s = true -> indexOf_from pat s i = i.
Proof.
  intros H. destruct s; cbn [indexOf_from]; rewrite H; reflexivity.
Qed.

Lemma indexOf_from_found (pat pre suf : string) (i : Z) :
  (0 <= i)%Z -> indexOf_from pat (pre ++ pat ++ suf) i <> (-1)%Z.
Proof.
  revert i; induction pre as [|c pre IH]; intros i Hi.
  - simpl. rewrite indexOf_from_prefix by apply prefix_app. lia.
  - change (String c pre ++ pat ++ suf)%string
      with (String c (pre ++ pat ++ suf)%string).
    cbn [indexOf_from].
    destruct (String.prefix pat (String c (pre ++ pat ++ suf))); [lia|].
    apply IH. lia.
Qed.

Lemma indexOf_from_absent (pat s : string) (i : Z) :
  (0 <= i)%Z -> indexOf_from pat s i <> (-1)%Z ->
  exists pre suf, s = (pre ++ pat ++ suf)%string.
Proof.
  revert i; induction s as [|c s IH]; intros i Hi H; cbn [indexOf_from] in H.
  - destruct (String.prefix pat EmptyString) eqn:E; [|congruence].
    destruct (prefix_split _ _ E) as [suf Hs]. exists EmptyString, suf. exact Hs.
  - destruct (String.prefix pat (String c s)) eqn:E.
    + destruct (prefix_split _ _ E) as [suf Hs]. exists EmptyString, suf. exact Hs.
    + destruct (IH (i + 1)%Z) as (pre & suf & ->); [lia|exact H|].
      exists (String c pre), suf. reflexivity.
Qed.

(** [s.indexOf(pat) !== -1] exactly when [pat] occurs in [s]. *)
Lemma indexOf_occurs (s pat : string) :
  indexOf s pat <> (-1)%Z <-> exists pre suf, s = (pre ++ pat ++ suf)%string.
Proof.
  split.
  - apply indexOf_from_absent. lia.
  - intros (pre & suf & ->). apply indexOf_from_found. lia.
Qed.

End IndexOf.

Lemma app_nonempty (a b c : string) : b <> EmptyString -> (a ++ b ++ c)%string <> EmptyString.
Proof.
  intros Hb H. destruct a; simpl in H; [|discriminate].
  destruct b; [now apply Hb|discriminate].
Qed.

Lemma containsDirective_occurs (m directive : string) :
  directive <> EmptyString ->
  (containsDirective (Some m) directive = true <-> occursIn directive m).
Proof.
  intros Hd. unfold containsDirective, occursIn. simpl. split.
  - intros H. apply andb_prop in H as [_ H].
    apply indexOf_occurs. intros E. rewrite E in H. discriminate.
  - intros H. pose proof H as (pre & suf & Hm).
    apply indexOf_occurs in H.
    apply andb_true_intro. split.
    + apply negb_true_iff. apply String.eqb_neq. rewrite Hm.
      now apply app_nonempty.
    + apply negb_true_iff. now apply Z.eqb_neq.
Qed.

Lemma containsDirective_absent (m : option string) (directive : string) :
  (forall s, m = Some s -> ~ occursIn directive s) ->
  containsDirective m directive = false.
Proof.
  intros H. destruct (containsDirective m directive) eqn:E; [|reflexivity].
  destruct m as [s|]; [|discriminate].
  unfold containsDirective in E. apply andb_prop in E as [_ E].
  exfalso. apply (H s eq_refl). apply indexOf_occurs.
  simpl in E. intros F. rewrite F in E. discriminate.
Qed.

(** ** Frame lemmas: what each step leaves unchanged *)

Section Frames.

Variable env : Env.

Lemma registerAll_calls (l : list FileMetadata) (acc : list string) (w : World) :
  calls (snd (registerAll env l acc w)) = calls w.
Proof.
  revert acc w; induction l as [|f l IH]; intros acc w; [reflexivity|].
  cbn [registerAll]. unfold bind at 1. unfold liftCompletion.
  destruct (uriFrom env (weaverbirdScheme env) (filePath f)); [|reflexivity].
  unfold bind at 1, registerProvider.
  destruct (registerProviderOutcome env (tick w) _ _); [|reflexivity].
  rewrite IH. reflexivity.
Qed.

Lemma registerAll_nextToken (l : list FileMetadata) (acc : list string) (w : World) :
  nextToken (snd (registerAll env l acc w)) = nextToken w.
Proof.
  revert acc w; induction l as [|f l IH]; intros acc w; [reflexivity|].
  cbn [registerAll]. unfold bind at 1. unfold liftCompletion.
  destruct (uriFrom env (weaverbirdScheme env) (filePath f)); [|reflexivity].
  unfold bind at 1, registerProvider.
  destruct (registerProviderOutcome env (tick w) _ _); [|reflexivity].
  rewrite IH. reflexivity.
Qed.

Lemma createChanges_calls (l : list FileMetadata) (w : World) :
  calls (snd (createChanges env l w)) = calls w.
Proof.
  unfold createChanges, bind. pose proof (registerAll_calls l [] w) as H.
  destruct (registerAll env l [] w) as [[v|e] w']; exact H.
Qed.

Lemma createChanges_nextToken (l : list FileMetadata) (w : World) :
  nextToken (snd (createChanges env l w)) = nextToken w.
Proof.
  unfold createChanges, bind. pose proof (registerAll_nextToken l [] w) as H.
  destruct (registerAll env l [] w) as [[v|e] w']; exact H.
Qed.

Lemma pollLoop_cancelled n config tok arn gid w :
  isCancellationRequested env tok (tick w) = true ->
  pollLoop env (S n) config tok arn gid w = stillInProgress (advance w).
Proof.
  intros H. cbn [pollLoop]. unfold bind at 1, cancellationRequested.
  rewrite H. reflexivity.
Qed.

Lemma pollLoop_in_progress n config tok arn gid w r :
  isCancellationRequested env tok (tick w) = false ->
  invokeGetResult env (S (tick w)) (statusFetch config arn gid) = Normal r ->
  codeGenerationStatus r = "in-progress" ->
  pollLoop env (S n) config tok arn gid w
  = pollLoop env n config tok arn gid (afterInProgress config arn gid r w).
Proof.
  intros Hc Hr Hs. cbn [pollLoop]. unfold bind at 1, cancellationRequested.
  rewrite Hc. unfold bind at 1, invoke. cbn [tick advance recordCall].
  fold (statusFetch config arn gid). rewrite Hr.
  unfold bind at 1, logger. rewrite Hs. cbn [String.eqb Ascii.eqb Bool.eqb].
  reflexivity.
Qed.

Lemma pollLoop_stopped n config tok arn gid w r :
  isCancellationRequested env tok (tick w) = false ->
  invokeGetResult env (S (tick w)) (statusFetch config arn gid) = Normal r ->
  codeGenerationStatus r <> "ready" ->
  codeGenerationStatus r <> "in-progress" ->
  pollLoop env (S n) config tok arn gid w
  = (Normal [], afterStopped config arn gid r w).
Proof.
  intros Hc Hr Hs1 Hs2. cbn [pollLoop]. unfold bind at 1, cancellationRequested.
  rewrite Hc. unfold bind at 1, invoke. cbn [tick advance recordCall].
  fold (statusFetch config arn gid). rewrite Hr.
  unfold bind at 1, logger.
  apply String.eqb_neq in Hs1, Hs2. rewrite Hs1, Hs2.
  unfold afterStopped, diagnostic.
  destruct (String.eqb (codeGenerationStatus r) "failed"); reflexivity.
Qed.

Lemma pollLoop_fetch_throws n config tok arn gid w e :
  isCancellationRequested env tok (tick w) = false ->
  invokeGetResult env (S (tick w)) (statusFetch config arn gid) = Throw e ->
  pollLoop env (S n) config tok arn gid w
  = (Throw e, advance (recordCall (statusFetch config arn gid) (advance w))).
Proof.
  intros Hc Hr. cbn [pollLoop]. unfold bind at 1, cancellationRequested.
  rewrite Hc. unfold bind at 1, invoke. cbn [tick advance recordCall].
  fold (statusFetch config arn gid). rewrite Hr. reflexivity.
Qed.

End Frames.

(** ** The polling loop *)

Section Polling.

Variable env : Env.
Variable config : SessionStateConfig.
Variable tok : CancellationTokenSource.
Variables arn gid : string.

Let fetch := statusFetch config arn gid.

Lemma stillInProgress_spec (w : World) :
  stillInProgress w
  = (Normal [], recordFire [aiMessage timeoutText] (recordLog (LogError timeoutText) w)).
Proof. reflexivity. Qed.

(** As long as every fetch answers [in-progress] the loop ends by the
    timeout exit, after at most [n] fetches; after exactly [n] when the
    token is never cancelled. *)
Lemma pollLoop_always_in_progress (n : nat) :
  (forall t, exists r, invokeGetResult env t fetch = Normal r
                       /\ codeGenerationStatus r = "in-progress") ->
  forall w, exists w' k,
    pollLoop env n config tok arn gid w = (Normal [], w')
    /\ k <= n
    /\ calls w' = calls w ++ repeat fetch k
    /\ history w' = history w ++ [[aiMessage timeoutText]]
    /\ nextToken w' = nextToken w
    /\ ((forall t, isCancellationRequested env tok t = false) -> k = n).
Proof.
  intros Hall. induction n as [|n IH]; intros w.
  - exists (recordFire [aiMessage timeoutText] (recordLog (LogError timeoutText) w)), 0.
    cbn [pollLoop]. rewrite stillInProgress_spec. cbn.
    rewrite app_nil_r. repeat split; auto.
  - destruct (isCancellationRequested env tok (tick w)) eqn:Hc.
    + rewrite pollLoop_cancelled by exact Hc. rewrite stillInProgress_spec.
      eexists; exists 0. split; [reflexivity|]. cbn.
      rewrite app_nil_r. repeat split; auto with arith.
      intros Hnever. rewrite Hnever in Hc. discriminate.
    + destruct (Hall (S (tick w))) as (r & Hr & Hs).
      rewrite (pollLoop_in_progress env n config tok arn gid w r Hc Hr Hs).
      destruct (IH (afterInProgress config arn gid r w))
        as (w' & k & Hrun & Hk & Hcalls & Hhist & Htok & Hex).
      exists w', (S k). split; [exact Hrun|].
      split; [lia|]. split.
      { rewrite Hcalls. cbn. rewrite <- app_assoc. reflexivity. }
      split; [rewrite Hhist; reflexivity|].
      split; [rewrite Htok; reflexivity|].
      intros Hnever. rewrite (Hex Hnever). reflexivity.
Qed.

Lemma pollLoop_skip_in_progress (k : nat) :
  forall n w, inProgressUntil env tok fetch w k ->
    exists wk,
      pollLoop env (k + n) config tok arn gid w = pollLoop env n config tok arn gid wk
      /\ tick wk = tick w + 2 * k
      /\ calls wk = calls w ++ repeat fetch k
      /\ history wk = history w
      /\ nextToken wk = nextToken w
      /\ registered wk = registered w.
Proof.
  induction k as [|k IH]; intros n w H.
  - exists w. cbn. rewrite app_nil_r. repeat split; auto; lia.
  - destruct (H 0) as (Hc & r & Hr & Hs); [lia|].
    rewrite Nat.mul_0_r, Nat.add_0_r in Hc.
    rewrite Nat.mul_0_r, Nat.add_0_r, Nat.add_1_r in Hr.
    change (S k + n) with (S (k + n)).
    rewrite (pollLoop_in_progress env (k + n) config tok arn gid w r Hc Hr Hs).
    destruct (IH n (afterInProgress config arn gid r w)) as (wk & Hrun & Ht & Hcalls & Hh & Hn & Hreg).
    { intros j Hj. destruct (H (S j)) as (Hc' & r' & Hr' & Hs'); [lia|].
      cbn [tick afterInProgress recordDelay recordLog advance recordCall].
      replace (S (S (tick w)) + 2 * j) with (tick w + 2 * S j) by lia.
      split; [exact Hc'|]. exists r'. split; [exact Hr'|exact Hs']. }
    exists wk. split; [exact Hrun|].
    cbn [tick afterInProgress recordDelay recordLog advance recordCall] in Ht.
    split; [lia|]. split.
    { rewrite Hcalls. cbn. rewrite <- app_assoc. reflexivity. }
    repeat split; assumption.
Qed.

Lemma pollLoop_ready n w r :
  isCancellationRequested env tok (tick w) = false ->
  invokeGetResult env (S (tick w)) fetch = Normal r ->
  codeGenerationStatus r = "ready" ->
  pollLoop env (S n) config tok arn gid w
  = (changes <- createChanges env (resultFiles r) ;;
     fire changes ;;
     ret (resultFiles r))
      (recordLog (LogInfoCodegenResponse r) (advance (recordCall fetch (advance w)))).
Proof.
  intros Hc Hr Hs. cbn [pollLoop]. unfold bind at 1, cancellationRequested.
  rewrite Hc. unfold bind at 1, invoke. cbn [tick advance recordCall].
  fold (statusFetch config arn gid). fold fetch. rewrite Hr.
  unfold bind at 1, logger. rewrite Hs. reflexivity.
Qed.

Lemma readyExit_frame (nf : list FileMetadata) (w : World) :
  nextToken (snd ((changes <- createChanges env nf ;; fire changes ;; ret nf) w))
  = nextToken w
  /\ calls (snd ((changes <- createChanges env nf ;; fire changes ;; ret nf) w))
     = calls w.
Proof.
  pose proof (createChanges_calls env nf w) as Hcc.
  pose proof (createChanges_nextToken env nf w) as Hct.
  unfold bind.
  destruct (createChanges env nf w) as [[ch|e] w2]; cbn in *; split; assumption.
Qed.

(** The loop never allocates a token and only appends to the record of
    calls. *)
Lemma pollLoop_frame (n : nat) :
  forall w, nextToken (snd (pollLoop env n config tok arn gid w)) = nextToken w
            /\ exists l, calls (snd (pollLoop env n config tok arn gid w)) = calls w ++ l.
Proof.
  induction n as [|n IH]; intros w.
  - cbn. split; [reflexivity|]. exists []. now rewrite app_nil_r.
  - destruct (isCancellationRequested env tok (tick w)) eqn:Hc.
    { rewrite pollLoop_cancelled by exact Hc. cbn. split; [reflexivity|].
      exists []. now rewrite app_nil_r. }
    destruct (invokeGetResult env (S (tick w)) fetch) as [r|e] eqn:Hr.
    2:{ unfold fetch in Hr. rewrite (pollLoop_fetch_throws env n config tok arn gid w e Hc Hr).
        cbn. split; [reflexivity|]. eexists. reflexivity. }
    destruct (String.eqb (codeGenerationStatus r) "ready") eqn:E1.
    { apply String.eqb_eq in E1. rewrite (pollLoop_ready n w r Hc Hr E1).
      destruct (readyExit_frame (resultFiles r) (recordLog (LogInfoCodegenResponse r)
                              (advance (recordCall fetch (advance w))))) as [Ht Hcl].
      rewrite Ht, Hcl. cbn. split; [reflexivity|]. eexists. reflexivity. }
    destruct (String.eqb (codeGenerationStatus r) "in-progress") eqn:E2.
    { apply String.eqb_eq in E2.
      unfold fetch in Hr. rewrite (pollLoop_in_progress env n config tok arn gid w r Hc Hr E2).
      destruct (IH (afterInProgress config arn gid r w)) as (Ht & l & Hl).
      split; [exact Ht|]. rewrite Hl. cbn. rewrite <- app_assoc. eexists. reflexivity. }
    apply String.eqb_neq in E1, E2.
    unfold fetch in Hr. rewrite (pollLoop_stopped env n config tok arn gid w r Hc Hr E1 E2).
    cbn. split; [reflexivity|]. eexists. reflexivity.
Qed.

End Polling.

(** ** Merging the generated files with the originals *)

Section Merge.

(** An original is superseded when a generated file has its path. *)
Lemma superseded_In (G : list FileMetadata) (o : FileMetadata) :
  existsb (fun newFile => String.eqb (filePath newFile) (filePath o)) G = true
  <-> In (filePath o) (paths G).
Proof.
  rewrite existsb_exists. unfold paths. rewrite in_map_iff. split.
  - intros (g & Hg & E). apply String.eqb_eq in E. exists g. split; assumption.
  - intros (g & E & Hg). exists g. split; [assumption|]. now apply String.eqb_eq.
Qed.

Lemma paths_filter_incl (p : FileMetadata -> bool) (l : list FileMetadata) (x : string) :
  In x (paths (filter p l)) -> In x (paths l).
Proof.
  unfold paths. rewrite !in_map_iff. intros (f & E & Hf).
  apply filter_In in Hf as [Hf _]. exists f. split; assumption.
Qed.

Lemma paths_filter_NoDup (p : FileMetadata -> bool) (l : list FileMetadata) :
  NoDup (paths l) -> NoDup (paths (filter p l)).
Proof.
  induction l as [|f l IH]; intros H; [constructor|].
  cbn in H. apply NoDup_cons_iff in H as [Hn Hl]. cbn.
  destruct (p f); [|now apply IH].
  cbn. constructor; [|now apply IH].
  intros Hin. apply Hn. now apply paths_filter_incl in Hin.
Qed.

Lemma mergeFileContents_paths (G O : list FileMetadata) (x : string) :
  In x (paths (mergeFileContents G O)) <-> In x (paths O) \/ In x (paths G).
Proof.
  unfold mergeFileContents, paths. rewrite map_app, in_app_iff. split.
  - intros [H|H]; [right; exact H|left; now apply paths_filter_incl in H].
  - intros [H|H]; [|left; exact H].
    destruct (in_dec string_dec x (map filePath G)) as [Hg|Hg]; [left; exact Hg|].
    right. apply in_map_iff in H as (o & E & Ho). apply in_map_iff.
    exists o. split; [exact E|]. apply filter_In. split; [exact Ho|].
    apply negb_true_iff. apply not_true_is_false. intros Hs.
    apply superseded_In in Hs. apply Hg. rewrite <- E. exact Hs.
Qed.

Lemma mergeFileContents_NoDup (G O : list FileMetadata) :
  NoDup (paths O) -> NoDup (paths G) -> NoDup (paths (mergeFileContents G O)).
Proof.
  intros HO HG. unfold mergeFileContents, paths. rewrite map_app.
  apply NoDup_app; [exact HG|now apply paths_filter_NoDup|].
  intros x Hx Hin. apply in_map_iff in Hin as (o & E & Ho).
  apply filter_In in Ho as [_ Ho]. apply negb_true_iff in Ho.
  assert (In (filePath o) (paths G)) as Hs by (rewrite E; exact Hx).
  apply superseded_In in Hs. congruence.
Qed.

Lemma mergeFileContents_generated_wins (G O : list FileMetadata) (f : FileMetadata) :
  In f (mergeFileContents G O) -> In (filePath f) (paths G) -> In f G.
Proof.
  unfold mergeFileContents. rewrite in_app_iff. intros [H|H] Hp; [exact H|].
  apply filter_In in H as [_ H]. apply negb_true_iff in H.
  apply superseded_In in Hp. congruence.
Qed.

End Merge.

Section IterationCalls.

Variable env : Env.

Lemma CodeGenIterationState_interact_calls config approach tok newFiles action w :
  exists l,
    calls (snd (CodeGenIterationState_interact env config approach tok newFiles action w))
    = calls w ++ iterationRequest config approach newFiles action :: l.
Proof.
  unfold CodeGenIterationState_interact. unfold bind at 1, invoke.
  fold (iterationRequest config approach newFiles action).
  destruct (invokeGenerateCode env (tick w) _) as [resp|e].
  2:{ exists []. reflexivity. }
  unfold bind at 1, fire. unfold bind at 1, catch, generateCode.
  match goal with
  | |- context [pollLoop env ?n ?c ?t ?a ?g ?w0] =>
      destruct (pollLoop_frame env c t a g n w0) as [_ [l Hl]];
      destruct (pollLoop env n c t a g w0) as [[v|e] w1]
  end; cbn in Hl |- *; rewrite Hl; rewrite <- app_assoc; eexists; reflexivity.
Qed.

End IterationCalls.

(** C1.  The snapshot [CodeGenIterationState.interact] builds from its
    generated files [G] and the action's original files [O], both with
    pairwise distinct paths, is the payload of the code-generation request
    it sends; it has one entry per distinct path of [O] and [G]; an entry
    whose path is a path of [G] is the entry of [G]; and it consists of [G]
    in its order followed by the originals whose path is not in [G], in
    their order. *)
Theorem C1_merged_snapshot (env : Env) (config : SessionStateConfig)
    (approach : string) (tok : CancellationTokenSource)
    (G O : list FileMetadata) (action : SessionStateAction) (w : World) :
  NoDup (paths O) -> NoDup (paths G) -> files action = O ->
  (exists request payload l,
      calls (snd (CodeGenIterationState_interact env config approach tok G action w))
      = calls w ++ request :: l
      /\ inv_payload request = GenerateCode payload
      /\ gc_originalFileContents payload = mergeFileContents G O)
  /\ NoDup (paths (mergeFileContents G O))
  /\ (forall p, In p (paths (mergeFileContents G O)) <-> In p (paths O) \/ In p (paths G))
  /\ (forall f, In f (mergeFileContents G O) -> In (filePath f) (paths G) -> In f G)
  /\ firstn (List.length G) (mergeFileContents G O) = G
  /\ skipn (List.length G) (mergeFileContents G O)
     = filter (fun o => if in_dec string_dec (filePath o) (paths G) then false else true) O.
Proof.
  intros HO HG Hfiles. split.
  { destruct (CodeGenIterationState_interact_calls env config approach tok G action w)
      as [l Hl].
    eexists; eexists; exists l. split; [exact Hl|]. split; [reflexivity|].
    cbn. now rewrite Hfiles. }
  split; [now apply mergeFileContents_NoDup|].
  split; [apply mergeFileContents_paths|].
  split; [apply mergeFileContents_generated_wins|].
  unfold mergeFileContents. split.
  - rewrite firstn_app, firstn_all, Nat.sub_diag. cbn. now rewrite app_nil_r.
  - rewrite skipn_app, skipn_all, Nat.sub_diag. cbn.
    apply filter_ext. intros o.
    destruct (in_dec string_dec (filePath o) (paths G)) as [Hin|Hin].
    + apply negb_false_iff. now apply superseded_In.
    + apply negb_true_iff. apply not_true_is_false. intros H.
      apply Hin. now apply superseded_In.
Qed.

Lemma C1_merged_snapshot_witness :
  NoDup (paths [mkFile "a.txt" "0"; mkFile "b.txt" "2"])
  /\ NoDup (paths [mkFile "a.txt" "1"])
  /\ NoDup (paths (mergeFileContents [mkFile "a.txt" "1"]
                     [mkFile "a.txt" "0"; mkFile "b.txt" "2"]))
  /\ skipn 1 (mergeFileContents [mkFile "a.txt" "1"]
                [mkFile "a.txt" "0"; mkFile "b.txt" "2"])
     = [mkFile "b.txt" "2"].
Proof.
  assert (NoDup (paths [mkFile "a.txt" "0"; mkFile "b.txt" "2"])) as HO.
  { repeat constructor; cbn; intuition discriminate. }
  assert (NoDup (paths [mkFile "a.txt" "1"])) as HG.
  { repeat constructor; cbn; intuition. }
  split; [exact HO|]. split; [exact HG|].
  destruct (C1_merged_snapshot (sampleEnv started (fun _ => pollStatus "failed" None)
                                  (Normal false))
              sampleConfig "plan" 0 [mkFile "a.txt" "1"]
              [mkFile "a.txt" "0"; mkFile "b.txt" "2"] (sampleAction None) emptyWorld
              HO HG eq_refl) as (_ & Hnd & _ & _ & _ & Hskip).
  split; [exact Hnd|]. refine (eq_trans Hskip _). reflexivity.
Defined.

(** ** CodeGenState.interact *)

Section CodeGen.

Variable env : Env.
Variable config : SessionStateConfig.
Variable approach : string.
Variable tok : CancellationTokenSource.
Variable action : SessionStateAction.

Lemma CodeGenState_interact_throws (w : World) (e : JsError) :
  invokeGenerateCode env (tick w) (generateRequest config approach action) = Throw e ->
  CodeGenState_interact env config approach tok action w
  = (Throw e, advance (recordCall (generateRequest config approach action) w)).
Proof.
  intros H. unfold CodeGenState_interact. unfold bind at 1, invoke.
  fold (generateRequest config approach action). rewrite H. reflexivity.
Qed.

(** Once the initiating call has answered, the outcome of [interact] is
    that of the polling cycle, with a throw replaced by no files. *)
Lemma CodeGenState_interact_started (w : World) (resp : GenerateCodeOutput) :
  invokeGenerateCode env (tick w) (generateRequest config approach action) = Normal resp ->
  CodeGenState_interact env config approach tok action w
  = match generateCode env config tok (getResultsArn config) (generationId resp)
            (pollingStart config approach action w) with
    | (Normal newFiles, w1) =>
        (Normal {| nextState := CodeGenIterationState config approach (nextToken w1) newFiles;
                   interactions := [] |},
         allocToken w1)
    | (Throw _, w1) =>
        (Normal {| nextState := CodeGenIterationState config approach (nextToken w1) [];
                   interactions := [] |},
         allocToken (recordLog (LogError "Failed to generate code") w1))
    end.
Proof.
  intros H. unfold CodeGenState_interact. unfold bind at 1, invoke.
  fold (generateRequest config approach action). rewrite H.
  unfold bind at 1, fire. unfold bind at 1, catch.
  fold (getResultsArn config). fold (pollingStart config approach action w).
  destruct (generateCode env config tok (getResultsArn config) (generationId resp)
              (pollingStart config approach action w)) as [[newFiles|e] w1]; reflexivity.
Qed.

End CodeGen.

Lemma filter_statusFetch_repeat (config : SessionStateConfig) (arn gid : string) (k : nat) :
  filter isStatusFetch (repeat (statusFetch config arn gid) k)
  = repeat (statusFetch config arn gid) k.
Proof.
  induction k as [|k IH]; [reflexivity|]. cbn. now rewrite IH.
Qed.

(** C2.  When the initiating call answers and every status fetch reports
    [in-progress], [CodeGenState.interact] makes at most 60 status fetches
    (exactly 60 when the token is never cancelled), emits the
    generation-started message and then exactly one timeout message, and
    returns normally a [CodeGenIterationState] holding no files. *)
Theorem C2_polling_ceiling (env : Env) (config : SessionStateConfig)
    (approach : string) (tok : CancellationTokenSource)
    (action : SessionStateAction) (w : World) (resp : GenerateCodeOutput) :
  invokeGenerateCode env (tick w) (generateRequest config approach action) = Normal resp ->
  (forall t, exists r,
      invokeGetResult env t (statusFetch config (getResultsArn config) (generationId resp))
      = Normal r
      /\ codeGenerationStatus r = "in-progress") ->
  exists w' k,
    CodeGenState_interact env config approach tok action w
    = (Normal {| nextState := CodeGenIterationState config approach (nextToken w) [];
                 interactions := [] |}, w')
    /\ k <= 60
    /\ calls w' = calls w ++ generateRequest config approach action
                    :: repeat (statusFetch config (getResultsArn config) (generationId resp)) k
    /\ statusFetches w' = statusFetches w + k
    /\ history w' = history w ++ [codegenStarted; [aiMessage timeoutText]]
    /\ ((forall t, isCancellationRequested env tok t = false) -> k = 60).
Proof.
  intros Hgen Hall.
  rewrite (CodeGenState_interact_started env config approach tok action w resp Hgen).
  unfold generateCode.
  destruct (pollLoop_always_in_progress env config tok (getResultsArn config)
              (generationId resp) pollCount Hall (pollingStart config approach action w))
    as (w1 & k & Hrun & Hk & Hcalls & Hhist & Htok & Hex).
  rewrite Hrun. exists (allocToken w1), k.
  assert (calls (allocToken w1)
          = calls w ++ generateRequest config approach action
              :: repeat (statusFetch config (getResultsArn config) (generationId resp)) k)
    as Hc.
  { cbn [calls allocToken]. rewrite Hcalls. cbn. rewrite <- app_assoc. reflexivity. }
  split; [rewrite Htok; reflexivity|].
  split; [exact Hk|]. split; [exact Hc|]. split.
  { unfold statusFetches. rewrite Hc, filter_app, length_app. cbn.
    now rewrite filter_statusFetch_repeat, repeat_length. }
  split; [|exact Hex].
  cbn [history allocToken]. rewrite Hhist. cbn. rewrite <- app_assoc. reflexivity.
Qed.

Lemma C2_polling_ceiling_witness :
  exists w',
    CodeGenState_interact
      (sampleEnv started (fun _ => pollStatus "in-progress" None) (Normal false))
      sampleConfig "plan" 0 (sampleAction (Some "WRITE CODE")) emptyWorld
    = (Normal {| nextState := CodeGenIterationState sampleConfig "plan" 0 [];
                 interactions := [] |}, w')
    /\ statusFetches w' = 60
    /\ history w' = [codegenStarted; [aiMessage timeoutText]].
Proof.
  destruct (C2_polling_ceiling
              (sampleEnv started (fun _ => pollStatus "in-progress" None) (Normal false))
              sampleConfig "plan" 0 (sampleAction (Some "WRITE CODE")) emptyWorld
              {| generationId := "generation-1" |} eq_refl)
    as (w' & k & Hrun & _ & _ & Hn & Hh & Hk).
  { intros t. eexists. split; reflexivity. }
  exists w'. split; [exact Hrun|]. split; [|exact Hh].
  rewrite Hn, Hk; reflexivity.
Defined.

(** C7.  In a polling cycle whose first [k] fetches (k < 60) reported
    [in-progress], a fetch that reports [failed] or any status other than
    [ready] and [in-progress] ends the cycle: no further fetch is made,
    exactly one message is emitted for the condition, and the file set
    returned is empty. *)
Theorem C7_failed_or_unknown_stops (env : Env) (config : SessionStateConfig)
    (tok : CancellationTokenSource) (arn gid : string) (w : World) (k : nat)
    (r : GetCodeGenerationResultOutput) :
  k < pollCount ->
  inProgressUntil env tok (statusFetch config arn gid) w k ->
  isCancellationRequested env tok (tick w + 2 * k) = false ->
  invokeGetResult env (tick w + 2 * k + 1) (statusFetch config arn gid) = Normal r ->
  codeGenerationStatus r <> "ready" ->
  codeGenerationStatus r <> "in-progress" ->
  exists w',
    generateCode env config tok arn gid w = (Normal [], w')
    /\ calls w' = calls w ++ repeat (statusFetch config arn gid) (S k)
    /\ history w' = history w ++ [[aiMessage (diagnostic (codeGenerationStatus r))]]
    /\ registered w' = registered w.
Proof.
  intros Hk Hrun Hc Hr Hs1 Hs2. unfold generateCode.
  replace pollCount with (k + S (pollCount - S k)) by lia.
  destruct (pollLoop_skip_in_progress env config tok arn gid k (S (pollCount - S k)) w Hrun)
    as (wk & Heq & Ht & Hcalls & Hh & _ & Hreg).
  rewrite Heq. rewrite <- Ht in Hc, Hr. rewrite Nat.add_1_r in Hr.
  rewrite (pollLoop_stopped env _ config tok arn gid wk r Hc Hr Hs1 Hs2).
  eexists. split; [reflexivity|]. cbn. rewrite Hcalls, Hh, Hreg.
  split; [|split; reflexivity].
  rewrite <- app_assoc. f_equal. cbn [repeat]. symmetry. apply repeat_cons.
Qed.

Lemma C7_failed_or_unknown_stops_witness :
  exists w',
    generateCode
      (sampleEnv started
         (fun t => if Nat.ltb t 5 then pollStatus "in-progress" None
                   else pollStatus "queued" None)
         (Normal false))
      sampleConfig 0 (getResultsArn sampleConfig) "generation-1" emptyWorld
    = (Normal [], w')
    /\ List.length (calls w') = 3
    /\ history w' = [[aiMessage ("Unknown status: queued" ++ newline)]].
Proof.
  destruct (C7_failed_or_unknown_stops
              (sampleEnv started
                 (fun t => if Nat.ltb t 5 then pollStatus "in-progress" None
                           else pollStatus "queued" None)
                 (Normal false))
              sampleConfig 0 (getResultsArn sampleConfig) "generation-1" emptyWorld 2
              {| codeGenerationStatus := "queued"; result := None |})
    as (w' & Hrun & Hcalls & Hh & _).
  - unfold pollCount. lia.
  - intros j Hj. split; [reflexivity|].
    destruct j as [|[|j]]; [eexists; split; reflexivity..|lia].
  - reflexivity.
  - reflexivity.
  - discriminate.
  - discriminate.
  - exists w'. split; [exact Hrun|]. split.
    + rewrite Hcalls. reflexivity.
    + rewrite Hh. reflexivity.
Defined.



(** C3 (as the claim states it, refuted).  With an invoker whose
    code-generation call throws, [CodeGenState.interact] throws that error:
    it returns no next state, and nothing was emitted. *)
Lemma C3_initiating_failure_propagates :
  invokeGenerateCode
    (sampleEnv (Throw transportFailure) (fun _ => pollStatus "ready" None) (Normal false))
    (tick emptyWorld)
    (generateRequest sampleConfig "plan" (sampleAction (Some "WRITE CODE")))
  = Throw transportFailure
  /\ CodeGenState_interact
       (sampleEnv (Throw transportFailure) (fun _ => pollStatus "ready" None)
          (Normal false))
       sampleConfig "plan" 0 (sampleAction (Some "WRITE CODE")) emptyWorld
     = (Throw transportFailure,
        mkWorld 1 0 [generateRequest sampleConfig "plan" (sampleAction (Some "WRITE CODE"))]
          [] [] [] 0).
Proof. split; reflexivity. Qed.

(** C3 (amended).  An exception thrown by the call that initiates code
    generation propagates out of [CodeGenState.interact]: nothing is
    emitted and no next state is returned.  An exception thrown by the
    polling cycle that follows is caught: [interact] returns normally a
    [CodeGenIterationState] holding no files. *)
Theorem C3_only_polling_failures_are_caught (env : Env) (config : SessionStateConfig)
    (approach : string) (tok : CancellationTokenSource)
    (action : SessionStateAction) (w : World) :
  (forall e,
      invokeGenerateCode env (tick w) (generateRequest config approach action) = Throw e ->
      exists w',
        CodeGenState_interact env config approach tok action w = (Throw e, w')
        /\ history w' = history w)
  /\ (forall resp e w1,
        invokeGenerateCode env (tick w) (generateRequest config approach action)
        = Normal resp ->
        generateCode env config tok (getResultsArn config) (generationId resp)
          (pollingStart config approach action w) = (Throw e, w1) ->
        exists w',
          CodeGenState_interact env config approach tok action w
          = (Normal {| nextState := CodeGenIterationState config approach (nextToken w) [];
                       interactions := [] |}, w')).
Proof.
  split.
  - intros e H. rewrite (CodeGenState_interact_throws env config approach tok action w e H).
    eexists. split; reflexivity.
  - intros resp e w1 Hgen Hpoll.
    rewrite (CodeGenState_interact_started env config approach tok action w resp Hgen).
    pose proof (pollLoop_frame env config tok (getResultsArn config) (generationId resp)
                  pollCount (pollingStart config approach action w)) as [Ht _].
    unfold generateCode in Hpoll. rewrite Hpoll in Ht. cbn in Ht.
    unfold generateCode. rewrite Hpoll, Ht. eexists. reflexivity.
Qed.

Lemma C3_only_polling_failures_are_caught_witness :
  exists w',
    CodeGenState_interact
      (sampleEnv started (fun _ => Throw transportFailure) (Normal false))
      sampleConfig "plan" 0 (sampleAction (Some "WRITE CODE")) emptyWorld
    = (Normal {| nextState := CodeGenIterationState sampleConfig "plan" 0 [];
                 interactions := [] |}, w').
Proof.
  apply (proj2 (C3_only_polling_failures_are_caught
                  (sampleEnv started (fun _ => Throw transportFailure) (Normal false))
                  sampleConfig "plan" 0 (sampleAction (Some "WRITE CODE")) emptyWorld)
           {| generationId := "generation-1" |} transportFailure
           (snd (generateCode
                   (sampleEnv started (fun _ => Throw transportFailure) (Normal false))
                   sampleConfig 0 (getResultsArn sampleConfig) "generation-1"
                   (pollingStart sampleConfig "plan" (sampleAction (Some "WRITE CODE"))
                      emptyWorld)))).
  - reflexivity.
  - vm_compute. reflexivity.
Defined.

(** ** MockCodeGenState.interact *)

(** C8.  When probing the mock-data directory throws, or reports that it
    does not exist, or when reading it throws, [MockCodeGenState.interact]
    returns normally a [CodeGenIterationState] holding no files (with the
    summary of no paths), and registers nothing. *)
Theorem C8_mock_data_unavailable (env : Env) (config : SessionStateConfig)
    (approach : string) (tok : CancellationTokenSource)
    (action : SessionStateAction) (w : World) :
  (exists e, statOutcome env (tick w) (mockedFilesDir env config) = Throw e)
  \/ statOutcome env (tick w) (mockedFilesDir env config) = Normal false
  \/ (statOutcome env (tick w) (mockedFilesDir env config) = Normal true
      /\ exists e, collectFilesOutcome env (S (tick w)) (mockedFilesDir env config) = Throw e) ->
  exists w',
    MockCodeGenState_interact env config approach tok action w
    = (Normal {| nextState := CodeGenIterationState config approach (nextToken w) [];
                 interactions := changesSummary [] |}, w')
    /\ registered w' = registered w
    /\ history w' = history w.
Proof.
  unfold MockCodeGenState_interact. fold (mockedFilesDir env config).
  intros [[e H]|[H|[H [e H']]]];
    unfold bind at 1, catch; unfold bind at 1, stat; rewrite H.
  - eexists. split; [reflexivity|]. split; reflexivity.
  - eexists. split; [reflexivity|]. split; reflexivity.
  - unfold bind at 1, collectFiles. cbn [tick advance]. rewrite H'.
    eexists. split; [reflexivity|]. split; reflexivity.
Qed.

Lemma C8_mock_data_unavailable_witness :
  exists w',
    MockCodeGenState_interact
      (sampleEnv started (fun _ => pollStatus "ready" None)
         (Throw (HostError "FileNotFound" "mock-data")))
      sampleConfig "plan" 0 (sampleAction (Some "MOCK CODE")) emptyWorld
    = (Normal {| nextState := CodeGenIterationState sampleConfig "plan" 0 [];
                 interactions := changesSummary [] |}, w').
Proof.
  destruct (C8_mock_data_unavailable
              (sampleEnv started (fun _ => pollStatus "ready" None)
                 (Throw (HostError "FileNotFound" "mock-data")))
              sampleConfig "plan" 0 (sampleAction (Some "MOCK CODE")) emptyWorld)
    as (w' & Hrun & _).
  - left. eexists. reflexivity.
  - exists w'. exact Hrun.
Defined.

(** ** RefinementState.interact *)

(** C9.  When the approach-generation call answers, [RefinementState.interact]
    returns a [RefinementIterationState] carrying the answered approach and
    the configuration extended with the answered conversation id, and one
    AI message whose content is that approach followed by a newline; when
    the answer has no approach the fixed fallback text stands for it in
    both places. *)
Theorem C9_refinement_step (env : Env) (config : SessionStateConfigBase)
    (approach : string) (tok : CancellationTokenSource)
    (action : SessionStateAction) (w : World) (resp : GenerateApproachOutput) :
  invokeGenerateApproach env (tick w) (approachRequest config action) = Normal resp ->
  let text := match ga_approach resp with
              | Some a => a
              | None => problemText
              end in
  exists w',
    RefinementState_interact env config approach tok action w
    = (Normal {| nextState :=
                   RefinementIterationState
                     (withConversationId config (ga_conversationId resp))
                     text (nextToken w);
                 interactions := [aiMessage (text ++ newline)] |}, w')
    /\ conversationId (withConversationId config (ga_conversationId resp))
       = ga_conversationId resp
    /\ calls w' = calls w ++ [approachRequest config action]
    /\ history w' = history w.
Proof.
  intros H text. unfold RefinementState_interact. unfold bind at 1, invoke.
  fold (approachRequest config action). rewrite H.
  eexists. split; [reflexivity|]. repeat split.
Qed.

Lemma C9_refinement_step_witness :
  exists w',
    RefinementState_interact
      (sampleEnv started (fun _ => pollStatus "ready" None) (Normal false))
      sampleConfigBase EmptyString 0 (sampleAction None) emptyWorld
    = (Normal {| nextState :=
                   RefinementIterationState sampleConfig "Add a Button component" 0;
                 interactions := [aiMessage ("Add a Button component" ++ newline)] |}, w').
Proof.
  destruct (C9_refinement_step
              (sampleEnv started (fun _ => pollStatus "ready" None) (Normal false))
              sampleConfigBase EmptyString 0 (sampleAction None) emptyWorld
              {| ga_approach := Some "Add a Button component";
                 ga_conversationId := "conversation-1" |} eq_refl)
    as (w' & Hrun & _).
  exists w'. exact Hrun.
Defined.

(** ** RefinementIterationState.interact *)

Section Directives.

Variable env : Env.
Variable config : SessionStateConfig.
Variable approach : string.
Variable tok : CancellationTokenSource.
Variable action : SessionStateAction.

Lemma write_code_delegates (m : string) (w : World) :
  msg action = Some m -> occursIn "WRITE CODE" m ->
  RefinementIterationState_interact env config approach tok action w
  = delegateToCodeGen env config approach action w.
Proof.
  intros Hm Ho. unfold RefinementIterationState_interact. rewrite Hm.
  apply containsDirective_occurs in Ho; [|discriminate]. rewrite Ho. reflexivity.
Qed.

Lemma delegateToCodeGen_calls (w : World) :
  exists l, calls (snd (delegateToCodeGen env config approach action w))
            = calls w ++ generateRequest config approach action :: l.
Proof.
  unfold delegateToCodeGen, new_CodeGenState, bind, newTokenSource, ret. cbn [interact].
  destruct (invokeGenerateCode env (tick (allocToken w))
              (generateRequest config approach action)) as [resp|e] eqn:H.
  - rewrite (CodeGenState_interact_started env config approach (nextToken w) action
               (allocToken w) resp H).
    unfold generateCode.
    match goal with
    | |- context [pollLoop env ?n ?c ?t ?a ?g ?w0] =>
        destruct (pollLoop_frame env c t a g n w0) as [_ [l Hl]];
        destruct (pollLoop env n c t a g w0) as [[v|e] w1]
    end; cbn in Hl |- *; rewrite Hl; rewrite <- app_assoc; eexists; reflexivity.
  - rewrite (CodeGenState_interact_throws env config approach (nextToken w) action
               (allocToken w) e H).
    exists []. reflexivity.
Qed.

Lemma delegateToMockCodeGen_calls (w : World) :
  calls (snd (delegateToMockCodeGen env config approach action w)) = calls w.
Proof.
  unfold delegateToMockCodeGen, new_MockCodeGenState, newTokenSource.
  unfold bind at 1 2, ret. cbn [interact]. unfold MockCodeGenState_interact.
  unfold bind, catch, stat, collectFiles, new_CodeGenIterationState, newTokenSource,
    logger, ret.
  cbn [tick allocToken].
  destruct (statOutcome env (tick w) (pathJoin env (workspaceRoot config) "./mock-data"))
    as [[|]|e];
    [destruct (collectFilesOutcome env (S (tick w))
                 (pathJoin env (workspaceRoot config) "./mock-data")) as [fs|e] eqn:Hcf|..];
    cbn -[createChanges]; try rewrite Hcf; cbn -[createChanges];
    match goal with
    | |- context [createChanges env ?l ?w0] =>
        pose proof (createChanges_calls env l w0) as Hcc;
        destruct (createChanges env l w0) as [[ch|e'] w2]
    end; cbn in *; congruence.
Qed.

Lemma approachIteration_calls (w : World) :
  calls (snd (approachIteration env config approach action w))
  = calls w ++ [iterateRequest config approach action].
Proof.
  unfold approachIteration. unfold bind at 1, invoke.
  fold (iterateRequest config approach action).
  destruct (invokeIterateApproach env (tick w) _); reflexivity.
Qed.

End Directives.

(** C4.  The directive is searched as a case-sensitive substring.  A
    message in which ["WRITE CODE"] occurs makes
    [RefinementIterationState.interact] run [interact] of a freshly
    constructed [CodeGenState] on the same action.  A message in which
    neither ["WRITE CODE"] nor ["MOCK CODE"] occurs takes the
    approach-iteration path, whose only remote call is the
    approach-iteration request; the lowercase ["write code"] is such a
    message. *)
Theorem C4_write_code_directive (env : Env) (config : SessionStateConfig)
    (approach : string) (tok : CancellationTokenSource)
    (action : SessionStateAction) (w : World) (m : string) :
  msg action = Some m ->
  (occursIn "WRITE CODE" m ->
     RefinementIterationState_interact env config approach tok action w
     = (s <- new_CodeGenState config approach ;; interact env s action) w)
  /\ (~ occursIn "WRITE CODE" m -> ~ occursIn "MOCK CODE" m ->
        RefinementIterationState_interact env config approach tok action w
        = approachIteration env config approach action w
        /\ calls (snd (RefinementIterationState_interact env config approach tok action w))
           = calls w ++ [iterateRequest config approach action])
  /\ (m = "write code" ->
        RefinementIterationState_interact env config approach tok action w
        = approachIteration env config approach action w
        /\ calls (snd (RefinementIterationState_interact env config approach tok action w))
           = calls w ++ [iterateRequest config approach action]).
Proof.
  intros Hm.
  assert (~ occursIn "WRITE CODE" m -> ~ occursIn "MOCK CODE" m ->
          RefinementIterationState_interact env config approach tok action w
          = approachIteration env config approach action w
          /\ calls (snd (RefinementIterationState_interact env config approach tok action w))
             = calls w ++ [iterateRequest config approach action]) as Hplain.
  { intros Hw Hk.
    assert (RefinementIterationState_interact env config approach tok action w
            = approachIteration env config approach action w) as E.
    { unfold RefinementIterationState_interact.
      rewrite (containsDirective_absent (msg action) "WRITE CODE"),
              (containsDirective_absent (msg action) "MOCK CODE"); [reflexivity| |].
      - intros s Hs. rewrite Hm in Hs. injection Hs as <-. exact Hk.
      - intros s Hs. rewrite Hm in Hs. injection Hs as <-. exact Hw. }
    split; [exact E|]. rewrite E. apply approachIteration_calls. }
  split; [|split].
  - intros Ho. exact (write_code_delegates env config approach tok action m w Hm Ho).
  - exact Hplain.
  - intros ->. apply Hplain.
    + intros Ho. apply containsDirective_occurs in Ho; [|discriminate].
      vm_compute in Ho. discriminate.
    + intros Ho. apply containsDirective_occurs in Ho; [|discriminate].
      vm_compute in Ho. discriminate.
Qed.

Lemma C4_write_code_directive_witness :
  RefinementIterationState_interact
    (sampleEnv started (fun _ => pollStatus "ready" None) (Normal false))
    sampleConfig "plan" 0 (sampleAction (Some "please WRITE CODE now")) emptyWorld
  = (s <- new_CodeGenState sampleConfig "plan" ;;
     interact (sampleEnv started (fun _ => pollStatus "ready" None) (Normal false))
       s (sampleAction (Some "please WRITE CODE now"))) emptyWorld
  /\ calls (snd (RefinementIterationState_interact
                   (sampleEnv started (fun _ => pollStatus "ready" None) (Normal false))
                   sampleConfig "plan" 0 (sampleAction (Some "write code")) emptyWorld))
     = [iterateRequest sampleConfig "plan" (sampleAction (Some "write code"))].
Proof.
  split.
  - apply (proj1 (C4_write_code_directive
                    (sampleEnv started (fun _ => pollStatus "ready" None) (Normal false))
                    sampleConfig "plan" 0 (sampleAction (Some "please WRITE CODE now"))
                    emptyWorld "please WRITE CODE now" eq_refl)).
    exists "please ", " now". reflexivity.
  - apply (proj2 (proj2 (C4_write_code_directive
                    (sampleEnv started (fun _ => pollStatus "ready" None) (Normal false))
                    sampleConfig "plan" 0 (sampleAction (Some "write code"))
                    emptyWorld "write code" eq_refl)) eq_refl).
Defined.

(** C10.  A message in which both ["WRITE CODE"] and ["MOCK CODE"] occur
    makes [RefinementIterationState.interact] run [interact] of a fresh
    [CodeGenState]: it sends the code-generation request, which the
    [MockCodeGenState] path (that makes no remote call) does not. *)
Theorem C10_write_code_takes_precedence (env : Env) (config : SessionStateConfig)
    (approach : string) (tok : CancellationTokenSource)
    (action : SessionStateAction) (w : World) (m : string) :
  msg action = Some m ->
  occursIn "WRITE CODE" m ->
  occursIn "MOCK CODE" m ->
  RefinementIterationState_interact env config approach tok action w
  = (s <- new_CodeGenState config approach ;; interact env s action) w
  /\ (exists l,
        calls (snd (RefinementIterationState_interact env config approach tok action w))
        = calls w ++ generateRequest config approach action :: l)
  /\ RefinementIterationState_interact env config approach tok action w
     <> (s <- new_MockCodeGenState config approach ;; interact env s action) w.
Proof.
  intros Hm Hw _.
  pose proof (write_code_delegates env config approach tok action m w Hm Hw) as E.
  destruct (delegateToCodeGen_calls env config approach action w) as [l Hl].
  rewrite <- E in Hl.
  split; [exact E|]. split; [exists l; exact Hl|].
  intros F. rewrite F in Hl.
  pose proof (delegateToMockCodeGen_calls env config approach action w) as Hmock.
  unfold delegateToMockCodeGen in Hmock. rewrite Hmock in Hl.
  apply (f_equal (@List.length Invocation)) in Hl.
  rewrite length_app in Hl. cbn in Hl. lia.
Qed.

Lemma C10_write_code_takes_precedence_witness :
  RefinementIterationState_interact
    (sampleEnv started (fun _ => pollStatus "ready" None) (Normal true))
    sampleConfig "plan" 0 (sampleAction (Some "MOCK CODE then WRITE CODE")) emptyWorld
  = (s <- new_CodeGenState sampleConfig "plan" ;;
     interact (sampleEnv started (fun _ => pollStatus "ready" None) (Normal true))
       s (sampleAction (Some "MOCK CODE then WRITE CODE"))) emptyWorld.
Proof.
  apply (C10_write_code_takes_precedence
           (sampleEnv started (fun _ => pollStatus "ready" None) (Normal true))
           sampleConfig "plan" 0 (sampleAction (Some "MOCK CODE then WRITE CODE"))
           emptyWorld "MOCK CODE then WRITE CODE" eq_refl).
  - exists "MOCK CODE then ", EmptyString. reflexivity.
  - exists EmptyString, " then WRITE CODE". reflexivity.
Defined.

(** ** The JSON parser has enough fuel *)

Section JsonFuel.

Import Json.

Lemma skipWs_length (s : string) : String.length (skipWs s) <= String.length s.
Proof.
  induction s as [|c s IH]; cbn; [lia|].
  destruct (isJsonWs c); cbn; lia.
Qed.

Lemma digits_length (s d r : string) :
  digits s = (d, r) -> String.length r <= String.length s.
Proof.
  revert d r; induction s as [|c s IH]; intros d r H; cbn in H.
  - injection H as <- <-. cbn. lia.
  - destruct (isDigit c).
    + destruct (digits s) as [d' r'] eqn:E. injection H as <- <-.
      specialize (IH d' r' eq_refl). cbn. lia.
    + injection H as <- <-. cbn. lia.
Qed.

Ltac break_if :=
  match goal with
  | H : context [if ?b then _ else _] |- _ => destruct b eqn:?
  | H : context [match ?x with _ => _ end] |- _ => destruct x eqn:?
  end.

Lemma lexString_length (n : nat) :
  forall s acc x r,
    String.length s <= n -> lexString s acc = Some (x, r) ->
    String.length r < String.length s.
Proof.
  induction n as [|n IH]; intros s acc x r Hn H.
  - destruct s; [discriminate|cbn in Hn; lia].
  - destruct s as [|c s]; [discriminate|].
    cbn [lexString] in H. cbn [String.length] in *.
    repeat (break_if; try discriminate; subst; cbn [String.length] in * );
      try (injection H as <- <-; cbn; lia);
      try (apply IH in H; cbn [String.length] in *; lia).
Qed.

Ltac invert_pairs :=
  repeat match goal with
         | E : (_, _) = (_, _) |- _ => injection E as ? ?
         | E : Some _ = Some _ |- _ => injection E as ?
         end.

Lemma lexNumber_length (s lit r : string) :
  lexNumber s = Some (lit, r) -> String.length r < String.length s.
Proof.
  unfold lexNumber. intros H.
  repeat (break_if; try discriminate); invert_pairs;
    repeat match goal with
           | E : digits _ = (_, _) |- _ => apply digits_length in E
           end;
    subst; cbn [String.length] in *; lia.
Qed.

Lemma prefix_drop_length (w s : string) :
  String.prefix w s = true ->
  String.length (JsString.drop (String.length w) s) + String.length w = String.length s.
Proof.
  revert s; induction w as [|a w IH]; intros s H; cbn.
  - lia.
  - destruct s as [|b s]; [discriminate|]. cbn in H.
    destruct (ascii_dec a b); [|discriminate].
    specialize (IH s H). cbn. lia.
Qed.

Lemma keyword_length (w s r : string) :
  0 < String.length w -> keyword w s = Some r -> String.length r < String.length s.
Proof.
  unfold keyword. intros Hw H. destruct (String.prefix w s) eqn:E; [|discriminate].
  injection H as <-. apply prefix_drop_length in E. lia.
Qed.

Definition shortens (value : string -> ParseResult) : Prop :=
  forall s v r, value s = Some (v, r) -> String.length r < String.length s.

Definition shortensList {A} (many : string -> list A -> ParseResult) : Prop :=
  forall s acc v r, many s acc = Some (v, r) -> String.length r < String.length s.

Lemma valueStep_length members elements :
  shortensList members -> shortensList elements -> shortens (valueStep members elements).
Proof.
  intros Hm He s v r H. unfold valueStep in H.
  repeat (break_if; try discriminate); invert_pairs; subst;
    repeat match goal with
           | E : skipWs ?x = String _ _ |- _ =>
               let L := fresh in
               pose proof (skipWs_length x) as L; rewrite E in L; clear E
           | E : members _ _ = Some _ |- _ => apply Hm in E
           | E : elements _ _ = Some _ |- _ => apply He in E
           | E : lexString _ _ = Some _ |- _ => apply (lexString_length _ _ _ _ _ (le_n _)) in E
           | E : lexNumber _ = Some _ |- _ => apply lexNumber_length in E
           | E : keyword _ _ = Some _ |- _ => apply keyword_length in E; [|cbn; lia]
           end;
    cbn [String.length] in *; lia.
Qed.

Lemma elementsStep_length value elements :
  shortens value -> shortensList elements -> shortensList (elementsStep value elements).
Proof.
  intros Hv He s acc v r H. unfold elementsStep in H.
  repeat (break_if; try discriminate); invert_pairs; subst;
    repeat match goal with
           | E : skipWs ?x = String _ _ |- _ =>
               let L := fresh in
               pose proof (skipWs_length x) as L; rewrite E in L; clear E
           | E : value _ = Some _ |- _ => apply Hv in E
           | E : elements (skipWs ?x) _ = Some _ |- _ =>
               apply He in E; pose proof (skipWs_length x)
           end;
    cbn [String.length] in *; lia.
Qed.

Lemma membersStep_length value members :
  shortens value -> shortensList members -> shortensList (membersStep value members).
Proof.
  intros Hv Hm s acc v r H. unfold membersStep in H.
  repeat (break_if; try discriminate); invert_pairs; subst;
    repeat match goal with
           | E : value (skipWs ?x) = Some _ |- _ =>
               apply Hv in E; pose proof (skipWs_length x)
           | E : members (skipWs ?x) _ = Some _ |- _ =>
               apply Hm in E; pose proof (skipWs_length x)
           | E : skipWs ?x = String _ _ |- _ =>
               let L := fresh in
               pose proof (skipWs_length x) as L; rewrite E in L; clear E
           | E : lexString _ _ = Some _ |- _ => apply (lexString_length _ _ _ _ _ (le_n _)) in E
           end;
    cbn [String.length] in *; lia.
Qed.

Lemma parse_length (fuel : nat) :
  shortens (parseValue fuel)
  /\ shortensList (parseElements fuel)
  /\ shortensList (parseMembers fuel).
Proof.
  induction fuel as [|fuel (Hv & He & Hm)].
  - repeat split; intros ?; intros; discriminate.
  - split; [|split].
    + apply (valueStep_length _ _ Hm He).
    + apply (elementsStep_length _ _ Hv He).
    + apply (membersStep_length _ _ Hv Hm).
Qed.

Lemma valueStep_ext members members' elements elements' (s : string) :
  (forall s' acc, String.length s' < String.length s -> members s' acc = members' s' acc) ->
  (forall s' acc, String.length s' < String.length s -> elements s' acc = elements' s' acc) ->
  valueStep members elements s = valueStep members' elements' s.
Proof.
  intros Hm He. unfold valueStep. destruct s as [|c r]; [reflexivity|].
  pose proof (skipWs_length r) as L. cbn [String.length] in Hm, He.
  destruct (skipWs r) as [|c' r']; [reflexivity|].
  rewrite Hm, He by lia. reflexivity.
Qed.

Lemma elementsStep_ext value value' elements elements' (s : string) acc :
  shortens value ->
  value s = value' s ->
  (forall s' acc, String.length s' < String.length s -> elements s' acc = elements' s' acc) ->
  elementsStep value elements s acc = elementsStep value' elements' s acc.
Proof.
  intros Hs Hv He. unfold elementsStep. rewrite <- Hv.
  destruct (value s) as [[v r]|] eqn:E; [|reflexivity]. apply Hs in E.
  pose proof (skipWs_length r) as L.
  destruct (skipWs r) as [|c r']; [reflexivity|]. cbn [String.length] in L.
  pose proof (skipWs_length r'). rewrite He by lia. reflexivity.
Qed.

Lemma membersStep_ext value value' members members' (s : string) acc :
  shortens value ->
  (forall s', String.length s' < String.length s -> value s' = value' s') ->
  (forall s' acc, String.length s' < String.length s -> members s' acc = members' s' acc) ->
  membersStep value members s acc = membersStep value' members' s acc.
Proof.
  intros Hs Hv Hm. unfold membersStep. destruct s as [|q r]; [reflexivity|].
  destruct (code q =? 34)%N; [|reflexivity].
  destruct (lexString r EmptyString) as [[key r1]|] eqn:E1; [|reflexivity].
  apply (lexString_length _ _ _ _ _ (le_n _)) in E1.
  pose proof (skipWs_length r1) as L1.
  destruct (skipWs r1) as [|colon r2]; [reflexivity|]. cbn [String.length] in *.
  destruct (code colon =? 58)%N; [|reflexivity].
  pose proof (skipWs_length r2) as L2.
  rewrite <- Hv by lia.
  destruct (value (skipWs r2)) as [[v r3]|] eqn:E3; [|reflexivity]. apply Hs in E3.
  pose proof (skipWs_length r3) as L3.
  destruct (skipWs r3) as [|c r4]; [reflexivity|]. cbn [String.length] in *.
  pose proof (skipWs_length r4) as L4. rewrite Hm by lia. reflexivity.
Qed.

(** One more unit of fuel changes nothing once there is twice the length
    of the text. *)
Lemma parse_fuel_step (fuel : nat) :
  (forall s, 2 * String.length s + 1 <= fuel ->
             parseValue (S fuel) s = parseValue fuel s)
  /\ (forall s acc, 2 * String.length s + 2 <= fuel ->
                    parseElements (S fuel) s acc = parseElements fuel s acc)
  /\ (forall s acc, 2 * String.length s + 2 <= fuel ->
                    parseMembers (S fuel) s acc = parseMembers fuel s acc).
Proof.
  induction fuel as [|fuel (Hv & He & Hm)].
  - repeat split; intros; lia.
  - destruct (parse_length (S fuel)) as (Lv & _ & _).
    split; [|split].
    + intros s Hs. change (valueStep (parseMembers (S fuel)) (parseElements (S fuel)) s
                           = valueStep (parseMembers fuel) (parseElements fuel) s).
      apply valueStep_ext; intros s' acc Hl; [apply Hm|apply He]; lia.
    + intros s acc Hs.
      change (elementsStep (parseValue (S fuel)) (parseElements (S fuel)) s acc
              = elementsStep (parseValue fuel) (parseElements fuel) s acc).
      apply elementsStep_ext; [exact Lv|apply Hv; lia|].
      intros s' acc' Hl. apply He. lia.
    + intros s acc Hs.
      change (membersStep (parseValue (S fuel)) (parseMembers (S fuel)) s acc
              = membersStep (parseValue fuel) (parseMembers fuel) s acc).
      apply membersStep_ext; [exact Lv| |].
      * intros s' Hl. apply Hv. lia.
      * intros s' acc' Hl. apply Hm. lia.
Qed.

(** [JSON_parse] gives its parser enough fuel: more would not change the
    result. *)
Lemma parseValue_fuel (text : string) (extra : nat) :
  parseValue (2 * String.length text + 2 + extra) (skipWs text)
  = parseValue (2 * String.length text + 2) (skipWs text).
Proof.
  induction extra as [|extra IH]; [now rewrite Nat.add_0_r|].
  rewrite Nat.add_succ_r, <- IH.
  apply (proj1 (parse_fuel_step _)).
  pose proof (skipWs_length text). lia.
Qed.

End JsonFuel.

(** ** getConfig *)

Section ConfigProperties.

Import Json Config.

Variable numberToString : string -> string.

Lemma parse_blobVersion2Endpoint :
  JSON_parse blobVersion2Endpoint
  = Normal (JObject [("version", JNumber "2"); ("endpoint", JString "https://x")]).
Proof. vm_compute. reflexivity. Qed.

Lemma parse_blobVersion1 :
  JSON_parse blobVersion1 = Normal (JObject [("version", JNumber "1")]).
Proof. vm_compute. reflexivity. Qed.

(** Whatever the variable holds and whatever is cached, [getConfig]
    completes normally: every throw of the [try] block is caught. *)
Lemma getConfig_total (config : option string) (m : ConfigModule) :
  exists c m', getConfig numberToString config m = (Normal c, m').
Proof.
  unfold getConfig. destruct (cachedConfig m) as [c|].
  - exists c, m. reflexivity.
  - unfold bind at 1, catch.
    destruct (tryResolve numberToString config m) as [[c|e] m1];
      eexists; eexists; reflexivity.
Qed.

(** Once a value is cached it is returned, whatever the variable holds. *)
Lemma getConfig_cached (config : option string) (m : ConfigModule)
    (c : LocalResolvedConfig JSValue) :
  cachedConfig m = Some c -> getConfig numberToString config m = (Normal c, m).
Proof.
  intros H. unfold getConfig. rewrite H. reflexivity.
Qed.

Lemma getConfig_unparseable (blob : string) (e : JsError) (m : ConfigModule) :
  cachedConfig m = None ->
  JSON_parse blob = Throw e ->
  getConfig numberToString (Some blob) m
  = (Normal (asValues defaultConfig),
     {| cachedConfig := Some (asValues defaultConfig); configLog := configLog m |}).
Proof.
  intros Hc Hp. unfold getConfig. rewrite Hc.
  unfold bind at 1, catch, tryResolve. unfold bind at 1, liftCompletion.
  cbn [JsString.nullish]. rewrite Hp. reflexivity.
Qed.

End ConfigProperties.

(** C5.  With a host that renders the numbers 2 and 1 as ["2"] and ["1"],
    and nothing cached yet: the blob with version 2 and endpoint
    [https://x] resolves to that endpoint with the default region and
    every lambda ARN at its default; the blob with version 1 resolves to
    the full default configuration; a blob that [JSON.parse] rejects
    resolves to the full default configuration.  In every case, cached or
    not, [getConfig] completes normally. *)
Theorem C5_config_resolution (numberToString : string -> string) :
  numberToString "2" = "2" ->
  numberToString "1" = "1" ->
  (forall m, Config.cachedConfig m = None ->
     exists c m',
       Config.getConfig numberToString (Some blobVersion2Endpoint) m = (Normal c, m')
       /\ endpoint c = Json.JString "https://x"
       /\ region c = Json.JString (region Config.defaultConfig)
       /\ lambdaArns c = lambdaArns (Config.asValues Config.defaultConfig))
  /\ (forall m, Config.cachedConfig m = None ->
        exists m',
          Config.getConfig numberToString (Some blobVersion1) m
          = (Normal (Config.asValues Config.defaultConfig), m'))
  /\ (forall blob e m, Config.cachedConfig m = None ->
        Json.JSON_parse blob = Throw e ->
        exists m',
          Config.getConfig numberToString (Some blob) m
          = (Normal (Config.asValues Config.defaultConfig), m'))
  /\ (forall config m,
        exists c m', Config.getConfig numberToString config m = (Normal c, m')).
Proof.
  intros H2 H1. split; [|split; [|split]].
  - intros m Hc. unfold Config.getConfig. rewrite Hc.
    unfold bind at 1, catch, Config.tryResolve. unfold bind at 1, liftCompletion.
    cbn [JsString.nullish]. rewrite parse_blobVersion2Endpoint.
    unfold bind at 1. cbn [Config.getProp Config.lookupLast String.eqb Ascii.eqb Bool.eqb].
    unfold Config.Number_parseInt. cbn [Config.toString]. rewrite H2.
    eexists. eexists. split; [vm_compute; reflexivity|].
    split; [reflexivity|]. split; reflexivity.
  - intros m Hc. unfold Config.getConfig. rewrite Hc.
    unfold bind at 1, catch, Config.tryResolve. unfold bind at 1, liftCompletion.
    cbn [JsString.nullish]. rewrite parse_blobVersion1.
    unfold bind at 1. cbn [Config.getProp Config.lookupLast String.eqb Ascii.eqb Bool.eqb].
    unfold Config.Number_parseInt. cbn [Config.toString]. rewrite H1.
    eexists. vm_compute. reflexivity.
  - intros blob e m Hc Hp. eexists.
    apply (getConfig_unparseable numberToString blob e m Hc Hp).
  - intros config m. apply getConfig_total.
Qed.

Lemma C5_config_resolution_witness :
  (exists c m',
      Config.getConfig literalText (Some blobVersion2Endpoint) Config.initialModule
      = (Normal c, m')
      /\ endpoint c = Json.JString "https://x"
      /\ lambdaArns c = lambdaArns (Config.asValues Config.defaultConfig))
  /\ (exists m',
        Config.getConfig literalText (Some blobVersion1) Config.initialModule
        = (Normal (Config.asValues Config.defaultConfig), m'))
  /\ (exists m',
        Config.getConfig literalText (Some "{not json") Config.initialModule
        = (Normal (Config.asValues Config.defaultConfig), m')).
Proof.
  destruct (C5_config_resolution literalText eq_refl eq_refl) as (Hv2 & Hv1 & Hbad & _).
  split; [|split].
  - destruct (Hv2 Config.initialModule eq_refl) as (c & m' & Hrun & He & _ & Ha).
    exists c, m'. split; [exact Hrun|]. split; [exact He|exact Ha].
  - exact (Hv1 Config.initialModule eq_refl).
  - apply (Hbad "{not json" (HostError "SyntaxError" "JSON.parse") Config.initialModule eq_refl).
    vm_compute. reflexivity.
Defined.

(* ================================================================== *)
(** * Further properties of the state machine *)
(* ================================================================== *)

(** ** Sample environments with cancellation and failing registration *)

(** [env] with the cancellation oracle replaced. *)
Definition withCancellation (cancel : CancellationTokenSource -> nat -> bool)
    (env : Env) : Env :=
  {| invokeGenerateApproach := invokeGenerateApproach env;
     invokeIterateApproach := invokeIterateApproach env;
     invokeGenerateCode := invokeGenerateCode env;
     invokeGetResult := invokeGetResult env;
     isCancellationRequested := cancel;
     uriFrom := uriFrom env;
     registerProviderOutcome := registerProviderOutcome env;
     statOutcome := statOutcome env;
     collectFilesOutcome := collectFilesOutcome env;
     pathJoin := pathJoin env;
     weaverbirdScheme := weaverbirdScheme env |}.

(** [env] with the outcome of [registerProvider] replaced. *)
Definition withRegistration (outcome : nat -> Uri -> string -> Completion unit)
    (env : Env) : Env :=
  {| invokeGenerateApproach := invokeGenerateApproach env;
     invokeIterateApproach := invokeIterateApproach env;
     invokeGenerateCode := invokeGenerateCode env;
     invokeGetResult := invokeGetResult env;
     isCancellationRequested := isCancellationRequested env;
     uriFrom := uriFrom env;
     registerProviderOutcome := outcome;
     statOutcome := statOutcome env;
     collectFilesOutcome := collectFilesOutcome env;
     pathJoin := pathJoin env;
     weaverbirdScheme := weaverbirdScheme env |}.

(** [env] with the approach oracles replaced. *)
Definition withApproach
    (generate : nat -> Invocation -> Completion GenerateApproachOutput)
    (iterate : nat -> Invocation -> Completion IterateApproachOutput)
    (env : Env) : Env :=
  {| invokeGenerateApproach := generate;
     invokeIterateApproach := iterate;
     invokeGenerateCode := invokeGenerateCode env;
     invokeGetResult := invokeGetResult env;
     isCancellationRequested := isCancellationRequested env;
     uriFrom := uriFrom env;
     registerProviderOutcome := registerProviderOutcome env;
     statOutcome := statOutcome env;
     collectFilesOutcome := collectFilesOutcome env;
     pathJoin := pathJoin env;
     weaverbirdScheme := weaverbirdScheme env |}.

Definition plainEnv : Env :=
  sampleEnv started (fun _ => pollStatus "ready" (Some [mkFile "a.txt" "1"])) (Normal true).

Definition diskFull : JsError := HostError "Error" "ENOSPC".

(** The provider registered for a file when [vscode.Uri.from] answers [mk]. *)
Definition providerOf (mk : string -> Uri) (f : FileMetadata) : Uri * string :=
  (mk (filePath f), fileContent f).

(** ** createChanges *)

Section CreateChanges.

Variable env : Env.
Variable mk : string -> Uri.
Hypothesis uriFrom_mk : forall p, uriFrom env (weaverbirdScheme env) p = Normal (mk p).

(** While every registration succeeds the loop registers the files in
    order, one tick each, and collects their paths. *)
Lemma registerAll_succeeds (l : list FileMetadata) :
  forall acc w,
    (forall i f, nth_error l i = Some f ->
       registerProviderOutcome env (tick w + i) (mk (filePath f)) (fileContent f)
       = Normal tt) ->
    registerAll env l acc w
    = (Normal (acc ++ paths l),
       mkWorld (tick w + List.length l) (nextToken w) (calls w) (history w)
               (registered w ++ map (providerOf mk) l) (log w) (elapsed w)).
Proof.
  induction l as [|f l IH]; intros acc w H.
  - cbn. rewrite !app_nil_r, Nat.add_0_r. destruct w; reflexivity.
  - cbn [registerAll]. unfold bind at 1, liftCompletion. rewrite uriFrom_mk.
    unfold bind at 1, registerProvider, encode.
    pose proof (H 0 f eq_refl) as H0. rewrite Nat.add_0_r in H0. rewrite H0.
    rewrite IH.
    + cbn. rewrite <- !app_assoc. cbn. f_equal. f_equal. lia.
    + intros i g Hi. cbn [tick advance recordProvider].
      replace (S (tick w) + i) with (tick w + S i) by lia. apply H. exact Hi.
Qed.

(** The first registration that throws ends the loop with its error; the
    files before it stay registered. *)
Lemma registerAll_fails (done : list FileMetadata) (f : FileMetadata)
    (rest : list FileMetadata) (e : JsError) :
  forall acc w,
    (forall i g, nth_error done i = Some g ->
       registerProviderOutcome env (tick w + i) (mk (filePath g)) (fileContent g)
       = Normal tt) ->
    registerProviderOutcome env (tick w + List.length done) (mk (filePath f)) (fileContent f)
    = Throw e ->
    registerAll env (done ++ f :: rest) acc w
    = (Throw e,
       mkWorld (S (tick w + List.length done)) (nextToken w) (calls w) (history w)
               (registered w ++ map (providerOf mk) done) (log w) (elapsed w)).
Proof.
  induction done as [|g done IH]; intros acc w H He.
  - cbn [app registerAll]. unfold bind at 1, liftCompletion. rewrite uriFrom_mk.
    unfold bind at 1, registerProvider, encode.
    cbn [List.length] in He. rewrite Nat.add_0_r in He. rewrite He.
    cbn. rewrite app_nil_r, Nat.add_0_r. reflexivity.
  - cbn [app registerAll]. unfold bind at 1, liftCompletion. rewrite uriFrom_mk.
    unfold bind at 1, registerProvider, encode.
    pose proof (H 0 g eq_refl) as H0. rewrite Nat.add_0_r in H0. rewrite H0.
    rewrite IH.
    + cbn. rewrite <- !app_assoc. cbn. f_equal. f_equal. lia.
    + intros i h Hi. cbn [tick advance recordProvider].
      replace (S (tick w) + i) with (tick w + S i) by lia. apply H. exact Hi.
    + cbn [tick advance recordProvider]. cbn [List.length] in He.
      replace (S (tick w) + List.length done) with (tick w + S (List.length done)) by lia.
      exact He.
Qed.

End CreateChanges.

(** X1.  When every registration succeeds, [createChanges] registers one
    provider per file, in the order of the files and with the file's
    content, and its summary lists exactly the files' paths in that order;
    it makes no remote call and fires nothing itself. *)
Theorem createChanges_registers_in_order (env : Env) (mk : string -> Uri)
    (l : list FileMetadata) (w : World) :
  (forall p, uriFrom env (weaverbirdScheme env) p = Normal (mk p)) ->
  (forall i f, nth_error l i = Some f ->
     registerProviderOutcome env (tick w + i) (mk (filePath f)) (fileContent f)
     = Normal tt) ->
  exists w',
    createChanges env l w = (Normal (changesSummary (paths l)), w')
    /\ registered w' = registered w ++ map (providerOf mk) l
    /\ tick w' = tick w + List.length l
    /\ calls w' = calls w
    /\ history w' = history w.
Proof.
  intros Hu Hr. unfold createChanges, bind.
  rewrite (registerAll_succeeds env mk Hu l [] w Hr).
  eexists. split; [reflexivity|]. repeat split.
Qed.

Lemma createChanges_registers_in_order_witness :
  exists w',
    createChanges plainEnv [mkFile "a.txt" "1"; mkFile "src/b.txt" "2"] emptyWorld
    = (Normal (changesSummary ["a.txt"; "src/b.txt"]), w')
    /\ registered w'
       = [({| scheme := "weaverbird"; path := "a.txt" |}, "1");
          ({| scheme := "weaverbird"; path := "src/b.txt" |}, "2")].
Proof.
  destruct (createChanges_registers_in_order plainEnv
              (fun p => {| scheme := "weaverbird"; path := p |})
              [mkFile "a.txt" "1"; mkFile "src/b.txt" "2"] emptyWorld)
    as (w' & Hrun & Hreg & _).
  - intros p. reflexivity.
  - intros i f _. reflexivity.
  - exists w'. split; [exact Hrun|exact Hreg].
Defined.

(** X2.  [createChanges] does not roll back: when the registration of a
    file throws, the error propagates, the files before it stay registered
    and the files after it are never registered. *)
Theorem createChanges_no_rollback (env : Env) (mk : string -> Uri)
    (done : list FileMetadata) (f : FileMetadata) (rest : list FileMetadata)
    (e : JsError) (w : World) :
  (forall p, uriFrom env (weaverbirdScheme env) p = Normal (mk p)) ->
  (forall i g, nth_error done i = Some g ->
     registerProviderOutcome env (tick w + i) (mk (filePath g)) (fileContent g)
     = Normal tt) ->
  registerProviderOutcome env (tick w + List.length done) (mk (filePath f)) (fileContent f)
  = Throw e ->
  exists w',
    createChanges env (done ++ f :: rest) w = (Throw e, w')
    /\ registered w' = registered w ++ map (providerOf mk) done
    /\ history w' = history w.
Proof.
  intros Hu Hd He. unfold createChanges, bind.
  rewrite (registerAll_fails env mk Hu done f rest e [] w Hd He).
  eexists. split; [reflexivity|]. split; reflexivity.
Qed.

Lemma createChanges_no_rollback_witness :
  exists w',
    createChanges
      (withRegistration (fun t _ _ => if Nat.eqb t 1 then Throw diskFull else Normal tt)
         plainEnv)
      [mkFile "a.txt" "1"; mkFile "b.txt" "2"; mkFile "c.txt" "3"] emptyWorld
    = (Throw diskFull, w')
    /\ registered w' = [({| scheme := "weaverbird"; path := "a.txt" |}, "1")].
Proof.
  destruct (createChanges_no_rollback
              (withRegistration
                 (fun t _ _ => if Nat.eqb t 1 then Throw diskFull else Normal tt) plainEnv)
              (fun p => {| scheme := "weaverbird"; path := p |})
              [mkFile "a.txt" "1"] (mkFile "b.txt" "2") [mkFile "c.txt" "3"]
              diskFull emptyWorld)
    as (w' & Hrun & Hreg & _).
  - intros p. reflexivity.
  - intros i g Hi. destruct i as [|[|i]]; [reflexivity|discriminate|discriminate].
  - reflexivity.
  - exists w'. split; [exact Hrun|exact Hreg].
Defined.

(** ** generateCode in any environment *)

Section PollingInvariants.

Variable env : Env.
Variable config : SessionStateConfig.
Variable tok : CancellationTokenSource.
Variables arn gid : string.

Lemma registerAll_frame (l : list FileMetadata) :
  forall acc w,
    history (snd (registerAll env l acc w)) = history w
    /\ elapsed (snd (registerAll env l acc w)) = elapsed w.
Proof.
  induction l as [|f l IH]; intros acc w; [split; reflexivity|].
  cbn [registerAll]. unfold bind at 1 3. unfold liftCompletion.
  destruct (uriFrom env (weaverbirdScheme env) (filePath f)) as [u|e];
    [|split; reflexivity].
  unfold bind at 1 2, registerProvider.
  destruct (registerProviderOutcome env (tick w) _ _); [|split; reflexivity].
  destruct (IH (acc ++ [filePath f])
              (advance (recordProvider u (encode (fileContent f)) w))) as [Hh He].
  rewrite Hh, He. split; reflexivity.
Qed.

(** The statements of the [ready] case: one list is fired when
    [createChanges] returns, none when it throws; no time is slept. *)
Lemma readyExit_history (nf : list FileMetadata) (w : World) :
  match (changes <- createChanges env nf ;; fire changes ;; ret nf) w with
  | (Normal _, w') => exists l, history w' = history w ++ [l]
  | (Throw _, w') => history w' = history w
  end
  /\ elapsed (snd ((changes <- createChanges env nf ;; fire changes ;; ret nf) w))
     = elapsed w.
Proof.
  unfold createChanges. unfold bind.
  destruct (registerAll_frame nf [] w) as [Hh He].
  destruct (registerAll env nf [] w) as [[ps|e] w1]; cbn in *.
  - split; [|exact He]. eexists. rewrite Hh. reflexivity.
  - split; assumption.
Qed.

(** Whatever the environment answers, the loop makes [k] calls, all of
    them the status fetch, sleeps ten seconds after [j] of them, allocates
    no token, and fires one list exactly when it returns. *)
Lemma pollLoop_invariants (n : nat) :
  forall w, exists k j,
    j <= k /\ k <= n
    /\ calls (snd (pollLoop env n config tok arn gid w))
       = calls w ++ repeat (statusFetch config arn gid) k
    /\ elapsed (snd (pollLoop env n config tok arn gid w))
       = (elapsed w + 10000 * Z.of_nat j)%Z
    /\ match pollLoop env n config tok arn gid w with
       | (Normal _, w') => exists l, history w' = history w ++ [l]
       | (Throw _, w') => history w' = history w
       end.
Proof.
  induction n as [|n IH]; intros w.
  - exists 0, 0. cbn. rewrite app_nil_r, Z.add_0_r.
    repeat split; auto. eexists. reflexivity.
  - destruct (isCancellationRequested env tok (tick w)) eqn:Hc.
    { rewrite pollLoop_cancelled by exact Hc. exists 0, 0. cbn.
      rewrite app_nil_r, Z.add_0_r. repeat split; auto with arith.
      eexists. reflexivity. }
    destruct (invokeGetResult env (S (tick w)) (statusFetch config arn gid))
      as [r|e] eqn:Hr.
    2:{ rewrite (pollLoop_fetch_throws env n config tok arn gid w e Hc Hr).
        exists 1, 0. cbn. rewrite Z.add_0_r. repeat split; auto with arith. }
    destruct (String.eqb (codeGenerationStatus r) "ready") eqn:E1.
    { apply String.eqb_eq in E1.
      rewrite (pollLoop_ready env config tok arn gid n w r Hc Hr E1).
      destruct (readyExit_frame env (resultFiles r)
                  (recordLog (LogInfoCodegenResponse r)
                     (advance (recordCall (statusFetch config arn gid) (advance w)))))
        as [_ Hcl].
      destruct (readyExit_history (resultFiles r)
                  (recordLog (LogInfoCodegenResponse r)
                     (advance (recordCall (statusFetch config arn gid) (advance w)))))
        as [Hh He].
      exists 1, 0. rewrite Hcl, He. cbn [calls elapsed recordLog advance recordCall repeat].
      rewrite Z.add_0_r. repeat split; auto with arith. }
    destruct (String.eqb (codeGenerationStatus r) "in-progress") eqn:E2.
    { apply String.eqb_eq in E2.
      rewrite (pollLoop_in_progress env n config tok arn gid w r Hc Hr E2).
      destruct (IH (afterInProgress config arn gid r w)) as (k & j & Hj & Hk & Hcl & He & Hh).
      exists (S k), (S j). split; [lia|]. split; [lia|]. split.
      { rewrite Hcl. cbn. rewrite <- app_assoc. reflexivity. }
      split; [|exact Hh].
      rewrite He. cbn [elapsed afterInProgress recordDelay recordLog advance recordCall].
      lia. }
    apply String.eqb_neq in E1, E2.
    rewrite (pollLoop_stopped env n config tok arn gid w r Hc Hr E1 E2).
    exists 1, 0. cbn. rewrite Z.add_0_r. repeat split; auto with arith.
    eexists. reflexivity.
Qed.

End PollingInvariants.

(** X3.  Whatever the invoker, the token and the file system answer,
    [generateCode] makes at most 60 remote calls and every one of them is
    the status fetch of its generation; it sleeps ten seconds after some of
    them only, so at most 600 seconds in all. *)
Theorem generateCode_is_bounded (env : Env) (config : SessionStateConfig)
    (tok : CancellationTokenSource) (arn gid : string) (w : World) :
  exists k j,
    j <= k /\ k <= 60
    /\ calls (snd (generateCode env config tok arn gid w))
       = calls w ++ repeat (statusFetch config arn gid) k
    /\ elapsed (snd (generateCode env config tok arn gid w))
       = (elapsed w + 10000 * Z.of_nat j)%Z
    /\ (elapsed (snd (generateCode env config tok arn gid w)) <= elapsed w + 600000)%Z.
Proof.
  destruct (pollLoop_invariants env config tok arn gid pollCount w)
    as (k & j & Hj & Hk & Hc & He & _).
  exists k, j. unfold generateCode. unfold pollCount in Hk.
  repeat split; try assumption. rewrite He. lia.
Qed.

(** X4.  Whatever the environment answers, [generateCode] fires exactly one
    interaction list when it returns and none when it throws. *)
Theorem generateCode_fires_once (env : Env) (config : SessionStateConfig)
    (tok : CancellationTokenSource) (arn gid : string) (w : World) :
  match generateCode env config tok arn gid w with
  | (Normal _, w') => exists l, history w' = history w ++ [l]
  | (Throw _, w') => history w' = history w
  end.
Proof.
  destruct (pollLoop_invariants env config tok arn gid pollCount w)
    as (k & j & _ & _ & _ & _ & Hh).
  exact Hh.
Qed.

Section PollingRuns.

Variable env : Env.
Variable config : SessionStateConfig.
Variable tok : CancellationTokenSource.
Variables arn gid : string.

(** The world after [k] iterations that found the generation in progress. *)
Lemma pollLoop_after_in_progress (k : nat) :
  forall n w, inProgressUntil env tok (statusFetch config arn gid) w k ->
    exists wk,
      pollLoop env (k + n) config tok arn gid w = pollLoop env n config tok arn gid wk
      /\ tick wk = tick w + 2 * k
      /\ calls wk = calls w ++ repeat (statusFetch config arn gid) k
      /\ history wk = history w
      /\ nextToken wk = nextToken w
      /\ registered wk = registered w
      /\ elapsed wk = (elapsed w + 10000 * Z.of_nat k)%Z.
Proof.
  induction k as [|k IH]; intros n w H.
  - exists w. cbn [repeat Nat.add]. rewrite app_nil_r.
    repeat split; auto; lia.
  - destruct (H 0) as (Hc & r & Hr & Hs); [lia|].
    rewrite Nat.mul_0_r, Nat.add_0_r in Hc.
    rewrite Nat.mul_0_r, Nat.add_0_r, Nat.add_1_r in Hr.
    change (S k + n) with (S (k + n)).
    rewrite (pollLoop_in_progress env (k + n) config tok arn gid w r Hc Hr Hs).
    destruct (IH n (afterInProgress config arn gid r w))
      as (wk & Hrun & Ht & Hcalls & Hh & Hn & Hreg & He).
    { intros j Hj. destruct (H (S j)) as (Hc' & r' & Hr' & Hs'); [lia|].
      cbn [tick afterInProgress recordDelay recordLog advance recordCall].
      replace (S (S (tick w)) + 2 * j) with (tick w + 2 * S j) by lia.
      split; [exact Hc'|]. exists r'. split; [exact Hr'|exact Hs']. }
    exists wk. split; [exact Hrun|].
    cbn [tick elapsed afterInProgress recordDelay recordLog advance recordCall] in Ht, He.
    split; [lia|]. split.
    { rewrite Hcalls. cbn. rewrite <- app_assoc. reflexivity. }
    split; [exact Hh|]. split; [exact Hn|]. split; [exact Hreg|]. lia.
Qed.

End PollingRuns.

(** X5.  Cancellation is only looked at before an attempt, and it ends the
    cycle by the timeout exit: when the token is found cancelled after [k]
    fetches that reported [in-progress] (k < 60; k = 0 is a token cancelled
    from the start, and then no remote call is made at all), [generateCode]
    makes no further fetch, emits the same message as for a timeout and
    returns no files. *)
Theorem generateCode_cancelled (env : Env) (config : SessionStateConfig)
    (tok : CancellationTokenSource) (arn gid : string) (w : World) (k : nat) :
  k < pollCount ->
  inProgressUntil env tok (statusFetch config arn gid) w k ->
  isCancellationRequested env tok (tick w + 2 * k) = true ->
  exists w',
    generateCode env config tok arn gid w = (Normal [], w')
    /\ calls w' = calls w ++ repeat (statusFetch config arn gid) k
    /\ history w' = history w ++ [[aiMessage timeoutText]]
    /\ registered w' = registered w
    /\ elapsed w' = (elapsed w + 10000 * Z.of_nat k)%Z.
Proof.
  intros Hk Hrun Hc. unfold generateCode.
  replace pollCount with (k + S (pollCount - S k)) by lia.
  destruct (pollLoop_after_in_progress env config tok arn gid k (S (pollCount - S k)) w Hrun)
    as (wk & Heq & Ht & Hcalls & Hh & _ & Hreg & He).
  rewrite Heq. rewrite <- Ht in Hc.
  rewrite (pollLoop_cancelled env _ config tok arn gid wk Hc).
  eexists. split; [reflexivity|]. cbn. rewrite Hcalls, Hh, Hreg, He.
  repeat split.
Qed.

Lemma generateCode_cancelled_witness :
  exists w',
    generateCode (withCancellation (fun _ _ => true) plainEnv)
      sampleConfig 0 (getResultsArn sampleConfig) "generation-1" emptyWorld
    = (Normal [], w')
    /\ calls w' = []
    /\ history w' = [[aiMessage timeoutText]].
Proof.
  destruct (generateCode_cancelled (withCancellation (fun _ _ => true) plainEnv)
              sampleConfig 0 (getResultsArn sampleConfig) "generation-1" emptyWorld 0)
    as (w' & Hrun & Hc & Hh & _).
  - unfold pollCount. lia.
  - intros j Hj. lia.
  - reflexivity.
  - exists w'. split; [exact Hrun|]. split; [exact Hc|exact Hh].
Defined.

(** X6.  When a fetch reports [ready] after [k] fetches that reported
    [in-progress] (k < 60) and every registration succeeds, [generateCode]
    returns the files of the answer, having made [k + 1] fetches and slept
    [k] times ten seconds; it registers each file in order and fires the
    summary of exactly their paths. *)
Theorem generateCode_ready (env : Env) (config : SessionStateConfig)
    (tok : CancellationTokenSource) (arn gid : string) (w : World) (k : nat)
    (r : GetCodeGenerationResultOutput) (mk : string -> Uri) :
  k < pollCount ->
  inProgressUntil env tok (statusFetch config arn gid) w k ->
  isCancellationRequested env tok (tick w + 2 * k) = false ->
  invokeGetResult env (tick w + 2 * k + 1) (statusFetch config arn gid) = Normal r ->
  codeGenerationStatus r = "ready" ->
  (forall p, uriFrom env (weaverbirdScheme env) p = Normal (mk p)) ->
  (forall t u c, registerProviderOutcome env t u c = Normal tt) ->
  exists w',
    generateCode env config tok arn gid w = (Normal (resultFiles r), w')
    /\ calls w' = calls w ++ repeat (statusFetch config arn gid) (S k)
    /\ history w' = history w ++ [changesSummary (paths (resultFiles r))]
    /\ registered w' = registered w ++ map (providerOf mk) (resultFiles r)
    /\ elapsed w' = (elapsed w + 10000 * Z.of_nat k)%Z.
Proof.
  intros Hk Hrun Hc Hr Hs Hu Hreg. unfold generateCode.
  replace pollCount with (k + S (pollCount - S k)) by lia.
  destruct (pollLoop_after_in_progress env config tok arn gid k (S (pollCount - S k)) w Hrun)
    as (wk & Heq & Ht & Hcalls & Hh & _ & Hrg & He).
  rewrite Heq. rewrite <- Ht in Hc, Hr. rewrite Nat.add_1_r in Hr.
  rewrite (pollLoop_ready env config tok arn gid _ wk r Hc Hr Hs).
  unfold createChanges. unfold bind.
  rewrite (registerAll_succeeds env mk Hu (resultFiles r) [] _ (fun i f _ => Hreg _ _ _)).
  eexists. split; [reflexivity|]. cbn. rewrite Hcalls, Hh, Hrg, He.
  split; [|repeat split].
  rewrite <- app_assoc. f_equal. cbn [repeat]. symmetry. apply repeat_cons.
Qed.

Lemma generateCode_ready_witness :
  exists w',
    generateCode
      (sampleEnv started
         (fun t => if Nat.ltb t 3 then pollStatus "in-progress" None
                   else pollStatus "ready" (Some [mkFile "a.txt" "1"; mkFile "b.txt" "2"]))
         (Normal false))
      sampleConfig 0 (getResultsArn sampleConfig) "generation-1" emptyWorld
    = (Normal [mkFile "a.txt" "1"; mkFile "b.txt" "2"], w')
    /\ List.length (calls w') = 2
    /\ history w' = [changesSummary ["a.txt"; "b.txt"]]
    /\ elapsed w' = 10000%Z.
Proof.
  destruct (generateCode_ready
              (sampleEnv started
                 (fun t => if Nat.ltb t 3 then pollStatus "in-progress" None
                           else pollStatus "ready"
                                  (Some [mkFile "a.txt" "1"; mkFile "b.txt" "2"]))
                 (Normal false))
              sampleConfig 0 (getResultsArn sampleConfig) "generation-1" emptyWorld 1
              {| codeGenerationStatus := "ready";
                 result := Some {| newFileContents :=
                                     Some [mkFile "a.txt" "1"; mkFile "b.txt" "2"] |} |}
              (fun p => {| scheme := "weaverbird"; path := p |}))
    as (w' & Hrun & Hc & Hh & _ & He).
  - unfold pollCount. lia.
  - intros j Hj. split; [reflexivity|].
    destruct j as [|j]; [eexists; split; reflexivity|lia].
  - reflexivity.
  - reflexivity.
  - reflexivity.
  - intros p. reflexivity.
  - intros t u c. reflexivity.
  - exists w'. split; [exact Hrun|]. split; [rewrite Hc; reflexivity|].
    split; [exact Hh|exact He].
Defined.

(** X7.  A [ready] answer that carries no result, or a result without
    files, is a generation of no files, at whichever fetch of the cycle it
    comes: after [k] fetches that reported [in-progress] (k < 60),
    [generateCode] returns the empty list, registers nothing and fires the
    summary of no paths, whatever the file system would answer. *)
Theorem generateCode_ready_without_files (env : Env) (config : SessionStateConfig)
    (tok : CancellationTokenSource) (arn gid : string) (w : World) (k : nat)
    (r : GetCodeGenerationResultOutput) :
  k < pollCount ->
  inProgressUntil env tok (statusFetch config arn gid) w k ->
  isCancellationRequested env tok (tick w + 2 * k) = false ->
  invokeGetResult env (tick w + 2 * k + 1) (statusFetch config arn gid) = Normal r ->
  codeGenerationStatus r = "ready" ->
  result r = None \/ result r = Some {| newFileContents := None |} ->
  exists w',
    generateCode env config tok arn gid w = (Normal [], w')
    /\ history w' = history w ++ [changesSummary []]
    /\ registered w' = registered w
    /\ calls w' = calls w ++ repeat (statusFetch config arn gid) (S k)
    /\ elapsed w' = (elapsed w + 10000 * Z.of_nat k)%Z.
Proof.
  intros Hk Hrun Hc Hr Hs Hres. unfold generateCode.
  replace pollCount with (k + S (pollCount - S k)) by lia.
  destruct (pollLoop_after_in_progress env config tok arn gid k (S (pollCount - S k)) w Hrun)
    as (wk & Heq & Ht & Hcalls & Hh & _ & Hrg & He).
  rewrite Heq. rewrite <- Ht in Hc, Hr. rewrite Nat.add_1_r in Hr.
  rewrite (pollLoop_ready env config tok arn gid _ wk r Hc Hr Hs).
  assert (resultFiles r = []) as E.
  { unfold resultFiles. destruct Hres as [-> | ->]; reflexivity. }
  rewrite E. eexists. split; [reflexivity|]. cbn. rewrite Hcalls, Hh, Hrg, He.
  split; [reflexivity|]. split; [reflexivity|]. split; [|reflexivity].
  rewrite <- app_assoc. f_equal. cbn [repeat]. symmetry. apply repeat_cons.
Qed.

Lemma generateCode_ready_without_files_witness :
  exists w',
    generateCode
      (sampleEnv started
         (fun t => if Nat.ltb t 5 then pollStatus "in-progress" None
                   else pollStatus "ready" None)
         (Normal false))
      sampleConfig 0 (getResultsArn sampleConfig) "generation-1" emptyWorld
    = (Normal [], w')
    /\ history w' = [changesSummary []]
    /\ List.length (calls w') = 3.
Proof.
  destruct (generateCode_ready_without_files
              (sampleEnv started
                 (fun t => if Nat.ltb t 5 then pollStatus "in-progress" None
                           else pollStatus "ready" None)
                 (Normal false))
              sampleConfig 0 (getResultsArn sampleConfig) "generation-1" emptyWorld 2
              {| codeGenerationStatus := "ready"; result := None |})
    as (w' & Hrun & Hh & _ & Hc & _).
  - unfold pollCount. lia.
  - intros j Hj. split; [reflexivity|].
    destruct j as [|[|j]]; [eexists; split; reflexivity..|lia].
  - reflexivity.
  - reflexivity.
  - reflexivity.
  - left. reflexivity.
  - exists w'. split; [exact Hrun|]. split; [exact Hh|]. rewrite Hc. reflexivity.
Defined.


(** ** The code-generation states in any environment *)

Section CodeGenAnyEnvironment.

Variable env : Env.
Variable config : SessionStateConfig.
Variable approach : string.
Variable tok : CancellationTokenSource.
Variable action : SessionStateAction.

(** The world in which the polling cycle of [CodeGenIterationState.interact]
    starts. *)
Definition iterationStart (newFiles : list FileMetadata) (w : World) : World :=
  recordFire codegenStarted
    (advance (recordCall (iterationRequest config approach newFiles action) w)).

Lemma CodeGenIterationState_interact_throws (newFiles : list FileMetadata)
    (w : World) (e : JsError) :
  invokeGenerateCode env (tick w) (iterationRequest config approach newFiles action)
  = Throw e ->
  CodeGenIterationState_interact env config approach tok newFiles action w
  = (Throw e, advance (recordCall (iterationRequest config approach newFiles action) w)).
Proof.
  intros H. unfold CodeGenIterationState_interact. unfold bind at 1, invoke.
  fold (iterationRequest config approach newFiles action). rewrite H. reflexivity.
Qed.

Lemma CodeGenIterationState_interact_started (newFiles : list FileMetadata)
    (w : World) (resp : GenerateCodeOutput) :
  invokeGenerateCode env (tick w) (iterationRequest config approach newFiles action)
  = Normal resp ->
  CodeGenIterationState_interact env config approach tok newFiles action w
  = match generateCode env config tok (getResultsArn config) (generationId resp)
            (iterationStart newFiles w) with
    | (Normal newFiles', w1) =>
        (Normal {| nextState := CodeGenIterationState config approach tok newFiles';
                   interactions := [aiMessage "Changes to files done"] |}, w1)
    | (Throw _, w1) =>
        (Normal {| nextState := CodeGenIterationState config approach tok [];
                   interactions := [aiMessage "Changes to files done"] |},
         recordLog (LogError "Failed to generate code") w1)
    end.
Proof.
  intros H. unfold CodeGenIterationState_interact. unfold bind at 1, invoke.
  fold (iterationRequest config approach newFiles action). rewrite H.
  unfold bind at 1, fire. unfold bind at 1, catch.
  fold (getResultsArn config). fold (iterationStart newFiles w).
  destruct (generateCode env config tok (getResultsArn config) (generationId resp)
              (iterationStart newFiles w)) as [[nf|e] w1]; reflexivity.
Qed.

End CodeGenAnyEnvironment.

(** X8.  Once the call that initiates code generation has answered,
    [CodeGenState.interact] returns normally whatever happens afterwards
    (a failing fetch, a failing registration, a timeout): the next state is
    a [CodeGenIterationState] with the same configuration and approach and
    a fresh token source, the returned interaction list is empty, at most
    60 status fetches follow the initiating call, and the history receives
    the generation-started message followed by at most one more list. *)
Theorem CodeGenState_interact_recovers (env : Env) (config : SessionStateConfig)
    (approach : string) (tok : CancellationTokenSource)
    (action : SessionStateAction) (w : World) (resp : GenerateCodeOutput) :
  invokeGenerateCode env (tick w) (generateRequest config approach action) = Normal resp ->
  exists newFiles w' k rest,
    CodeGenState_interact env config approach tok action w
    = (Normal {| nextState := CodeGenIterationState config approach (nextToken w) newFiles;
                 interactions := [] |}, w')
    /\ nextToken w' = S (nextToken w)
    /\ k <= 60
    /\ calls w' = calls w ++ generateRequest config approach action
                    :: repeat (statusFetch config (getResultsArn config) (generationId resp)) k
    /\ history w' = history w ++ codegenStarted :: rest
    /\ List.length rest <= 1.
Proof.
  intros Hgen.
  rewrite (CodeGenState_interact_started env config approach tok action w resp Hgen).
  unfold generateCode.
  destruct (pollLoop_invariants env config tok (getResultsArn config) (generationId resp)
              pollCount (pollingStart config approach action w))
    as (k & j & _ & Hk & Hc & _ & Hh).
  destruct (pollLoop_frame env config tok (getResultsArn config) (generationId resp)
              pollCount (pollingStart config approach action w)) as [Ht _].
  destruct (pollLoop env pollCount config tok (getResultsArn config) (generationId resp)
              (pollingStart config approach action w)) as [[nf|e] w1];
    cbn [snd] in Hc, Ht; cbn [nextToken pollingStart recordFire advance recordCall] in Ht.
  - destruct Hh as [l Hh]. exists nf, (allocToken w1), k, [l].
    rewrite Ht. split; [reflexivity|]. cbn [nextToken allocToken calls history].
    rewrite Ht, Hc, Hh. cbn. rewrite <- !app_assoc. repeat split; auto.
  - exists [], (allocToken (recordLog (LogError "Failed to generate code") w1)), k, [].
    rewrite Ht. split; [reflexivity|].
    cbn [nextToken allocToken recordLog calls history].
    rewrite Ht, Hc, Hh. cbn. rewrite <- !app_assoc. repeat split; auto.
Qed.

Lemma CodeGenState_interact_recovers_witness :
  exists w',
    CodeGenState_interact
      (withRegistration (fun _ _ _ => Throw diskFull) plainEnv)
      sampleConfig "plan" 7 (sampleAction None) emptyWorld
    = (Normal {| nextState := CodeGenIterationState sampleConfig "plan" 0 [];
                 interactions := [] |}, w')
    /\ history w' = [codegenStarted].
Proof.
  destruct (CodeGenState_interact_recovers
              (withRegistration (fun _ _ _ => Throw diskFull) plainEnv)
              sampleConfig "plan" 7 (sampleAction None) emptyWorld
              {| generationId := "generation-1" |} eq_refl)
    as (nf & w' & k & rest & Hrun & _).
  exists w'. pose proof Hrun as Hval. vm_compute in Hval.
  injection Hval as Hnf Hw. rewrite Hnf. split; [exact Hrun|].
  rewrite <- Hw. reflexivity.
Defined.

(** X9.  [CodeGenIterationState.interact] is a self-loop.  When its
    initiating call throws, the error propagates and nothing is fired.
    When it answers, [interact] returns normally the same state object:
    the same configuration, approach and token source (no token source is
    created), holding the files of this cycle, with the single message
    ["Changes to files done"]; the polling cycle adds at most 60 fetches. *)
Theorem CodeGenIterationState_interact_self_loop (env : Env)
    (config : SessionStateConfig) (approach : string) (tok : CancellationTokenSource)
    (held : list FileMetadata) (action : SessionStateAction) (w : World) :
  (forall e,
      invokeGenerateCode env (tick w) (iterationRequest config approach held action)
      = Throw e ->
      exists w',
        CodeGenIterationState_interact env config approach tok held action w = (Throw e, w')
        /\ history w' = history w)
  /\ (forall resp,
        invokeGenerateCode env (tick w) (iterationRequest config approach held action)
        = Normal resp ->
        exists newFiles w' k,
          CodeGenIterationState_interact env config approach tok held action w
          = (Normal {| nextState := CodeGenIterationState config approach tok newFiles;
                       interactions := [aiMessage "Changes to files done"] |}, w')
          /\ nextToken w' = nextToken w
          /\ k <= 60
          /\ calls w' = calls w ++ iterationRequest config approach held action
                          :: repeat (statusFetch config (getResultsArn config)
                                       (generationId resp)) k).
Proof.
  split.
  - intros e H.
    rewrite (CodeGenIterationState_interact_throws env config approach tok action held w e H).
    eexists. split; reflexivity.
  - intros resp H.
    rewrite (CodeGenIterationState_interact_started env config approach tok action held w
               resp H).
    unfold generateCode.
    destruct (pollLoop_invariants env config tok (getResultsArn config) (generationId resp)
                pollCount (iterationStart config approach action held w))
      as (k & j & _ & Hk & Hc & _ & _).
    destruct (pollLoop_frame env config tok (getResultsArn config) (generationId resp)
                pollCount (iterationStart config approach action held w)) as [Ht _].
    destruct (pollLoop env pollCount config tok (getResultsArn config) (generationId resp)
                (iterationStart config approach action held w)) as [[nf|e] w1];
      cbn [snd] in Hc, Ht; cbn [nextToken iterationStart recordFire advance recordCall] in Ht.
    + exists nf, w1, k. split; [reflexivity|]. split; [exact Ht|]. split; [exact Hk|].
      rewrite Hc. cbn. rewrite <- app_assoc. reflexivity.
    + exists [], (recordLog (LogError "Failed to generate code") w1), k.
      split; [reflexivity|]. split; [exact Ht|]. split; [exact Hk|].
      cbn [calls recordLog]. rewrite Hc. cbn. rewrite <- app_assoc. reflexivity.
Qed.

Lemma CodeGenIterationState_interact_self_loop_witness :
  exists w',
    CodeGenIterationState_interact plainEnv sampleConfig "plan" 7 [mkFile "old.txt" "0"]
      (sampleAction None) emptyWorld
    = (Normal {| nextState := CodeGenIterationState sampleConfig "plan" 7
                                [mkFile "a.txt" "1"];
                 interactions := [aiMessage "Changes to files done"] |}, w')
    /\ nextToken w' = 0.
Proof.
  destruct (proj2 (CodeGenIterationState_interact_self_loop plainEnv sampleConfig "plan" 7
                     [mkFile "old.txt" "0"] (sampleAction None) emptyWorld)
              {| generationId := "generation-1" |} eq_refl)
    as (nf & w' & k & Hrun & Ht & _).
  exists w'. pose proof Hrun as Hval. vm_compute in Hval.
  injection Hval as Hnf Hw. rewrite Hnf. split; [exact Hrun|exact Ht].
Defined.

(** X10.  A cycle that does not end in [ready] empties the state: when the
    first fetch of an iteration reports a status other than [ready] and
    [in-progress], the [CodeGenIterationState] returned holds no files,
    whatever files it held before; those were only sent in the request. *)
Theorem CodeGenIterationState_failure_drops_files (env : Env)
    (config : SessionStateConfig) (approach : string) (tok : CancellationTokenSource)
    (held : list FileMetadata) (action : SessionStateAction) (w : World)
    (resp : GenerateCodeOutput) (r : GetCodeGenerationResultOutput) :
  invokeGenerateCode env (tick w) (iterationRequest config approach held action)
  = Normal resp ->
  isCancellationRequested env tok (S (tick w)) = false ->
  invokeGetResult env (S (S (tick w)))
    (statusFetch config (getResultsArn config) (generationId resp)) = Normal r ->
  codeGenerationStatus r <> "ready" ->
  codeGenerationStatus r <> "in-progress" ->
  exists w',
    CodeGenIterationState_interact env config approach tok held action w
    = (Normal {| nextState := CodeGenIterationState config approach tok [];
                 interactions := [aiMessage "Changes to files done"] |}, w')
    /\ history w' = history w ++ [codegenStarted;
                                  [aiMessage (diagnostic (codeGenerationStatus r))]]
    /\ registered w' = registered w.
Proof.
  intros Hgen Hc Hr Hs1 Hs2.
  rewrite (CodeGenIterationState_interact_started env config approach tok action held w
             resp Hgen).
  unfold generateCode, pollCount.
  rewrite (pollLoop_stopped env 59 config tok (getResultsArn config) (generationId resp)
             (iterationStart config approach action held w) r Hc Hr Hs1 Hs2).
  eexists. split; [reflexivity|]. cbn. rewrite <- app_assoc. split; reflexivity.
Qed.

Lemma CodeGenIterationState_failure_drops_files_witness :
  exists w',
    CodeGenIterationState_interact
      (sampleEnv started (fun _ => pollStatus "failed" None) (Normal false))
      sampleConfig "plan" 7 [mkFile "old.txt" "0"] (sampleAction None) emptyWorld
    = (Normal {| nextState := CodeGenIterationState sampleConfig "plan" 7 [];
                 interactions := [aiMessage "Changes to files done"] |}, w').
Proof.
  destruct (CodeGenIterationState_failure_drops_files
              (sampleEnv started (fun _ => pollStatus "failed" None) (Normal false))
              sampleConfig "plan" 7 [mkFile "old.txt" "0"] (sampleAction None) emptyWorld
              {| generationId := "generation-1" |}
              {| codeGenerationStatus := "failed"; result := None |}
              eq_refl eq_refl eq_refl)
    as (w' & Hrun & _).
  - discriminate.
  - discriminate.
  - exists w'. exact Hrun.
Defined.

(** ** MockCodeGenState.interact on an existing directory *)

(** The file [MockCodeGenState.interact] reports for a collected file. *)
Definition stripMockData (f : FileMetadata) : FileMetadata :=
  {| filePath := JsString.replace (filePath f) "mock-data/" EmptyString;
     fileContent := fileContent f |}.

Section Replace.

Import JsString.

Lemma replace_at_head (pat s rep : string) :
  String.prefix pat s = true ->
  replace s pat rep = (rep ++ drop (String.length pat) s)%string.
Proof.
  intros H. destruct s; cbn [replace]; rewrite H; reflexivity.
Qed.

Lemma drop_app (pat s : string) : drop (String.length pat) (pat ++ s) = s.
Proof.
  induction pat as [|c pat IH]; [destruct s; reflexivity|exact IH].
Qed.

Lemma replace_prefix (pat s rep : string) :
  replace (pat ++ s) pat rep = (rep ++ s)%string.
Proof.
  rewrite replace_at_head by apply prefix_app. now rewrite drop_app.
Qed.

Lemma replace_absent (pat s rep : string) :
  ~ occursIn pat s -> replace s pat rep = s.
Proof.
  induction s as [|c s IH]; intros H; cbn [replace].
  - destruct (String.prefix pat EmptyString) eqn:E; [|reflexivity].
    exfalso. apply H. destruct (prefix_split _ _ E) as [suf Hs].
    exists EmptyString, suf. exact Hs.
  - destruct (String.prefix pat (String c s)) eqn:E.
    + exfalso. apply H. destruct (prefix_split _ _ E) as [suf Hs].
      exists EmptyString, suf. exact Hs.
    + rewrite IH; [reflexivity|].
      intros (pre & suf & Hs). apply H. exists (String c pre), suf. rewrite Hs. reflexivity.
Qed.

End Replace.

Section MockCodeGen.

Variable env : Env.
Variable config : SessionStateConfig.
Variable approach : string.
Variable tok : CancellationTokenSource.
Variable action : SessionStateAction.

(** With the directory present and read, [interact] is [createChanges] on
    the stripped files, after the next state has been constructed. *)
Lemma MockCodeGenState_interact_collected (w : World) (fs : list FileMetadata) :
  statOutcome env (tick w) (mockedFilesDir env config) = Normal true ->
  collectFilesOutcome env (S (tick w)) (mockedFilesDir env config) = Normal fs ->
  MockCodeGenState_interact env config approach tok action w
  = match createChanges env (map stripMockData fs)
            (allocToken (advance (advance w))) with
    | (Normal changes, w') =>
        (Normal {| nextState := CodeGenIterationState config approach (nextToken w)
                                  (map stripMockData fs);
                   interactions := changes |}, w')
    | (Throw e, w') => (Throw e, w')
    end.
Proof.
  intros Hs Hc. unfold MockCodeGenState_interact. fold (mockedFilesDir env config).
  unfold bind at 1, catch. unfold bind at 1, stat. rewrite Hs.
  unfold bind at 1, collectFiles. cbn [tick advance]. rewrite Hc.
  unfold ret at 1. unfold bind at 1, new_CodeGenIterationState.
  unfold bind at 1, newTokenSource. unfold ret at 1.
  cbn [nextToken advance]. unfold bind at 1.
  fold stripMockData.
  destruct (createChanges env (map stripMockData fs) (allocToken (advance (advance w))))
    as [[ch|e] w']; reflexivity.
Qed.

End MockCodeGen.

(** X11.  When the mock-data directory exists, is read and every
    registration succeeds, [MockCodeGenState.interact] returns a
    [CodeGenIterationState] holding the collected files with
    ["mock-data/"] removed from their paths and their contents unchanged,
    registers them in order, and returns (rather than fires) the summary of
    their paths; it makes no remote call. *)
Theorem MockCodeGenState_interact_materializes (env : Env)
    (config : SessionStateConfig) (approach : string) (tok : CancellationTokenSource)
    (action : SessionStateAction) (w : World) (fs : list FileMetadata)
    (mk : string -> Uri) :
  statOutcome env (tick w) (mockedFilesDir env config) = Normal true ->
  collectFilesOutcome env (S (tick w)) (mockedFilesDir env config) = Normal fs ->
  (forall p, uriFrom env (weaverbirdScheme env) p = Normal (mk p)) ->
  (forall t u c, registerProviderOutcome env t u c = Normal tt) ->
  exists w',
    MockCodeGenState_interact env config approach tok action w
    = (Normal {| nextState := CodeGenIterationState config approach (nextToken w)
                                (map stripMockData fs);
                 interactions := changesSummary (paths (map stripMockData fs)) |}, w')
    /\ map fileContent (map stripMockData fs) = map fileContent fs
    /\ registered w' = registered w ++ map (providerOf mk) (map stripMockData fs)
    /\ calls w' = calls w
    /\ history w' = history w.
Proof.
  intros Hs Hc Hu Hr.
  rewrite (MockCodeGenState_interact_collected env config approach tok action w fs Hs Hc).
  unfold createChanges, bind.
  rewrite (registerAll_succeeds env mk Hu (map stripMockData fs) [] _
             (fun i f _ => Hr _ _ _)).
  eexists. split; [reflexivity|]. split.
  { rewrite map_map. reflexivity. }
  repeat split.
Qed.

Lemma MockCodeGenState_interact_materializes_witness :
  exists w',
    MockCodeGenState_interact plainEnv sampleConfig "plan" 0 (sampleAction None) emptyWorld
    = (Normal {| nextState := CodeGenIterationState sampleConfig "plan" 0
                                [mkFile "a.txt" "1"];
                 interactions := changesSummary ["a.txt"] |}, w')
    /\ calls w' = [].
Proof.
  destruct (MockCodeGenState_interact_materializes plainEnv sampleConfig "plan" 0
              (sampleAction None) emptyWorld [mkFile "mock-data/a.txt" "1"]
              (fun p => {| scheme := "weaverbird"; path := p |})
              eq_refl eq_refl (fun p => eq_refl) (fun t u c => eq_refl))
    as (w' & Hrun & _ & _ & Hc & _).
  exists w'. split; [exact Hrun|exact Hc].
Defined.

(** X12.  Unlike [CodeGenState.interact], [MockCodeGenState.interact] does
    not catch a failing registration: [createChanges] runs outside its
    [try] block, so the error propagates, no next state is returned, and
    the files registered before the failure stay registered. *)
Theorem MockCodeGenState_interact_registration_failure (env : Env)
    (config : SessionStateConfig) (approach : string) (tok : CancellationTokenSource)
    (action : SessionStateAction) (w : World)
    (fs done : list FileMetadata) (f : FileMetadata) (rest : list FileMetadata)
    (mk : string -> Uri) (e : JsError) :
  statOutcome env (tick w) (mockedFilesDir env config) = Normal true ->
  collectFilesOutcome env (S (tick w)) (mockedFilesDir env config) = Normal fs ->
  map stripMockData fs = done ++ f :: rest ->
  (forall p, uriFrom env (weaverbirdScheme env) p = Normal (mk p)) ->
  (forall i g, nth_error done i = Some g ->
     registerProviderOutcome env (tick w + 2 + i) (mk (filePath g)) (fileContent g)
     = Normal tt) ->
  registerProviderOutcome env (tick w + 2 + List.length done) (mk (filePath f))
    (fileContent f) = Throw e ->
  exists w',
    MockCodeGenState_interact env config approach tok action w = (Throw e, w')
    /\ registered w' = registered w ++ map (providerOf mk) done.
Proof.
  intros Hs Hc Hsplit Hu Hd He.
  rewrite (MockCodeGenState_interact_collected env config approach tok action w fs Hs Hc).
  rewrite Hsplit. unfold createChanges, bind.
  rewrite (registerAll_fails env mk Hu done f rest e [] (allocToken (advance (advance w)))).
  - eexists. split; reflexivity.
  - intros i g Hi. cbn [tick allocToken advance].
    replace (S (S (tick w)) + i) with (tick w + 2 + i) by lia. apply Hd. exact Hi.
  - cbn [tick allocToken advance].
    replace (S (S (tick w)) + List.length done) with (tick w + 2 + List.length done) by lia.
    exact He.
Qed.

Lemma MockCodeGenState_interact_registration_failure_witness :
  exists w',
    MockCodeGenState_interact (withRegistration (fun _ _ _ => Throw diskFull) plainEnv)
      sampleConfig "plan" 0 (sampleAction None) emptyWorld
    = (Throw diskFull, w').
Proof.
  destruct (MockCodeGenState_interact_registration_failure
              (withRegistration (fun _ _ _ => Throw diskFull) plainEnv)
              sampleConfig "plan" 0 (sampleAction None) emptyWorld
              [mkFile "mock-data/a.txt" "1"] [] (mkFile "a.txt" "1") []
              (fun p => {| scheme := "weaverbird"; path := p |}) diskFull
              eq_refl eq_refl eq_refl (fun p => eq_refl))
    as (w' & Hrun & _).
  - intros i g Hi. destruct i; discriminate.
  - reflexivity.
  - exists w'. exact Hrun.
Defined.

Lemma length_append (a b : string) :
  String.length (a ++ b) = String.length a + String.length b.
Proof.
  induction a as [|c a IH]; [reflexivity|]. cbn. now rewrite IH.
Qed.

Lemma string_app_assoc (a b c : string) :
  ((a ++ b) ++ c = a ++ b ++ c)%string.
Proof.
  induction a as [|x a IH]; [reflexivity|]. cbn. now rewrite IH.
Qed.

(** Two splits of one string: the shorter left part is a prefix of the
    longer one. *)
Lemma app_split (a b x y : string) :
  (a ++ x = b ++ y)%string ->
  String.length a <= String.length b ->
  exists d, b = (a ++ d)%string /\ x = (d ++ y)%string.
Proof.
  revert b. induction a as [|c a IH]; intros b H Hl.
  - exists b. split; [reflexivity|exact H].
  - destruct b as [|c' b]; [cbn in Hl; lia|].
    cbn in H. injection H as <- H. cbn in Hl.
    destruct (IH b H) as (d & -> & ->); [lia|].
    exists d. split; reflexivity.
Qed.

(** The occurrence [String.prototype.replace] rewrites is the leftmost:
    no occurrence of the pattern starts before it. *)
Lemma replace_leftmost (pat s rep : string) :
  occursIn pat s ->
  exists pre suf,
    s = (pre ++ pat ++ suf)%string
    /\ JsString.replace s pat rep = (pre ++ rep ++ suf)%string
    /\ forall pre' suf', s = (pre' ++ pat ++ suf')%string ->
         String.length pre <= String.length pre'.
Proof.
  induction s as [|c s IH]; intros H.
  - destruct H as (pre & suf & Hs).
    destruct pre; [|discriminate]. destruct pat; [|discriminate].
    cbn in Hs. subst suf. exists EmptyString, EmptyString.
    split; [reflexivity|]. split; [reflexivity|]. intros; cbn; lia.
  - destruct (String.prefix pat (String c s)) eqn:E.
    + destruct (prefix_split _ _ E) as [suf Hs]. exists EmptyString, suf.
      split; [exact Hs|]. split; [rewrite Hs, replace_prefix; reflexivity|].
      intros; cbn; lia.
    + destruct H as (pre & suf & Hs). destruct pre as [|d pre].
      * cbn in Hs. rewrite Hs, prefix_app in E. discriminate.
      * injection Hs as <- Hs.
        destruct IH as (pre0 & suf0 & Hs0 & Hr & Hmin); [exists pre, suf; exact Hs|].
        exists (String c pre0), suf0. split; [rewrite Hs0; reflexivity|].
        split; [cbn [JsString.replace]; rewrite E, Hr; reflexivity|].
        intros pre' suf' Hs'. destruct pre' as [|d' pre'].
        -- cbn in Hs'. rewrite Hs', prefix_app in E. discriminate.
        -- injection Hs' as _ Hs'. cbn [String.length].
           apply le_n_S. apply (Hmin pre' suf'). exact Hs'.
Qed.

(** An occurrence of the pattern that no other occurrence starts before
    is the one replaced: if the pattern [ini ++ c] does not occur in what
    precedes its last character, the result is the string without it. *)
Lemma replace_before (ini : string) (c : ascii) (pre suf rep : string) :
  ~ occursIn (ini ++ String c EmptyString) (pre ++ ini) ->
  JsString.replace (pre ++ (ini ++ String c EmptyString) ++ suf)
    (ini ++ String c EmptyString) rep
  = (pre ++ rep ++ suf)%string.
Proof.
  intros Hfirst. set (pat := (ini ++ String c EmptyString)%string) in *.
  destruct (replace_leftmost pat (pre ++ pat ++ suf) rep) as (pre0 & suf0 & Hs & Hr & Hmin);
    [exists pre, suf; reflexivity|].
  pose proof (Hmin pre suf eq_refl) as Hle.
  destruct (app_split pre0 pre (pat ++ suf0) (pat ++ suf) (eq_sym Hs) Hle) as (d & Hpre & Hd).
  destruct d as [|x d].
  - cbn in Hd. rewrite Hr.
    assert (suf0 = suf) as ->.
    { clear - Hd. induction pat as [|y pat IH]; [exact Hd|].
      cbn in Hd. injection Hd as Hd. exact (IH Hd). }
    assert (pre0 = pre) as ->.
    { rewrite Hpre. clear. induction pre0 as [|y p IH]; [reflexivity|].
      cbn. now rewrite <- IH. }
    reflexivity.
  - exfalso. apply Hfirst.
    assert (String.length pat <= String.length (String x d ++ ini)) as Hlen.
    { unfold pat. rewrite !length_append. cbn. lia. }
    assert ((pat ++ suf0)%string
            = ((String x d ++ ini) ++ String c EmptyString ++ suf)%string) as Hd'.
    { rewrite Hd. unfold pat. rewrite !string_app_assoc. reflexivity. }
    destruct (app_split pat (String x d ++ ini) suf0 (String c EmptyString ++ suf) Hd' Hlen)
      as (e & He & _).
    exists pre0, e. rewrite Hpre, string_app_assoc, He. reflexivity.
Qed.

(** X13.  The path remapping of [MockCodeGenState.interact] removes one
    occurrence of ["mock-data/"], the first, wherever it is: a path that
    starts with it loses that prefix, a path that contains it further in
    loses its leftmost occurrence (no occurrence starts before the one
    removed, and what follows it, later occurrences included, is kept:
    [a/mock-data/b/mock-data/c] becomes [a/b/mock-data/c]), and a path
    without it is unchanged; the content is never touched. *)
Theorem stripMockData_removes_first_occurrence (f : FileMetadata) :
  fileContent (stripMockData f) = fileContent f
  /\ (forall p, filePath f = ("mock-data/" ++ p)%string -> filePath (stripMockData f) = p)
  /\ (~ occursIn "mock-data/" (filePath f) -> filePath (stripMockData f) = filePath f)
  /\ (occursIn "mock-data/" (filePath f) ->
      exists pre suf,
        filePath f = (pre ++ "mock-data/" ++ suf)%string
        /\ filePath (stripMockData f) = (pre ++ suf)%string
        /\ String.length (filePath (stripMockData f)) + 10 = String.length (filePath f)
        /\ (forall pre' suf', filePath f = (pre' ++ "mock-data/" ++ suf')%string ->
             String.length pre <= String.length pre'))
  /\ (forall pre suf,
        ~ occursIn "mock-data/" (pre ++ "mock-data")%string ->
        filePath f = (pre ++ "mock-data/" ++ suf)%string ->
        filePath (stripMockData f) = (pre ++ suf)%string)
  /\ stripMockData {| filePath := "a/mock-data/b/mock-data/c"; fileContent := fileContent f |}
     = {| filePath := "a/b/mock-data/c"; fileContent := fileContent f |}.
Proof.
  split; [reflexivity|]. split; [|split; [|split; [|split]]].
  - intros p Hp. cbn [stripMockData filePath]. rewrite Hp.
    apply (replace_prefix "mock-data/" p EmptyString).
  - intros H. apply replace_absent. exact H.
  - intros H. destruct (replace_leftmost "mock-data/" (filePath f) EmptyString H)
      as (pre & suf & Hs & Hr & Hmin).
    exists pre, suf. split; [exact Hs|]. split; [exact Hr|].
    split; [|exact Hmin].
    cbn [stripMockData filePath]. rewrite Hr, Hs.
    rewrite !length_append. cbn. lia.
  - intros pre suf Hfirst Hs. cbn [stripMockData filePath]. rewrite Hs.
    apply (replace_before "mock-data" "/"%char pre suf EmptyString). exact Hfirst.
  - reflexivity.
Qed.

(** ** The approach states *)

Section ApproachStates.

Variable env : Env.
Variable config : SessionStateConfig.
Variable approach : string.
Variable tok : CancellationTokenSource.
Variable action : SessionStateAction.

(** A message that holds neither directive (or no message at all). *)
Definition plainMessage (m : option string) : Prop :=
  forall s, m = Some s -> ~ occursIn "WRITE CODE" s /\ ~ occursIn "MOCK CODE" s.

Lemma plainMessage_iterates (w : World) :
  plainMessage (msg action) ->
  RefinementIterationState_interact env config approach tok action w
  = approachIteration env config approach action w.
Proof.
  intros H. unfold RefinementIterationState_interact.
  rewrite (containsDirective_absent (msg action) "WRITE CODE"),
          (containsDirective_absent (msg action) "MOCK CODE"); [reflexivity| |].
  - intros s Hs. exact (proj2 (H s Hs)).
  - intros s Hs. exact (proj1 (H s Hs)).
Qed.

Lemma mock_code_delegates (m : string) (w : World) :
  msg action = Some m -> ~ occursIn "WRITE CODE" m -> occursIn "MOCK CODE" m ->
  RefinementIterationState_interact env config approach tok action w
  = delegateToMockCodeGen env config approach action w.
Proof.
  intros Hm Hw Hk. unfold RefinementIterationState_interact.
  rewrite (containsDirective_absent (msg action) "WRITE CODE").
  - rewrite Hm. apply containsDirective_occurs in Hk; [|discriminate].
    rewrite Hk. reflexivity.
  - intros s Hs. rewrite Hm in Hs. injection Hs as <-. exact Hw.
Qed.

End ApproachStates.

(** X14.  On a message that holds neither directive, or with no message,
    when the approach-iteration call answers,
    [RefinementIterationState.interact] returns a new
    [RefinementIterationState] with the same configuration (so the same
    conversation id) and a fresh token source, carrying the answered
    approach (the fallback text when there is none), and one AI message
    with that text and a newline.  The request carries the current
    approach and the message, the empty string standing for no message. *)
Theorem RefinementIterationState_iterates (env : Env) (config : SessionStateConfig)
    (approach : string) (tok : CancellationTokenSource)
    (action : SessionStateAction) (w : World) (resp : IterateApproachOutput) :
  plainMessage (msg action) ->
  invokeIterateApproach env (tick w) (iterateRequest config approach action) = Normal resp ->
  let text := match ia_out_approach resp with
              | Some a => a
              | None => problemText
              end in
  exists w' payload,
    RefinementIterationState_interact env config approach tok action w
    = (Normal {| nextState := RefinementIterationState config text (nextToken w);
                 interactions := [aiMessage (text ++ newline)] |}, w')
    /\ calls w' = calls w ++ [iterateRequest config approach action]
    /\ inv_payload (iterateRequest config approach action) = IterateApproach payload
    /\ ia_approach payload = approach
    /\ ia_request payload = match msg action with
                            | Some m => m
                            | None => EmptyString
                            end
    /\ history w' = history w.
Proof.
  intros Hplain H text.
  rewrite (plainMessage_iterates env config approach tok action w Hplain).
  unfold approachIteration. unfold bind at 1, invoke.
  fold (iterateRequest config approach action). rewrite H.
  eexists. eexists. split; [reflexivity|]. repeat split.
Qed.

Lemma RefinementIterationState_iterates_witness :
  exists w',
    RefinementIterationState_interact
      (withApproach (fun _ _ => Throw transportFailure)
         (fun _ _ => Normal {| ia_out_approach := None |}) plainEnv)
      sampleConfig "plan" 0 (sampleAction None) emptyWorld
    = (Normal {| nextState := RefinementIterationState sampleConfig problemText 0;
                 interactions := [aiMessage (problemText ++ newline)] |}, w').
Proof.
  destruct (RefinementIterationState_iterates
              (withApproach (fun _ _ => Throw transportFailure)
                 (fun _ _ => Normal {| ia_out_approach := None |}) plainEnv)
              sampleConfig "plan" 0 (sampleAction None) emptyWorld
              {| ia_out_approach := None |})
    as (w' & p & Hrun & _).
  - intros s Hs. discriminate.
  - reflexivity.
  - exists w'. exact Hrun.
Defined.

(** X15.  A message in which ["MOCK CODE"] occurs and ["WRITE CODE"] does
    not makes [RefinementIterationState.interact] run [interact] of a
    freshly constructed [MockCodeGenState] on the same action; no remote
    call is made on that path. *)
Theorem RefinementIterationState_mock_directive (env : Env)
    (config : SessionStateConfig) (approach : string) (tok : CancellationTokenSource)
    (action : SessionStateAction) (w : World) (m : string) :
  msg action = Some m ->
  ~ occursIn "WRITE CODE" m ->
  occursIn "MOCK CODE" m ->
  RefinementIterationState_interact env config approach tok action w
  = (s <- new_MockCodeGenState config approach ;; interact env s action) w
  /\ calls (snd (RefinementIterationState_interact env config approach tok action w))
     = calls w.
Proof.
  intros Hm Hw Hk.
  pose proof (mock_code_delegates env config approach tok action m w Hm Hw Hk) as E.
  split; [exact E|]. rewrite E. apply delegateToMockCodeGen_calls.
Qed.

Lemma RefinementIterationState_mock_directive_witness :
  calls (snd (RefinementIterationState_interact plainEnv sampleConfig "plan" 0
                (sampleAction (Some "MOCK CODE please")) emptyWorld))
  = [].
Proof.
  assert (~ occursIn "WRITE CODE" "MOCK CODE please") as Hw.
  { intros H. apply containsDirective_occurs in H; [|discriminate].
    vm_compute in H. discriminate. }
  apply (proj2 (RefinementIterationState_mock_directive plainEnv sampleConfig "plan" 0
                  (sampleAction (Some "MOCK CODE please")) emptyWorld
                  "MOCK CODE please" eq_refl Hw
                  (ex_intro _ EmptyString (ex_intro _ " please" eq_refl)))).
Defined.

(** X16.  Neither approach state guards its remote call: when the
    approach-generation call of [RefinementState.interact], or the
    approach-iteration call of [RefinementIterationState.interact] on a
    message without directive, throws, [interact] throws that error; no
    next state is constructed (no token source is created) and nothing is
    emitted. *)
Theorem approach_failures_propagate (env : Env) (w : World) (e : JsError)
    (tok : CancellationTokenSource) (action : SessionStateAction) (approach : string) :
  (forall config,
      invokeGenerateApproach env (tick w) (approachRequest config action) = Throw e ->
      exists w',
        RefinementState_interact env config approach tok action w = (Throw e, w')
        /\ nextToken w' = nextToken w /\ history w' = history w
        /\ calls w' = calls w ++ [approachRequest config action])
  /\ (forall config,
        plainMessage (msg action) ->
        invokeIterateApproach env (tick w) (iterateRequest config approach action) = Throw e ->
        exists w',
          RefinementIterationState_interact env config approach tok action w = (Throw e, w')
          /\ nextToken w' = nextToken w /\ history w' = history w
          /\ calls w' = calls w ++ [iterateRequest config approach action]).
Proof.
  split.
  - intros config H. unfold RefinementState_interact. unfold bind at 1, invoke.
    fold (approachRequest config action). rewrite H.
    eexists. split; [reflexivity|]. repeat split.
  - intros config Hplain H.
    rewrite (plainMessage_iterates env config approach tok action w Hplain).
    unfold approachIteration. unfold bind at 1, invoke.
    fold (iterateRequest config approach action). rewrite H.
    eexists. split; [reflexivity|]. repeat split.
Qed.

Lemma approach_failures_propagate_witness :
  fst (RefinementState_interact
         (withApproach (fun _ _ => Throw transportFailure)
            (fun _ _ => Throw transportFailure) plainEnv)
         sampleConfigBase EmptyString 0 (sampleAction None) emptyWorld)
  = Throw transportFailure
  /\ fst (RefinementIterationState_interact
            (withApproach (fun _ _ => Throw transportFailure)
               (fun _ _ => Throw transportFailure) plainEnv)
            sampleConfig "plan" 0 (sampleAction None) emptyWorld)
     = Throw transportFailure.
Proof.
  destruct (approach_failures_propagate
              (withApproach (fun _ _ => Throw transportFailure)
                 (fun _ _ => Throw transportFailure) plainEnv)
              emptyWorld transportFailure 0 (sampleAction None) EmptyString) as [H1 _].
  destruct (approach_failures_propagate
              (withApproach (fun _ _ => Throw transportFailure)
                 (fun _ _ => Throw transportFailure) plainEnv)
              emptyWorld transportFailure 0 (sampleAction None) "plan") as [_ H2].
  destruct (H1 sampleConfigBase eq_refl) as (w1 & E1 & _).
  destruct (H2 sampleConfig) as (w2 & E2 & _).
  - intros s Hs. discriminate.
  - reflexivity.
  - rewrite E1, E2. split; reflexivity.
Defined.

(** ** The transitions of the state machine *)

Section Transitions.

Variable env : Env.

Lemma CodeGenState_interact_next config approach tok action w r w' :
  CodeGenState_interact env config approach tok action w = (Normal r, w') ->
  exists t nf, nextState r = CodeGenIterationState config approach t nf.
Proof.
  intros H.
  destruct (invokeGenerateCode env (tick w) (generateRequest config approach action))
    as [resp|e] eqn:Hg.
  - rewrite (CodeGenState_interact_started env config approach tok action w resp Hg) in H.
    destruct (generateCode env config tok (getResultsArn config) (generationId resp)
                (pollingStart config approach action w)) as [[nf|e] w1];
      injection H as <- _; eexists; eexists; reflexivity.
  - rewrite (CodeGenState_interact_throws env config approach tok action w e Hg) in H.
    discriminate.
Qed.

Lemma CodeGenIterationState_interact_next config approach tok held action w r w' :
  CodeGenIterationState_interact env config approach tok held action w = (Normal r, w') ->
  exists nf, nextState r = CodeGenIterationState config approach tok nf.
Proof.
  intros H.
  destruct (invokeGenerateCode env (tick w) (iterationRequest config approach held action))
    as [resp|e] eqn:Hg.
  - rewrite (CodeGenIterationState_interact_started env config approach tok action held w
               resp Hg) in H.
    destruct (generateCode env config tok (getResultsArn config) (generationId resp)
                (iterationStart config approach action held w)) as [[nf|e] w1];
      injection H as <- _; eexists; reflexivity.
  - rewrite (CodeGenIterationState_interact_throws env config approach tok action held w
               e Hg) in H.
    discriminate.
Qed.

Lemma MockCodeGenState_interact_next config approach tok action w r w' :
  MockCodeGenState_interact env config approach tok action w = (Normal r, w') ->
  exists t nf, nextState r = CodeGenIterationState config approach t nf.
Proof.
  unfold MockCodeGenState_interact.
  unfold bind, catch, stat, collectFiles, new_CodeGenIterationState, newTokenSource,
    logger, ret.
  destruct (statOutcome env (tick w) (pathJoin env (workspaceRoot config) "./mock-data"))
    as [[|]|e];
    [destruct (collectFilesOutcome env (tick (advance w))
                 (pathJoin env (workspaceRoot config) "./mock-data")) as [fs|e]|..];
    cbn -[createChanges];
    match goal with
    | |- context [createChanges env ?l ?w0] =>
        destruct (createChanges env l w0) as [[ch|e'] w2]
    end;
    intros H; try discriminate; injection H as <- _; eexists; eexists; reflexivity.
Qed.

Lemma RefinementState_interact_next config approach tok action w r w' :
  RefinementState_interact env config approach tok action w = (Normal r, w') ->
  exists cid a t, nextState r = RefinementIterationState (withConversationId config cid) a t.
Proof.
  unfold RefinementState_interact. unfold bind at 1, invoke.
  destruct (invokeGenerateApproach env (tick w) _) as [resp|e]; [|discriminate].
  intros H. injection H as <- _. eexists; eexists; eexists; reflexivity.
Qed.

Lemma approachIteration_next config approach action w r w' :
  approachIteration env config approach action w = (Normal r, w') ->
  exists a t, nextState r = RefinementIterationState config a t.
Proof.
  unfold approachIteration. unfold bind at 1, invoke.
  destruct (invokeIterateApproach env (tick w) _) as [resp|e]; [|discriminate].
  intros H. injection H as <- _. eexists; eexists; reflexivity.
Qed.

Lemma RefinementIterationState_interact_next config approach tok action w r w' :
  RefinementIterationState_interact env config approach tok action w = (Normal r, w') ->
  (exists a t, nextState r = RefinementIterationState config a t)
  \/ (exists t nf, nextState r = CodeGenIterationState config approach t nf).
Proof.
  unfold RefinementIterationState_interact.
  destruct (containsDirective (msg action) "WRITE CODE").
  - unfold bind at 1, newTokenSource. intros H. right.
    exact (CodeGenState_interact_next _ _ _ _ _ _ _ H).
  - destruct (containsDirective (msg action) "MOCK CODE").
    + unfold bind at 1, newTokenSource. intros H. right.
      exact (MockCodeGenState_interact_next _ _ _ _ _ _ _ H).
    + intros H. left. exact (approachIteration_next _ _ _ _ _ _ H).
Qed.

End Transitions.

(** X17.  The transitions of the state machine, in any environment.
    Whenever [interact] returns: from [RefinementState] the next state is a
    [RefinementIterationState] whose configuration is the old one with a
    conversation id; from [RefinementIterationState] it is a
    [RefinementIterationState] or a [CodeGenIterationState], from
    [CodeGenState] and [MockCodeGenState] a [CodeGenIterationState], each
    with the unchanged configuration (and, for the code-generation states,
    the unchanged approach); from [CodeGenIterationState] it is that state,
    with the same token source.  No transition leads back to
    [RefinementState], [CodeGenState] or [MockCodeGenState]. *)
Theorem interact_transitions (env : Env) (s : SessionState)
    (action : SessionStateAction) (w w' : World) (r : SessionStateInteraction) :
  interact env s action w = (Normal r, w') ->
  match s with
  | RefinementState c a t =>
      exists cid a' t',
        nextState r = RefinementIterationState (withConversationId c cid) a' t'
  | RefinementIterationState c a t =>
      (exists a' t', nextState r = RefinementIterationState c a' t')
      \/ (exists t' nf, nextState r = CodeGenIterationState c a t' nf)
  | CodeGenState c a t | MockCodeGenState c a t =>
      exists t' nf, nextState r = CodeGenIterationState c a t' nf
  | CodeGenIterationState c a t l =>
      exists nf, nextState r = CodeGenIterationState c a t nf
  end.
Proof.
  destruct s as [c a t|c a t|c a t|c a t|c a t l]; cbn [interact]; intros H.
  - exact (RefinementState_interact_next env _ _ _ _ _ _ _ H).
  - exact (RefinementIterationState_interact_next env _ _ _ _ _ _ _ H).
  - exact (CodeGenState_interact_next env _ _ _ _ _ _ _ H).
  - exact (MockCodeGenState_interact_next env _ _ _ _ _ _ _ H).
  - exact (CodeGenIterationState_interact_next env _ _ _ _ _ _ _ _ H).
Qed.

Lemma interact_transitions_witness :
  exists cid a' t',
    nextState {| nextState := RefinementIterationState sampleConfig
                                "Add a Button component" 0;
                 interactions := [aiMessage ("Add a Button component" ++ newline)] |}
    = RefinementIterationState (withConversationId sampleConfigBase cid) a' t'.
Proof.
  exact (interact_transitions plainEnv (RefinementState sampleConfigBase EmptyString 0)
           (sampleAction None) emptyWorld
           (snd (interact plainEnv (RefinementState sampleConfigBase EmptyString 0)
                   (sampleAction None) emptyWorld))
           {| nextState := RefinementIterationState sampleConfig
                             "Add a Button component" 0;
              interactions := [aiMessage ("Add a Button component" ++ newline)] |}
           eq_refl).
Defined.

(* ================================================================== *)
(** * Further properties of getConfig *)
(* ================================================================== *)

(** A leaf that is neither [undefined] nor [null]. *)
Definition isDefined (v : Json.JSValue) : Prop :=
  v <> Json.JUndefined /\ v <> Json.JNull.

(** Every leaf of a resolved configuration is defined. *)
Definition allDefined (c : LocalResolvedConfig Json.JSValue) : Prop :=
  isDefined (endpoint c) /\ isDefined (region c)
  /\ isDefined (approach_generate (arns_approach (lambdaArns c)))
  /\ isDefined (approach_iterate (arns_approach (lambdaArns c)))
  /\ isDefined (codegen_generate (arns_codegen (lambdaArns c)))
  /\ isDefined (codegen_iterate (arns_codegen (lambdaArns c)))
  /\ isDefined (codegen_getResults (arns_codegen (lambdaArns c))).

Section ConfigInvariants.

Import Json Config.

Variable numberToString : string -> string.

Lemma orDefault_isDefined (v : JSValue) (d : string) : isDefined (orDefault v d).
Proof.
  destruct v; cbn; split; discriminate.
Qed.

Lemma asValues_allDefined (c : LocalResolvedConfig string) : allDefined (asValues c).
Proof.
  repeat split; discriminate.
Qed.

Ltac step_in H :=
  match type of H with
  | context [match ?x with _ => _ end] => destruct x eqn:?
  end.

Lemma tryResolve_allDefined (config : option string) (m m1 : ConfigModule)
    (c : LocalResolvedConfig JSValue) :
  tryResolve numberToString config m = (Normal c, m1) -> allDefined c.
Proof.
  unfold tryResolve, arnOf, bind, liftCompletion, ret, throw, configLogger.
  intros H.
  repeat (step_in H; try discriminate).
  all: injection H as <- _; repeat split; try apply orDefault_isDefined.
Qed.

(** The state of the module after a version check failed. *)
Definition afterMismatch (m : ConfigModule) (found : option Z) : ConfigModule :=
  {| cachedConfig := Some (asValues defaultConfig);
     configLog := configLog m ++ [LogInvalidConfigVersion appConfigFormatVersion found] |}.

Lemma getConfig_mismatch (blob : string) (m : ConfigModule) (p v : JSValue)
    (found : option Z) :
  cachedConfig m = None ->
  JSON_parse blob = Normal p ->
  getProp p "version" = Normal v ->
  Number_parseInt numberToString v = Normal found ->
  found <> Some appConfigFormatVersion ->
  getConfig numberToString (Some blob) m
  = (Normal (asValues defaultConfig), afterMismatch m found).
Proof.
  intros Hc Hp Hv Hn Hz. unfold getConfig. rewrite Hc.
  unfold bind at 1, catch, tryResolve. unfold bind at 1, liftCompletion.
  cbn [JsString.nullish]. rewrite Hp. unfold bind at 1. rewrite Hv.
  unfold bind at 1. rewrite Hn. unfold bind at 1.
  destruct found as [z|].
  - destruct (Z.eqb z appConfigFormatVersion) eqn:E.
    + apply Z.eqb_eq in E. subst z. now destruct Hz.
    + reflexivity.
  - reflexivity.
Qed.

Lemma getConfig_version_throws (blob : string) (m : ConfigModule) (p : JSValue)
    (e : JsError) :
  cachedConfig m = None ->
  JSON_parse blob = Normal p ->
  getProp p "version" = Throw e
  \/ (exists v, getProp p "version" = Normal v
                /\ Number_parseInt numberToString v = Throw e) ->
  getConfig numberToString (Some blob) m
  = (Normal (asValues defaultConfig),
     {| cachedConfig := Some (asValues defaultConfig); configLog := configLog m |}).
Proof.
  intros Hc Hp H. unfold getConfig. rewrite Hc.
  unfold bind at 1, catch, tryResolve. unfold bind at 1, liftCompletion.
  cbn [JsString.nullish]. rewrite Hp. unfold bind at 1.
  destruct H as [Hv | (v & Hv & Hn)].
  - rewrite Hv. reflexivity.
  - rewrite Hv. unfold bind at 1. rewrite Hn. reflexivity.
Qed.

End ConfigInvariants.

(** ** Calls of getConfig that overlap *)

Section Logging.

Import Json Config.

Variable numberToString : string -> string.

(** A computation that only appends to the log, the same entries and with
    the same outcome whatever the module holds. *)
Definition logsOnly {A} (f : ST ConfigModule A) : Prop :=
  exists (r : Completion A) (l : list LogEntry),
    forall m, f m = (r, {| cachedConfig := cachedConfig m;
                           configLog := configLog m ++ l |}).

Lemma logsOnly_lift {A} (c : Completion A) : logsOnly (liftCompletion c).
Proof.
  exists c, []. intros [cc lg]. unfold liftCompletion. cbn. now rewrite app_nil_r.
Qed.

Lemma logsOnly_ret {A} (a : A) : logsOnly (ret a).
Proof. exact (logsOnly_lift (Normal a)). Qed.

Lemma logsOnly_throw {A} (e : JsError) : logsOnly (@throw ConfigModule A e).
Proof. exact (logsOnly_lift (Throw e)). Qed.

Lemma logsOnly_logger (e : LogEntry) : logsOnly (configLogger e).
Proof. exists (Normal tt), [e]. reflexivity. Qed.

Lemma logsOnly_bind {A B} (f : ST ConfigModule A) (k : A -> ST ConfigModule B) :
  logsOnly f -> (forall a, logsOnly (k a)) -> logsOnly (bind f k).
Proof.
  intros (r & l & Hf) Hk. destruct r as [a|e].
  - destruct (Hk a) as (r' & l' & Hka). exists r', (l ++ l'). intros m.
    unfold bind. rewrite Hf, Hka. cbn. now rewrite app_assoc.
  - exists (Throw e), l. intros m. unfold bind. now rewrite Hf.
Qed.

Lemma logsOnly_catch {A} (f : ST ConfigModule A) (h : JsError -> ST ConfigModule A) :
  logsOnly f -> (forall e, logsOnly (h e)) -> logsOnly (catch f h).
Proof.
  intros (r & l & Hf) Hh. destruct r as [a|e].
  - exists (Normal a), l. intros m. unfold catch. now rewrite Hf.
  - destruct (Hh e) as (r' & l' & Hhe). exists r', (l ++ l'). intros m.
    unfold catch. rewrite Hf, Hhe. cbn. now rewrite app_assoc.
Qed.

Lemma logsOnly_arnOf (p : JSValue) (group name : string) :
  logsOnly (arnOf p group name).
Proof.
  unfold arnOf. repeat (apply logsOnly_bind; [apply logsOnly_lift|intros ?]).
  apply logsOnly_lift.
Qed.

Lemma logsOnly_tryResolve (config : option string) :
  logsOnly (tryResolve numberToString config).
Proof.
  unfold tryResolve.
  do 3 (apply logsOnly_bind; [apply logsOnly_lift|intros ?]).
  apply logsOnly_bind.
  { destruct a1 as [z|].
    - destruct (Z.eqb z appConfigFormatVersion); [apply logsOnly_ret|].
      apply logsOnly_bind; [apply logsOnly_logger|intros ?; apply logsOnly_throw].
    - apply logsOnly_bind; [apply logsOnly_logger|intros ?; apply logsOnly_throw]. }
  intros _.
  do 2 (apply logsOnly_bind; [apply logsOnly_lift|intros ?]).
  do 5 (apply logsOnly_bind; [apply logsOnly_arnOf|intros ?]).
  apply logsOnly_ret.
Qed.

(** The inner function returns [resolution config] and appends
    [resolutionLog config], whatever the module holds; it does not touch
    the cache. *)
Lemma resolve_any_module (config : option string) (m : ConfigModule) :
  catch (tryResolve numberToString config) (fun _ => ret (asValues defaultConfig)) m
  = (Normal (resolution numberToString config),
     {| cachedConfig := cachedConfig m;
        configLog := configLog m ++ resolutionLog numberToString config |}).
Proof.
  destruct (logsOnly_catch (tryResolve numberToString config)
              (fun _ => ret (asValues defaultConfig))
              (logsOnly_tryResolve config) (fun _ => logsOnly_ret _)) as (r & l & H).
  unfold resolution, resolutionLog. rewrite !H. cbn [fst snd configLog app initialModule].
  assert (exists c, r = Normal c) as [c ->].
  { specialize (H initialModule). unfold catch in H.
    destruct (tryResolve numberToString config initialModule) as [[c|e] m1].
    - exists c. now injection H.
    - unfold ret in H. exists (asValues defaultConfig). now injection H. }
  reflexivity.
Qed.

Lemma getConfigStart_empty (config : option string) (m : ConfigModule) :
  cachedConfig m = None ->
  getConfigStart numberToString config m
  = (Normal (Awaiting (resolution numberToString config)),
     {| cachedConfig := None;
        configLog := configLog m ++ resolutionLog numberToString config |}).
Proof.
  intros Hc. unfold getConfigStart. rewrite Hc. unfold bind.
  rewrite resolve_any_module, Hc. reflexivity.
Qed.

End Logging.

(** X18.  A call of [getConfig] that finds a value cached returns it and
    changes nothing, so once a call has completed every later call returns
    its value, whatever the environment variable holds by then.  The value
    is stored only when the call is resumed after its [await]: two calls
    started before either is resumed both find nothing cached, both run
    the resolution (and its logging), each returns the value it resolved
    itself, and the cache ends with the value of the call resumed last. *)
Theorem getConfig_resolves_once (numberToString : string -> string) :
  (forall config m,
      Config.getConfig numberToString config m
      = (s <- Config.getConfigStart numberToString config ;; Config.getConfigResume s) m)
  /\ (forall config m,
        exists c m1,
          Config.getConfig numberToString config m = (Normal c, m1)
          /\ Config.cachedConfig m1 = Some c
          /\ forall config',
               Config.getConfigStart numberToString config' m1
               = (Normal (Config.Returned c), m1)
               /\ Config.getConfigResume (Config.Returned c) m1 = (Normal c, m1)
               /\ Config.getConfig numberToString config' m1 = (Normal c, m1))
  /\ (forall config1 config2 m,
        Config.cachedConfig m = None ->
        let c1 := Config.resolution numberToString config1 in
        let c2 := Config.resolution numberToString config2 in
        let m2 := {| Config.cachedConfig := None;
                     Config.configLog :=
                       Config.configLog m
                       ++ Config.resolutionLog numberToString config1
                       ++ Config.resolutionLog numberToString config2 |} in
        (s1 <- Config.getConfigStart numberToString config1 ;;
         s2 <- Config.getConfigStart numberToString config2 ;;
         ret (s1, s2)) m
        = (Normal (Config.Awaiting c1, Config.Awaiting c2), m2)
        /\ (r1 <- Config.getConfigResume (Config.Awaiting c1) ;;
            r2 <- Config.getConfigResume (Config.Awaiting c2) ;;
            ret (r1, r2)) m2
           = (Normal (c1, c2),
              {| Config.cachedConfig := Some c2; Config.configLog := Config.configLog m2 |})
        /\ (r2 <- Config.getConfigResume (Config.Awaiting c2) ;;
            r1 <- Config.getConfigResume (Config.Awaiting c1) ;;
            ret (r1, r2)) m2
           = (Normal (c1, c2),
              {| Config.cachedConfig := Some c1; Config.configLog := Config.configLog m2 |})).
Proof.
  split; [|split].
  - intros config m. unfold Config.getConfig, Config.getConfigStart, bind.
    destruct (Config.cachedConfig m) as [c|]; [reflexivity|].
    unfold catch. destruct (Config.tryResolve numberToString config m) as [[c|e] m1];
      reflexivity.
  - intros config m.
    destruct (getConfig_total numberToString config m) as (c & m1 & Hrun).
    assert (Config.cachedConfig m1 = Some c) as Hc.
    { revert Hrun. unfold Config.getConfig.
      destruct (Config.cachedConfig m) as [c0|] eqn:E.
      - intros H. injection H as <- <-. exact E.
      - unfold bind at 1, catch.
        destruct (Config.tryResolve numberToString config m) as [[c0|e] m0];
          intros H; injection H as <- <-; reflexivity. }
    exists c, m1. split; [exact Hrun|]. split; [exact Hc|].
    intros config'. split; [|split].
    + unfold Config.getConfigStart. now rewrite Hc.
    + reflexivity.
    + now apply getConfig_cached.
  - intros config1 config2 m Hc c1 c2 m2. split; [|split].
    + unfold bind at 1. rewrite (getConfigStart_empty numberToString config1 m Hc).
      unfold bind at 1. rewrite getConfigStart_empty by reflexivity.
      unfold ret, m2. cbn [Config.configLog]. now rewrite <- app_assoc.
    + reflexivity.
    + reflexivity.
Qed.

(** Two overlapping calls with different values of the variable: the first
    caller receives the configuration with the endpoint [https://x], while
    the cache is left with the default configuration of the second. *)
Lemma getConfig_resolves_once_witness :
  exists m2,
    (s1 <- Config.getConfigStart literalText (Some blobVersion2Endpoint) ;;
     s2 <- Config.getConfigStart literalText None ;;
     ret (s1, s2)) Config.initialModule
    = (Normal (Config.Awaiting (Config.resolution literalText (Some blobVersion2Endpoint)),
               Config.Awaiting (Config.asValues Config.defaultConfig)), m2)
    /\ endpoint (Config.resolution literalText (Some blobVersion2Endpoint))
       = Json.JString "https://x"
    /\ Config.cachedConfig
         (snd ((r1 <- Config.getConfigResume
                        (Config.Awaiting
                           (Config.resolution literalText (Some blobVersion2Endpoint))) ;;
                r2 <- Config.getConfigResume
                        (Config.Awaiting (Config.asValues Config.defaultConfig)) ;;
                ret (r1, r2)) m2))
       = Some (Config.asValues Config.defaultConfig).
Proof.
  destruct (getConfig_resolves_once literalText) as (_ & _ & H).
  destruct (H (Some blobVersion2Endpoint) None Config.initialModule eq_refl)
    as (Hstart & Hresume & _).
  eexists. split; [exact Hstart|]. split; [reflexivity|].
  exact (f_equal (fun x => Config.cachedConfig (snd x)) Hresume).
Defined.

(** X19.  Starting with nothing cached, every leaf of the configuration
    [getConfig] returns (endpoint, region and the five lambda ARNs) is
    defined: neither [undefined] nor [null], whatever the blob holds. *)
Theorem getConfig_leaves_defined (numberToString : string -> string)
    (config : option string) (m m' : Config.ConfigModule)
    (c : LocalResolvedConfig Json.JSValue) :
  Config.cachedConfig m = None ->
  Config.getConfig numberToString config m = (Normal c, m') ->
  allDefined c.
Proof.
  intros Hc. unfold Config.getConfig. rewrite Hc. unfold bind at 1, catch.
  destruct (Config.tryResolve numberToString config m) as [[c0|e] m1] eqn:E.
  - intros H. injection H as <- _.
    exact (tryResolve_allDefined numberToString config m m1 c0 E).
  - intros H. injection H as <- _. apply asValues_allDefined.
Qed.

Lemma getConfig_leaves_defined_witness :
  allDefined
    (match fst (Config.getConfig literalText (Some blobVersion2Endpoint)
                  Config.initialModule) with
     | Normal c => c
     | Throw _ => Config.asValues Config.defaultConfig
     end).
Proof.
  apply (getConfig_leaves_defined literalText (Some blobVersion2Endpoint)
           Config.initialModule
           (snd (Config.getConfig literalText (Some blobVersion2Endpoint)
                   Config.initialModule)) _ eq_refl).
  vm_compute. reflexivity.
Defined.

(** The results of [parseInt] that the model and the code hold alike:
    [NaN], and the integers of magnitude at most 2^53. *)
Definition exactInDouble (found : option Z) : Prop :=
  match found with
  | None => True
  | Some z => (Z.abs z <= 2 ^ 53)%Z
  end.

(** A blob whose [version] is an object with an own [toString]. *)
Definition blobVersionObject : string :=
  ("{" ++ Config.dq ++ "version" ++ Config.dq ++ ":{"
       ++ Config.dq ++ "toString" ++ Config.dq ++ ":1}}")%string.

(** X20.  With nothing cached and a blob that parses, the version check
    has three outcomes besides success, all of which resolve to the full
    default configuration, which is cached.  When [version] converts to a
    number that is not 2 (another integer, or not a number), exactly one
    invalid-version error is logged; it names what was found when that is
    [NaN] or an integer of magnitude at most 2^53.  When reading [version]
    throws (the blob is [null]) or its conversion throws (an object with an
    own [toString]), nothing is logged. *)
Theorem getConfig_version_mismatch (numberToString : string -> string)
    (blob : string) (m : Config.ConfigModule) (p : Json.JSValue) :
  Config.cachedConfig m = None ->
  Json.JSON_parse blob = Normal p ->
  (forall v found,
      Config.getProp p "version" = Normal v ->
      Config.Number_parseInt numberToString v = Normal found ->
      found <> Some 2%Z ->
      exists m' named,
        Config.getConfig numberToString (Some blob) m
        = (Normal (Config.asValues Config.defaultConfig), m')
        /\ Config.cachedConfig m' = Some (Config.asValues Config.defaultConfig)
        /\ Config.configLog m'
           = Config.configLog m ++ [LogInvalidConfigVersion 2 named]
        /\ (exactInDouble found -> named = found))
  /\ (forall e,
        Config.getProp p "version" = Throw e
        \/ (exists v, Config.getProp p "version" = Normal v
                      /\ Config.Number_parseInt numberToString v = Throw e) ->
        exists m',
          Config.getConfig numberToString (Some blob) m
          = (Normal (Config.asValues Config.defaultConfig), m')
          /\ Config.cachedConfig m' = Some (Config.asValues Config.defaultConfig)
          /\ Config.configLog m' = Config.configLog m)
  /\ (p = Json.JNull -> exists e, Config.getProp p "version" = Throw e)
  /\ (forall props,
        Config.getProp p "version" = Normal (Json.JObject props) ->
        Config.hasOwn props "toString" = true ->
        exists e, Config.Number_parseInt numberToString (Json.JObject props) = Throw e)
  /\ ((exists e, Config.getProp p "version" = Throw e)
      \/ exists v, Config.getProp p "version" = Normal v
                   /\ ((exists e, Config.Number_parseInt numberToString v = Throw e)
                       \/ Config.Number_parseInt numberToString v = Normal (Some 2%Z)
                       \/ exists found,
                            Config.Number_parseInt numberToString v = Normal found
                            /\ found <> Some 2%Z)).
Proof.
  intros Hc Hp. split; [|split; [|split; [|split]]].
  - intros v found Hv Hn Hz.
    rewrite (getConfig_mismatch numberToString blob m p v found Hc Hp Hv Hn Hz).
    eexists. exists found. repeat split; reflexivity.
  - intros e H.
    rewrite (getConfig_version_throws numberToString blob m p e Hc Hp H).
    eexists. repeat split; reflexivity.
  - intros ->. eexists. reflexivity.
  - intros props _ Ho. unfold Config.Number_parseInt. cbn [Config.toString].
    rewrite Ho. eexists. reflexivity.
  - destruct (Config.getProp p "version") as [v|e]; [right|left; now exists e].
    exists v. split; [reflexivity|].
    destruct (Config.Number_parseInt numberToString v) as [found|e].
    + right. destruct found as [z|].
      * destruct (Z.eq_dec z 2) as [->|Hz]; [now left|].
        right. exists (Some z). split; [reflexivity|]. congruence.
      * right. exists None. split; [reflexivity|discriminate].
    + left. now exists e.
Qed.

Lemma getConfig_version_mismatch_witness :
  (exists m',
      Config.getConfig literalText (Some blobVersion1) Config.initialModule
      = (Normal (Config.asValues Config.defaultConfig), m')
      /\ Config.configLog m' = [LogInvalidConfigVersion 2 (Some 1%Z)])
  /\ (exists m',
        Config.getConfig literalText (Some blobVersionObject) Config.initialModule
        = (Normal (Config.asValues Config.defaultConfig), m')
        /\ Config.configLog m' = []).
Proof.
  split.
  - destruct (getConfig_version_mismatch literalText blobVersion1 Config.initialModule
                (Json.JObject [("version", Json.JNumber "1")]) eq_refl) as [H _].
    + vm_compute. reflexivity.
    + destruct (H (Json.JNumber "1") (Some 1%Z)) as (m' & named & Hrun & _ & Hlog & Hnamed).
      * reflexivity.
      * reflexivity.
      * discriminate.
      * exists m'. split; [exact Hrun|]. rewrite Hlog, Hnamed; [reflexivity|].
        cbn. lia.
  - destruct (getConfig_version_mismatch literalText blobVersionObject Config.initialModule
                (Json.JObject
                   [("version", Json.JObject [("toString", Json.JNumber "1")])]) eq_refl)
      as (_ & H & _).
    + vm_compute. reflexivity.
    + destruct (H (HostError "TypeError" "Cannot convert object to primitive value"))
        as (m' & Hrun & _ & Hlog).
      * right. eexists. split; reflexivity.
      * exists m'. split; [exact Hrun|exact Hlog].
Defined.

(** X21.  When the environment variable is unset and nothing is cached,
    [getConfig] resolves to the full default configuration and logs
    nothing (for a host that renders the number 2 as ["2"]). *)
Theorem getConfig_unset_variable (numberToString : string -> string)
    (m : Config.ConfigModule) :
  numberToString "2" = "2" ->
  Config.cachedConfig m = None ->
  exists m',
    Config.getConfig numberToString None m
    = (Normal (Config.asValues Config.defaultConfig), m')
    /\ Config.configLog m' = Config.configLog m.
Proof.
  intros H2 Hc. unfold Config.getConfig. rewrite Hc.
  unfold bind at 1, catch, Config.tryResolve. unfold bind at 1, liftCompletion.
  cbn [JsString.nullish].
  assert (Json.JSON_parse Config.fallbackBlob
          = Normal (Json.JObject [("version", Json.JNumber "2")])) as Hp
    by (vm_compute; reflexivity).
  rewrite Hp. unfold bind at 1.
  cbn [Config.getProp Config.lookupLast String.eqb Ascii.eqb Bool.eqb].
  unfold bind at 1. unfold Config.Number_parseInt. cbn [Config.toString]. rewrite H2.
  eexists. split; [vm_compute; reflexivity|]. reflexivity.
Qed.

Lemma getConfig_unset_variable_witness :
  exists m',
    Config.getConfig literalText None Config.initialModule
    = (Normal (Config.asValues Config.defaultConfig), m')
    /\ Config.configLog m' = [].
Proof.
  exact (getConfig_unset_variable literalText Config.initialModule eq_refl eq_refl).
Defined.

(* ================================================================== *)
(** * The generation-flow guard (types.ts) *)
(* ================================================================== *)

Definition GenerationFlowOptions : list string := ["fargate"; "lambda"; "stepFunction"].

(** [GenerationFlowOptions.includes(value)]. *)
Definition isGenerationFlowOption (value : string) : bool :=
  existsb (String.eqb value) GenerationFlowOptions.

(** The literal of each member of the union type [GenerationFlowOption]. *)
Definition flowOptionText (o : GenerationFlowOption) : string :=
  match o with
  | fargate => "fargate"
  | lambda => "lambda"
  | stepFunction => "stepFunction"
  end.

(** X22.  The guard [isGenerationFlowOption] accepts exactly the three
    literals of the type it narrows to, compared as they are written (case
    matters), and distinct options have distinct literals. *)
Theorem isGenerationFlowOption_sound (value : string) :
  (isGenerationFlowOption value = true <-> exists o, flowOptionText o = value)
  /\ (forall o o', flowOptionText o = flowOptionText o' -> o = o')
  /\ isGenerationFlowOption "Lambda" = false
  /\ isGenerationFlowOption EmptyString = false.
Proof.
  split; [|split; [|split; reflexivity]].
  - unfold isGenerationFlowOption, GenerationFlowOptions. rewrite existsb_exists. split.
    + intros (x & Hin & E). apply String.eqb_eq in E. subst x.
      cbn in Hin. destruct Hin as [<-|[<-|[<-|[]]]];
        [exists fargate|exists lambda|exists stepFunction]; reflexivity.
    + intros [o <-]. exists (flowOptionText o). split.
      * destruct o; cbn; auto.
      * apply String.eqb_refl.
  - intros o o' H. destruct o, o'; try reflexivity; discriminate.
Qed.

(* ================================================================== *)
(** * The reference log (referenceLogViewProvider.ts) *)
(* ================================================================== *)

Module ReferenceLog.

Local Open Scope string_scope.

Definition dq : string := String (ascii_of_nat 34) EmptyString.
Definition nl : string := String (ascii_of_nat 10) EmptyString.
Definition tab : string := String (ascii_of_nat 9) EmptyString.

(** ** References

    The client declarations are not among the sources; a reference has the
    fields [getReferenceLog] reads, optional where the code compares them
    with [undefined] or the service declares them so. *)

Record Span := { start : option Z; finish : option Z }.

Record Reference := {
  licenseName : option string;
  repository : option string;
  contentSpan : option Span
}.

(** A number in a template literal, for the integers a line number can be. *)
Definition numberText (z : Z) : string := NilZero.string_of_int (Z.to_int z).

(** An optional string in a template literal. *)
Definition optionalText (o : option string) : string :=
  match o with
  | Some s => s
  | None => "undefined"
  end.

Section GetReferenceLog.

(** What [getReferenceLog] calls and does not define: [String.substring]
    (its offsets count UTF-16 units), the line of
    [editor.document.positionAt(offset)], [telemetryContext.cursorOffset],
    [LicenseUtil.getLicenseHtml] and [ConsolasConstants.referenceLogText]. *)
Variable substring : string -> Z -> Z -> string.
Variable lineAt : Z -> Z.
Variable cursorOffset : Z.
Variable getLicenseHtml : option string -> string.
Variable referenceLogText : string -> string -> string -> string -> string -> string.

(** The span of a reference the loop does not skip. *)
Definition usableSpan (reference : Reference) : option (Z * Z) :=
  match contentSpan reference with
  | Some span =>
      match start span, finish span with
      | Some s, Some e => Some (s, e)
      | _, _ => None
      end
  | None => None
  end.

Definition lineInfoText (firstCharLineNumber lastCharLineNumber : Z) : string :=
  if Z.eqb firstCharLineNumber lastCharLineNumber
  then "(line at " ++ numberText firstCharLineNumber ++ ")"
  else "(lines from " ++ numberText firstCharLineNumber ++ " to "
       ++ numberText lastCharLineNumber ++ ")".

(** What one iteration adds to [text] for a reference with the span
    [(s, e)]. *)
Definition referenceText (recommendation filePath : string)
    (reference : Reference) (s e : Z) : string :=
  let code := substring recommendation s e in
  let firstCharLineNumber := (lineAt (cursorOffset + s) + 1)%Z in
  let lastCharLineNumber := (lineAt (cursorOffset + e - 1) + 1)%Z in
  let license := "<a href=" ++ getLicenseHtml (licenseName reference) ++ ">"
                 ++ optionalText (licenseName reference) ++ "</a>" in
  let lineInfo := lineInfoText firstCharLineNumber lastCharLineNumber in
  let repo := match repository reference with
              | Some r => r
              | None => "unknown"
              end in
  referenceLogText ("<br><code>" ++ code ++ "</code><br>") license repo filePath lineInfo
  ++ " <br>".

(** The [for] loop over the references, from the text built so far. *)
Fixpoint referenceLoop (recommendation filePath : string)
    (references : list Reference) (text : string) : string :=
  match references with
  | [] => text
  | reference :: rest =>
      match usableSpan reference with
      | None => referenceLoop recommendation filePath rest text
      | Some (s, e) =>
          let text' := if String.eqb text EmptyString then text else text ++ "And " in
          referenceLoop recommendation filePath rest
            (text' ++ referenceText recommendation filePath reference s e)
      end
  end.

(** [getReferenceLog(recommendation, references, editor)], with
    [editor.document.uri.path] as [filePath] and
    [new Date().toLocaleString()] as [time]. *)
Definition getReferenceLog (recommendation : string) (references : list Reference)
    (filePath time : string) : string :=
  "[" ++ time ++ "] Accepted recommendation "
  ++ referenceLoop recommendation filePath references EmptyString ++ "<br>".

End GetReferenceLog.

(** ** The view provider *)

Record WebviewOptions := { enableScripts : bool; localResourceRoots : list string }.

(** The parts of a [WebviewView] the provider reads and writes. *)
Record WebviewView := {
  html : string;
  options : option WebviewOptions;
  messageListeners : nat;
  cspSource : string;
  styleUri : string
}.

Record Provider := {
  _extensionUri : string;
  _view : option WebviewView;
  _referenceLogs : list string
}.

(** [new ReferenceLogViewProvider(extensionUri, settings)]. *)
Definition newProvider (extensionUri : string) : Provider :=
  {| _extensionUri := extensionUri; _view := None; _referenceLogs := [] |}.

Section View.

(** [ConsolasConstants.referenceLogPromptText] and the answer of
    [isCloud9()]; [styleUri] of a view is the text of
    [webview.asWebviewUri(...)] for the style sheet. *)
Variable referenceLogPromptText : string.
Variable isCloud9 : bool.

Definition cspText (view : WebviewView) : string :=
  if isCloud9 then
   "<meta" ++ nl ++ "            http-equiv=" ++ dq ++ "Content-Security-Policy" ++
   dq ++ nl ++ "            content=" ++ nl ++ "                " ++ dq ++
   "default-src 'none';" ++ nl ++ "                img-src https: data:;" ++ nl ++
   "                script-src 'self' 'unsafe-inline';" ++ nl ++
   "                style-src 'self' 'unsafe-inline' " ++ cspSource view ++ ";" ++
   nl ++ "                font-src 'self' data:;" ++ dq ++ nl ++ "            >"
  else EmptyString.

Definition getHtml (logs : list string) (view : WebviewView) (showPrompt : bool) : string :=
  let prompt := if showPrompt then referenceLogPromptText else EmptyString in
  let csp := cspText view in
   "<!DOCTYPE html>" ++ nl ++ "            <html lang=" ++ dq ++ "en" ++ dq ++ ">" ++
   nl ++ "            <head>" ++ nl ++ tab ++ tab ++ tab ++ tab ++ csp ++ nl ++
   "                <link rel=" ++ dq ++ "stylesheet" ++ dq ++ " href=" ++ dq ++
   styleUri view ++ dq ++ ">" ++ nl ++ "            </head>" ++ nl ++
   "            <body>" ++ nl ++ "                <p>" ++ prompt ++ " </p>" ++ nl ++
   "                <p> " ++ String.concat EmptyString logs ++ " </p>" ++ nl ++
   "                <script>" ++ nl ++
   "                const vscode = acquireVsCodeApi();" ++ nl ++
   "                function openSettings() {" ++ nl ++
   "                    vscode.postMessage('aws.explorer.focus')" ++ nl ++
   "                }" ++ nl ++ "                </script>" ++ nl ++
   "            </body>" ++ nl ++ "            </html>".

Definition setHtml (text : string) (view : WebviewView) : WebviewView :=
  {| html := text; options := options view; messageListeners := messageListeners view;
     cspSource := cspSource view; styleUri := styleUri view |}.

(** [resolveWebviewView(webviewView, ..)]; [showPrompt] is what the
    settings answer during the call. *)
Definition resolveWebviewView (p : Provider) (webviewView : WebviewView)
    (showPrompt : bool) : Provider :=
  let view1 :=
    {| html := html webviewView;
       options := Some {| enableScripts := true;
                          localResourceRoots := [_extensionUri p] |};
       messageListeners := messageListeners webviewView;
       cspSource := cspSource webviewView;
       styleUri := styleUri webviewView |} in
  let view2 := setHtml (getHtml (_referenceLogs p) view1 showPrompt) view1 in
  let view3 :=
    {| html := html view2; options := options view2;
       messageListeners := S (messageListeners view2);
       cspSource := cspSource view2; styleUri := styleUri view2 |} in
  {| _extensionUri := _extensionUri p; _view := Some view3;
     _referenceLogs := _referenceLogs p |}.

(** [update()]. *)
Definition update (p : Provider) (showPrompt : bool) : Provider :=
  match _view p with
  | Some view =>
      {| _extensionUri := _extensionUri p;
         _view := Some (setHtml (getHtml (_referenceLogs p) view showPrompt) view);
         _referenceLogs := _referenceLogs p |}
  | None => p
  end.

(** [addReferenceLog(referenceLog)]. *)
Definition addReferenceLog (p : Provider) (referenceLog : string) (showPrompt : bool)
  : Provider :=
  update {| _extensionUri := _extensionUri p; _view := _view p;
            _referenceLogs := (_referenceLogs p ++ [referenceLog])%list |} showPrompt.

(** A run of [addReferenceLog] calls, each with the settings' answer. *)
Fixpoint addAll (p : Provider) (logs : list (string * bool)) : Provider :=
  match logs with
  | [] => p
  | (l, b) :: rest => addAll (addReferenceLog p l b) rest
  end.

End View.

End ReferenceLog.

(** ** Properties of the reference log *)

Section ReferenceLogProperties.

Import ReferenceLog.
Local Open Scope string_scope.

Variable substring : string -> Z -> Z -> string.
Variable lineAt : Z -> Z.
Variable cursorOffset : Z.
Variable getLicenseHtml : option string -> string.
Variable referenceLogText : string -> string -> string -> string -> string -> string.

(** The texts of the references that have a complete span, in order. *)
Definition referenceTexts (recommendation filePath : string)
    (references : list Reference) : list string :=
  flat_map (fun reference =>
              match usableSpan reference with
              | Some (s, e) =>
                  [referenceText substring lineAt cursorOffset getLicenseHtml
                     referenceLogText recommendation filePath reference s e]
              | None => []
              end) references.

(** Every text preceded by ["And "]. *)
Definition andEach (texts : list string) : string :=
  fold_right (fun t acc => "And " ++ t ++ acc) EmptyString texts.

(** The texts separated by ["And "]. *)
Definition joinAnd (texts : list string) : string :=
  match texts with
  | [] => EmptyString
  | t :: rest => t ++ andEach rest
  end.

Lemma string_app_nonempty_r (a b : string) : b <> EmptyString -> a ++ b <> EmptyString.
Proof.
  intros Hb H. destruct a; [now apply Hb|discriminate].
Qed.

Lemma referenceText_nonempty recommendation filePath reference s e :
  referenceText substring lineAt cursorOffset getLicenseHtml referenceLogText
    recommendation filePath reference s e <> EmptyString.
Proof.
  unfold referenceText. apply string_app_nonempty_r. discriminate.
Qed.

Lemma referenceLoop_spec recommendation filePath (references : list Reference) :
  forall text,
    referenceLoop substring lineAt cursorOffset getLicenseHtml referenceLogText
      recommendation filePath references text
    = if String.eqb text EmptyString
      then joinAnd (referenceTexts recommendation filePath references)
      else text ++ andEach (referenceTexts recommendation filePath references).
Proof.
  induction references as [|reference rest IH]; intros text.
  - cbn. destruct (String.eqb_spec text EmptyString) as [->|_]; [reflexivity|].
    clear. induction text as [|c t IH]; [reflexivity|]. cbn. now rewrite <- IH.
  - cbn [referenceLoop referenceTexts flat_map].
    destruct (usableSpan reference) as [[s e]|]; [|apply IH].
    rewrite IH. cbn [app].
    set (t := referenceText substring lineAt cursorOffset getLicenseHtml referenceLogText
                recommendation filePath reference s e).
    assert (t <> EmptyString) as Ht by apply referenceText_nonempty.
    fold (referenceTexts recommendation filePath rest).
    destruct (String.eqb_spec text EmptyString) as [->|Hne].
    + cbn [append]. destruct (String.eqb_spec t EmptyString) as [E|_]; [now destruct Ht|].
      reflexivity.
    + destruct (String.eqb_spec ((text ++ "And ") ++ t) EmptyString) as [E|_].
      * exfalso. revert E. apply string_app_nonempty_r. exact Ht.
      * cbn [andEach fold_right]. fold (andEach (referenceTexts recommendation filePath rest)).
        rewrite !string_app_assoc. reflexivity.
Qed.

End ReferenceLogProperties.

(** X23.  [getReferenceLog] is the time stamp and the fixed opening,
    followed by the texts of the references that have a complete span, in
    their order and separated by ["And "], followed by [<br>].  A reference
    without a span, or whose span lacks its start or its end, contributes
    nothing (removing it changes nothing), and with no usable reference the
    log is the opening and [<br>] alone. *)
Theorem getReferenceLog_joins_usable_references
    (substring : string -> Z -> Z -> string) (lineAt : Z -> Z) (cursorOffset : Z)
    (getLicenseHtml : option string -> string)
    (referenceLogText : string -> string -> string -> string -> string -> string)
    (recommendation : string) (references : list ReferenceLog.Reference)
    (filePath time : string) :
  let log := ReferenceLog.getReferenceLog substring lineAt cursorOffset getLicenseHtml
               referenceLogText recommendation in
  log references filePath time
  = ("[" ++ time ++ "] Accepted recommendation "
     ++ joinAnd (referenceTexts substring lineAt cursorOffset getLicenseHtml
                   referenceLogText recommendation filePath references)
     ++ "<br>")%string
  /\ log references filePath time
     = log (filter (fun r => match ReferenceLog.usableSpan r with
                             | Some _ => true
                             | None => false
                             end) references) filePath time
  /\ (Forall (fun r => ReferenceLog.usableSpan r = None) references ->
      log references filePath time
      = ("[" ++ time ++ "] Accepted recommendation <br>")%string).
Proof.
  cbv zeta. unfold ReferenceLog.getReferenceLog.
  rewrite !referenceLoop_spec. cbn [String.eqb].
  assert (forall l,
            referenceTexts substring lineAt cursorOffset getLicenseHtml referenceLogText
              recommendation filePath
              (filter (fun r => match ReferenceLog.usableSpan r with
                                | Some _ => true
                                | None => false
                                end) l)
            = referenceTexts substring lineAt cursorOffset getLicenseHtml referenceLogText
                recommendation filePath l) as Hfilter.
  { induction l as [|r l IH]; [reflexivity|]. cbn [filter].
    unfold referenceTexts in *. destruct (ReferenceLog.usableSpan r) as [[s e]|] eqn:E.
    - cbn [flat_map]. rewrite E, IH. reflexivity.
    - cbn [flat_map]. rewrite E. exact IH. }
  split; [reflexivity|]. split; [now rewrite Hfilter|].
  intros Hall.
  assert (referenceTexts substring lineAt cursorOffset getLicenseHtml referenceLogText
            recommendation filePath references = []) as E.
  { induction Hall as [|r l Hr _ IH]; [reflexivity|].
    unfold referenceTexts in *. cbn [flat_map]. rewrite Hr, IH. reflexivity. }
  rewrite E. reflexivity.
Qed.

Section ViewProperties.

Import ReferenceLog.

Variable referenceLogPromptText : string.
Variable isCloud9 : bool.

(** The page only depends on the view through its CSP source and the URI
    of the style sheet. *)
Lemma getHtml_same_view (logs : list string) (v view : WebviewView) (b : bool) :
  cspSource v = cspSource view -> styleUri v = styleUri view ->
  getHtml referenceLogPromptText isCloud9 logs v b
  = getHtml referenceLogPromptText isCloud9 logs view b.
Proof.
  intros Hc Hs. unfold getHtml, cspText. rewrite Hc, Hs. reflexivity.
Qed.

(** The view shows the page of the provider's logs. *)
Definition rendered (p : Provider) (view : WebviewView) (b : bool) : Prop :=
  exists v,
    _view p = Some v
    /\ html v = getHtml referenceLogPromptText isCloud9 (_referenceLogs p) view b
    /\ cspSource v = cspSource view
    /\ styleUri v = styleUri view.

Lemma addAll_without_view (logs : list (string * bool)) :
  forall p, _view p = None ->
    _view (addAll referenceLogPromptText isCloud9 p logs) = None
    /\ _referenceLogs (addAll referenceLogPromptText isCloud9 p logs)
       = _referenceLogs p ++ map fst logs.
Proof.
  induction logs as [|[l b] logs IH]; intros p Hp.
  - cbn. rewrite app_nil_r. split; [exact Hp|reflexivity].
  - cbn [addAll map fst].
    assert (addReferenceLog referenceLogPromptText isCloud9 p l b
            = {| _extensionUri := _extensionUri p; _view := None;
                 _referenceLogs := _referenceLogs p ++ [l] |}) as E.
    { unfold addReferenceLog, update. cbn [_view]. rewrite Hp. reflexivity. }
    rewrite E.
    destruct (IH {| _extensionUri := _extensionUri p; _view := None;
                    _referenceLogs := _referenceLogs p ++ [l] |} eq_refl) as [Hv Hl].
    split; [exact Hv|]. rewrite Hl. cbn. rewrite <- app_assoc. reflexivity.
Qed.

Lemma resolveWebviewView_rendered (p : Provider) (view : WebviewView) (b : bool) :
  rendered (resolveWebviewView referenceLogPromptText isCloud9 p view b) view b
  /\ _referenceLogs (resolveWebviewView referenceLogPromptText isCloud9 p view b)
     = _referenceLogs p.
Proof.
  split; [|reflexivity]. eexists. split; [reflexivity|].
  split; reflexivity || (split; reflexivity).
Qed.

Lemma last_after_head {A} (l : list A) (a d : A) : last (a :: l) d = last l a.
Proof.
  revert a d; induction l as [|x l IH]; intros a d; [reflexivity|].
  change (last (a :: x :: l) d) with (last (x :: l) d). rewrite !IH. reflexivity.
Qed.

Lemma addAll_rendered (view : WebviewView) (logs : list (string * bool)) :
  forall p b, rendered p view b ->
    rendered (addAll referenceLogPromptText isCloud9 p logs) view (last (map snd logs) b)
    /\ _referenceLogs (addAll referenceLogPromptText isCloud9 p logs)
       = _referenceLogs p ++ map fst logs.
Proof.
  induction logs as [|[l b'] logs IH]; intros p b Hr.
  - cbn. rewrite app_nil_r. split; [exact Hr|reflexivity].
  - cbn [addAll]. destruct Hr as (v & Hv & _ & Hc & Hs).
    assert (rendered (addReferenceLog referenceLogPromptText isCloud9 p l b') view b'
            /\ _referenceLogs (addReferenceLog referenceLogPromptText isCloud9 p l b')
               = _referenceLogs p ++ [l]) as [Hr' Hl'].
    { unfold addReferenceLog, update. cbn [_view]. rewrite Hv. split; [|reflexivity].
      eexists. split; [reflexivity|]. cbn [html setHtml cspSource styleUri _referenceLogs].
      split; [now apply getHtml_same_view|]. split; assumption. }
    destruct (IH _ b' Hr') as [Hr'' Hl''].
    split.
    + cbn [map snd]. rewrite last_after_head. exact Hr''.
    + rewrite Hl'', Hl'. cbn. rewrite <- app_assoc. reflexivity.
Qed.

(** Occurrence of a text in a longer one. *)
Lemma occursIn_refl (s : string) : occursIn s s.
Proof.
  exists EmptyString, EmptyString. cbn.
  induction s as [|c s IH]; [reflexivity|]. cbn. now rewrite <- IH.
Qed.

Lemma occursIn_app_r (pat a s : string) : occursIn pat s -> occursIn pat (a ++ s).
Proof.
  intros (pre & suf & ->). exists (a ++ pre)%string, suf.
  now rewrite string_app_assoc.
Qed.

Lemma occursIn_app_l (pat s a : string) : occursIn pat s -> occursIn pat (s ++ a).
Proof.
  intros (pre & suf & ->). exists pre, (suf ++ a)%string.
  now rewrite !string_app_assoc.
Qed.

Lemma occursIn_trans (a b c : string) : occursIn a b -> occursIn b c -> occursIn a c.
Proof.
  intros Hab (pre & suf & ->). apply occursIn_app_r, occursIn_app_l. exact Hab.
Qed.

Lemma occursIn_here (a b c rest : string) :
  occursIn (a ++ b ++ c) (a ++ b ++ c ++ rest).
Proof.
  exists EmptyString, rest. cbn. now rewrite !string_app_assoc.
Qed.

(** Each joined text occurs in the join. *)
Lemma occursIn_concat (l : string) (logs : list string) :
  In l logs -> occursIn l (String.concat EmptyString logs).
Proof.
  induction logs as [|x logs IH]; intros H; [destruct H|].
  cbn [String.concat]. destruct logs as [|y logs].
  - destruct H as [->|[]]. apply occursIn_refl.
  - destruct H as [->|H].
    + apply occursIn_app_l, occursIn_refl.
    + apply occursIn_app_r. cbn [append]. apply IH. exact H.
Qed.

(** The page holds the paragraph of the joined logs. *)
Lemma getHtml_logs_paragraph (logs : list string) (view : WebviewView) (b : bool) :
  occursIn ("                <p> " ++ String.concat EmptyString logs ++ " </p>")
    (getHtml referenceLogPromptText isCloud9 logs view b).
Proof.
  unfold getHtml. cbv zeta.
  repeat first [apply occursIn_here | apply occursIn_app_r].
Qed.

Lemma getHtml_each_log (logs : list string) (view : WebviewView) (b : bool) (l : string) :
  In l logs -> occursIn l (getHtml referenceLogPromptText isCloud9 logs view b).
Proof.
  intros H. apply occursIn_trans with (2 := getHtml_logs_paragraph logs view b).
  apply occursIn_app_r, occursIn_app_l, occursIn_concat. exact H.
Qed.

End ViewProperties.

(** A view as the host hands it over, and the page the provider writes
    to it on Cloud9 for the logs [a] and [b] with the prompt shown. *)
Definition sampleView : ReferenceLog.WebviewView :=
  {| ReferenceLog.html := EmptyString;
     ReferenceLog.options := None;
     ReferenceLog.messageListeners := 0;
     ReferenceLog.cspSource := "vscode-resource:";
     ReferenceLog.styleUri := "style.css" |}.

Definition samplePage : string :=
  let nl := ReferenceLog.nl in
  let dq := ReferenceLog.dq in
  let tab := ReferenceLog.tab in
  ("<!DOCTYPE html>" ++ nl
   ++ "            <html lang=" ++ dq ++ "en" ++ dq ++ ">" ++ nl
   ++ "            <head>" ++ nl
   ++ tab ++ tab ++ tab ++ tab ++ "<meta" ++ nl
   ++ "            http-equiv=" ++ dq ++ "Content-Security-Policy" ++ dq ++ nl
   ++ "            content=" ++ nl
   ++ "                " ++ dq ++ "default-src 'none';" ++ nl
   ++ "                img-src https: data:;" ++ nl
   ++ "                script-src 'self' 'unsafe-inline';" ++ nl
   ++ "                style-src 'self' 'unsafe-inline' vscode-resource:;" ++ nl
   ++ "                font-src 'self' data:;" ++ dq ++ nl
   ++ "            >" ++ nl
   ++ "                <link rel=" ++ dq ++ "stylesheet" ++ dq
   ++ " href=" ++ dq ++ "style.css" ++ dq ++ ">" ++ nl
   ++ "            </head>" ++ nl
   ++ "            <body>" ++ nl
   ++ "                <p>Do not show code with references </p>" ++ nl
   ++ "                <p> first<br>second<br> </p>" ++ nl
   ++ "                <script>" ++ nl
   ++ "                const vscode = acquireVsCodeApi();" ++ nl
   ++ "                function openSettings() {" ++ nl
   ++ "                    vscode.postMessage('aws.explorer.focus')" ++ nl
   ++ "                }" ++ nl
   ++ "                </script>" ++ nl
   ++ "            </body>" ++ nl
   ++ "            </html>")%string.

(** X24.  No reference log is lost and the view shows them all.  Logs
    added before a view exists are only stored (there is no view to write
    to).  Once [resolveWebviewView] has attached a view, and after any
    further [addReferenceLog] calls, the provider holds every log in the
    order added and the view's html is the page of exactly those logs,
    with the prompt as the settings answered at the last write: every
    stored log occurs in the html, and so does the paragraph holding all
    of them joined in the order added with nothing in between; the view's
    CSP source and style sheet are untouched. *)
Theorem reference_logs_are_all_rendered (referenceLogPromptText : string)
    (isCloud9 : bool) (extensionUri : string)
    (before after : list (string * bool)) (view : ReferenceLog.WebviewView) (b : bool) :
  let p1 := ReferenceLog.addAll referenceLogPromptText isCloud9
              (ReferenceLog.newProvider extensionUri) before in
  let p := ReferenceLog.addAll referenceLogPromptText isCloud9
             (ReferenceLog.resolveWebviewView referenceLogPromptText isCloud9 p1 view b)
             after in
  ReferenceLog._view p1 = None
  /\ ReferenceLog._referenceLogs p1 = map fst before
  /\ ReferenceLog._referenceLogs p = map fst before ++ map fst after
  /\ exists v,
       ReferenceLog._view p = Some v
       /\ ReferenceLog.html v
          = ReferenceLog.getHtml referenceLogPromptText isCloud9
              (map fst before ++ map fst after) view (last (map snd after) b)
       /\ ReferenceLog.cspSource v = ReferenceLog.cspSource view
       /\ ReferenceLog.styleUri v = ReferenceLog.styleUri view
       /\ (forall l, In l (map fst before ++ map fst after) ->
             occursIn l (ReferenceLog.html v))
       /\ occursIn
            ("                <p> "
             ++ String.concat EmptyString (map fst before ++ map fst after)
             ++ " </p>")%string
            (ReferenceLog.html v)
       /\ (last (map snd after) b = true ->
           occursIn ("                <p>" ++ referenceLogPromptText ++ " </p>")%string
             (ReferenceLog.html v)).
Proof.
  cbv zeta.
  destruct (addAll_without_view referenceLogPromptText isCloud9 before
              (ReferenceLog.newProvider extensionUri) eq_refl) as [Hv Hl].
  cbn [ReferenceLog._referenceLogs ReferenceLog.newProvider app] in Hl.
  split; [exact Hv|]. split; [exact Hl|].
  destruct (resolveWebviewView_rendered referenceLogPromptText isCloud9
              (ReferenceLog.addAll referenceLogPromptText isCloud9
                 (ReferenceLog.newProvider extensionUri) before) view b) as [Hr Hl1].
  destruct (addAll_rendered referenceLogPromptText isCloud9 view after _ b Hr)
    as [(v & Hv' & Hh & Hc & Hs) Hl2].
  rewrite Hl1, Hl in Hl2. split; [exact Hl2|].
  exists v. rewrite Hl2 in Hh.
  split; [exact Hv'|]. split; [exact Hh|]. split; [exact Hc|]. split; [exact Hs|].
  rewrite Hh. split; [|split].
  - intros l Hin. now apply getHtml_each_log.
  - apply getHtml_logs_paragraph.
  - intros ->. unfold ReferenceLog.getHtml. cbv zeta.
    repeat first [apply occursIn_here | apply occursIn_app_r].
Qed.

Lemma reference_logs_are_all_rendered_witness :
  exists v,
    ReferenceLog._view
      (ReferenceLog.addAll "Do not show code with references" true
         (ReferenceLog.resolveWebviewView "Do not show code with references" true
            (ReferenceLog.addAll "Do not show code with references" true
               (ReferenceLog.newProvider "extension") [("first<br>", false)])
            sampleView false)
         [("second<br>", true)])
    = Some v
    /\ ReferenceLog.html v = samplePage.
Proof.
  destruct (reference_logs_are_all_rendered "Do not show code with references" true
              "extension" [("first<br>", false)] [("second<br>", true)] sampleView false)
    as (_ & _ & _ & v & Hv & Hh & _).
  exists v. split; [exact Hv|]. rewrite Hh. vm_compute. reflexivity.
Defined.

(** ** The merge of file sets without assumptions on the paths *)

Lemma filter_superseded_nil (G l : list FileMetadata) :
  (forall g, In g l -> In g G) ->
  filter (fun originalFile =>
            negb (existsb (fun newFile =>
                             String.eqb (filePath newFile) (filePath originalFile)) G)) l
  = [].
Proof.
  induction l as [|g l IH]; intros H; [reflexivity|]. cbn [filter].
  assert (existsb (fun newFile => String.eqb (filePath newFile) (filePath g)) G = true) as E.
  { apply superseded_In. apply in_map. apply H. left. reflexivity. }
  rewrite E. cbn. apply IH. intros x Hx. apply H. right. exact Hx.
Qed.

(** X25.  For any file lists (paths may repeat): with nothing generated
    the snapshot is the originals as they are, and with no originals it is
    the generated files; the snapshot keeps every generated file, holds
    nothing that was in neither list, is never longer than both lists
    together, and merging the generated files into it again changes
    nothing. *)
Theorem mergeFileContents_edges (G O : list FileMetadata) :
  mergeFileContents [] O = O
  /\ mergeFileContents G [] = G
  /\ (forall f, In f G -> In f (mergeFileContents G O))
  /\ (forall f, In f (mergeFileContents G O) -> In f G \/ In f O)
  /\ List.length (mergeFileContents G O) <= List.length G + List.length O
  /\ mergeFileContents G (mergeFileContents G O) = mergeFileContents G O.
Proof.
  unfold mergeFileContents. split; [|split; [|split; [|split; [|split]]]].
  - cbn. induction O as [|o O IH]; [reflexivity|]. cbn. now rewrite IH.
  - cbn. apply app_nil_r.
  - intros f H. apply in_or_app. left. exact H.
  - intros f H. apply in_app_or in H as [H|H]; [left; exact H|].
    right. apply filter_In in H. exact (proj1 H).
  - rewrite length_app. pose proof (filter_length_le
      (fun originalFile =>
         negb (existsb (fun newFile => String.eqb (filePath newFile) (filePath originalFile)) G))
      O). lia.
  - f_equal. rewrite filter_app.
    replace (filter _ G) with (@nil FileMetadata).
    + cbn. induction O as [|o O IH]; [reflexivity|]. cbn.
      destruct (negb (existsb _ G)) eqn:E; cbn; [rewrite E|]; now rewrite IH.
    + symmetry. apply filter_superseded_nil. intros g Hg. exact Hg.
Qed.
